(** * Message archive: ingest, deduplication and export

    A shallow embedding of the message-archive skill: the event-log parser
    ([lib/event-parser.js]), the archive database manager ([MessageArchive],
    lib/archive-db), the event scanner ([tools/archive-scan.js]) and the
    WhatsApp export parser ([lib/backfill-parsers.js]).

    SQLite tables are lists of rows in insertion order; a statement that
    violates a constraint is a [Threw] result; JavaScript values read from
    JSON are the [json] tree below, with [None] standing for [undefined]. *)

From Stdlib Require Import String Ascii List ZArith Bool Lia.
From Stdlib Require Import Sorting.Sorted DecimalPos.
Import ListNotations.
Open Scope string_scope.
Open Scope Z_scope.
Set Warnings "-register-all".

(* ------------------------------------------------------------------ *)
(** ** JavaScript values *)

Inductive json : Type :=
| JNull
| JBool (b : bool)
| JNum (n : Z)
| JStr (s : string)
| JArr (xs : list json)
| JObj (kvs : list (string * json)).

Fixpoint assoc {A} (k : string) (kvs : list (string * A)) : option A :=
  match kvs with
  | [] => None
  | (k', v) :: rest => if String.eqb k k' then Some v else assoc k rest
  end.

(** Property read [v.k] on a value that is not [null]/[undefined]:
    only objects carry named properties here. *)
Definition get (v : json) (k : string) : option json :=
  match v with
  | JObj kvs => assoc k kvs
  | _ => None
  end.

(** JavaScript truthiness of a possibly-undefined value. *)
Definition truthy (v : option json) : bool :=
  match v with
  | None | Some JNull => false
  | Some (JBool b) => b
  | Some (JNum n) => negb (n =? 0)
  | Some (JStr s) => negb (String.eqb s "")
  | Some (JArr _) | Some (JObj _) => true
  end.

(** [x || null] on a string-valued column: the empty string is falsy. *)
Definition or_null (o : option string) : option string :=
  match o with
  | Some "" => None
  | x => x
  end.

(** Decimal rendering of an integer, as [String(n)] does. *)
Fixpoint uint_to_string (u : Decimal.uint) : string :=
  match u with
  | Decimal.Nil => ""
  | Decimal.D0 u => String "0" (uint_to_string u)
  | Decimal.D1 u => String "1" (uint_to_string u)
  | Decimal.D2 u => String "2" (uint_to_string u)
  | Decimal.D3 u => String "3" (uint_to_string u)
  | Decimal.D4 u => String "4" (uint_to_string u)
  | Decimal.D5 u => String "5" (uint_to_string u)
  | Decimal.D6 u => String "6" (uint_to_string u)
  | Decimal.D7 u => String "7" (uint_to_string u)
  | Decimal.D8 u => String "8" (uint_to_string u)
  | Decimal.D9 u => String "9" (uint_to_string u)
  end.

Definition Z_to_dec (z : Z) : string :=
  match Z.to_int z with
  | Decimal.Pos u => uint_to_string u
  | Decimal.Neg u => "-" ++ uint_to_string u
  end.

(** A JavaScript number that may be [NaN] (an invalid date's time value). *)
Definition num_to_string (n : option Z) : string :=
  match n with
  | Some z => Z_to_dec z
  | None => "NaN"
  end.

(** [String(v)], and the interpolation [`${v}`], of a value that is not
    [undefined]; [None] is the TypeError thrown for an object with an own
    [toString] property (a JSON value there is never callable, and
    [valueOf] gives the object back).  An array is joined with commas, its
    [null] elements giving the empty string. *)
Fixpoint js_to_string (v : json) : option string :=
  match v with
  | JNull => Some "null"
  | JBool b => Some (if b then "true" else "false")
  | JNum n => Some (Z_to_dec n)
  | JStr s => Some s
  | JArr xs =>
      let fix join (xs : list json) : option (list string) :=
        match xs with
        | [] => Some []
        | x :: rest =>
            match (match x with JNull => Some "" | _ => js_to_string x end),
                  join rest with
            | Some s, Some ss => Some (s :: ss)
            | _, _ => None
            end
        end in
      option_map (String.concat ",") (join xs)
  | JObj kvs =>
      match assoc "toString" kvs with
      | Some _ => None
      | None => Some "[object Object]"
      end
  end.

(** Template-literal interpolation [`${v}`] ([None]: it throws). *)
Definition tmpl (v : option json) : option string :=
  match v with
  | None => Some "undefined"
  | Some x => js_to_string x
  end.

(** [JSON.stringify] on text (strings are UTF-8 bytes): the quote, the
    backslash and the control characters are escaped, the latter as
    [\b], [\t], [\n], [\f], [\r] or [\u00xx] in lowercase hexadecimal. *)
Definition json_hex_digit (n : nat) : ascii :=
  ascii_of_nat (if Nat.ltb n 10 then 48 + n else 87 + n).

Definition escaped (c : ascii) : string :=
  String (ascii_of_nat 92) (String c EmptyString).

Definition quote_char (c : ascii) : string :=
  let n := nat_of_ascii c in
  if Nat.eqb n 34 then escaped c
  else if Nat.eqb n 92 then escaped c
  else if Nat.eqb n 8 then escaped "b"
  else if Nat.eqb n 9 then escaped "t"
  else if Nat.eqb n 10 then escaped "n"
  else if Nat.eqb n 12 then escaped "f"
  else if Nat.eqb n 13 then escaped "r"
  else if Nat.ltb n 32 then
    String (ascii_of_nat 92)
      ("u00" ++ String (json_hex_digit (n / 16)) (String (json_hex_digit (n mod 16)) EmptyString))
  else String c EmptyString.

Fixpoint quote_body (s : string) : string :=
  match s with
  | EmptyString => EmptyString
  | String c rest => quote_char c ++ quote_body rest
  end.

Definition quote (s : string) : string :=
  String (ascii_of_nat 34) (quote_body s ++ String (ascii_of_nat 34) EmptyString).

(** [JSON.stringify(v)] with no indentation; an object's properties are
    written in the order [kvs] lists them (the engine's property order). *)
Fixpoint json_stringify (v : json) : string :=
  match v with
  | JNull => "null"
  | JBool b => if b then "true" else "false"
  | JNum n => Z_to_dec n
  | JStr s => quote s
  | JArr xs => "[" ++ String.concat "," (map json_stringify xs) ++ "]"
  | JObj kvs =>
      "{" ++ String.concat ","
               (map (fun '(k, x) => quote k ++ ":" ++ json_stringify x) kvs) ++ "}"
  end.

(** [v || null] and [v || 0]. *)
Definition or_null_js (v : option json) : option json :=
  if truthy v then v else Some JNull.

Definition or_zero_js (v : option json) : option json :=
  if truthy v then v else Some (JNum 0).

(** [JSON.stringify] of an object literal drops the keys whose value is
    [undefined]. *)
Fixpoint obj_defined (kvs : list (string * option json)) : list (string * json) :=
  match kvs with
  | [] => []
  | (k, Some v) :: rest => (k, v) :: obj_defined rest
  | (k, None) :: rest => obj_defined rest
  end.

(* ------------------------------------------------------------------ *)
(** ** SHA-256 (node's [crypto.createHash('sha256')], hex digest)

    Strings are byte strings; for ASCII text they coincide with the UTF-8
    encoding that [hash.update(string)] uses. *)

Module Sha256.

Definition w32 (x : Z) : Z := Z.land x (Z.ones 32).
Definition rotr (x n : Z) : Z :=
  w32 (Z.lor (Z.shiftr x n) (Z.shiftl x (32 - n))).
Definition notw (x : Z) : Z := Z.lxor x (Z.ones 32).

Definition ch (x y z : Z) := Z.lxor (Z.land x y) (Z.land (notw x) z).
Definition maj (x y z : Z) := Z.lxor (Z.lxor (Z.land x y) (Z.land x z)) (Z.land y z).
Definition bsig0 (x : Z) := Z.lxor (Z.lxor (rotr x 2) (rotr x 13)) (rotr x 22).
Definition bsig1 (x : Z) := Z.lxor (Z.lxor (rotr x 6) (rotr x 11)) (rotr x 25).
Definition ssig0 (x : Z) := Z.lxor (Z.lxor (rotr x 7) (rotr x 18)) (Z.shiftr x 3).
Definition ssig1 (x : Z) := Z.lxor (Z.lxor (rotr x 17) (rotr x 19)) (Z.shiftr x 10).

(** The round constants: the first 32 bits of the fractional parts of
    the cube roots of the first 64 primes (in decimal). *)
Definition K : list Z :=
  [1116352408; 1899447441; 3049323471; 3921009573; 961987163; 1508970993;
   2453635748; 2870763221; 3624381080; 310598401; 607225278; 1426881987;
   1925078388; 2162078206; 2614888103; 3248222580; 3835390401; 4022224774;
   264347078; 604807628; 770255983; 1249150122; 1555081692; 1996064986;
   2554220882; 2821834349; 2952996808; 3210313671; 3336571891; 3584528711;
   113926993; 338241895; 666307205; 773529912; 1294757372; 1396182291;
   1695183700; 1986661051; 2177026350; 2456956037; 2730485921; 2820302411;
   3259730800; 3345764771; 3516065817; 3600352804; 4094571909; 275423344;
   430227734; 506948616; 659060556; 883997877; 958139571; 1322822218;
   1537002063; 1747873779; 1955562222; 2024104815; 2227730452; 2361852424;
   2428436474; 2756734187; 3204031479; 3329325298].

(** The initial hash value: the first 32 bits of the fractional parts
    of the square roots of the first 8 primes. *)
Definition H0 : list Z :=
  [1779033703; 3144134277; 1013904242; 2773480762;
   1359893119; 2600822924; 528734635; 1541459225].

Definition bytes_of_string (s : string) : list Z :=
  map (fun c => Z.of_nat (nat_of_ascii c)) (list_ascii_of_string s).

(** Big-endian encoding of [x] on [n] bytes. *)
Fixpoint be_bytes (n : nat) (x : Z) : list Z :=
  match n with
  | O => []
  | S n' => (be_bytes n' (Z.shiftr x 8) ++ [Z.land x 255])%list
  end.

Definition pad (msg : list Z) : list Z :=
  let len := Z.of_nat (length msg) in
  let zeros := Z.to_nat ((55 - len) mod 64) in
  (msg ++ [128] ++ repeat 0 zeros ++ be_bytes 8 (8 * len))%list.

Fixpoint words (bs : list Z) : list Z :=
  match bs with
  | a :: b :: c :: d :: rest =>
      Z.lor (Z.shiftl a 24) (Z.lor (Z.shiftl b 16) (Z.lor (Z.shiftl c 8) d))
      :: words rest
  | _ => []
  end.

Fixpoint chunks (n : nat) (fuel : nat) (xs : list Z) : list (list Z) :=
  match fuel with
  | O => []
  | S fuel' =>
      match xs with
      | [] => []
      | _ => firstn n xs :: chunks n fuel' (skipn n xs)
      end
  end.

(** Message schedule: extend the 16 block words to 64. *)
Fixpoint schedule (fuel : nat) (w : list Z) : list Z :=
  match fuel with
  | O => w
  | S fuel' =>
      let t := length w in
      let wt := w32 (ssig1 (nth (t - 2) w 0) + nth (t - 7) w 0
                     + ssig0 (nth (t - 15) w 0) + nth (t - 16) w 0) in
      schedule fuel' (w ++ [wt])%list
  end.

Definition round (st : list Z) (kw : Z * Z) : list Z :=
  match st with
  | [a; b; c; d; e; f; g; h] =>
      let t1 := w32 (h + bsig1 e + ch e f g + fst kw + snd kw) in
      let t2 := w32 (bsig0 a + maj a b c) in
      [w32 (t1 + t2); a; b; c; w32 (d + t1); e; f; g]
  | _ => st
  end.

Definition compress (hs : list Z) (block : list Z) : list Z :=
  let w := schedule 48 (words block) in
  let st := fold_left round (combine K w) hs in
  map (fun p => w32 (fst p + snd p)) (combine hs st).

Definition hex_digit (n : Z) : ascii :=
  if n <? 10 then ascii_of_nat (48 + Z.to_nat n)
  else ascii_of_nat (87 + Z.to_nat n).

Fixpoint hex_word (n : nat) (x : Z) : string :=
  match n with
  | O => ""
  | S n' => hex_word n' (Z.shiftr x 4) ++ String (hex_digit (Z.land x 15)) ""
  end.

Definition digest (s : string) : string :=
  let p := pad (bytes_of_string s) in
  let hs := fold_left compress (chunks 64 (length p) p) H0 in
  String.concat "" (map (hex_word 8) hs).

End Sha256.

Example sha256_abc :
  Sha256.digest "abc" =
  "ba7816bf8f01cfea414140de5dae2223b00361a396177a9cb410ff61f20015ad".
Proof. vm_compute. reflexivity. Qed.

Example sha256_empty :
  Sha256.digest "" =
  "e3b0c44298fc1c149afbf4c8996fb92427ae41e4649b934ca495991b7852b855".
Proof. vm_compute. reflexivity. Qed.

(* ------------------------------------------------------------------ *)
(** ** Archive events (the objects produced by [EventParser]) *)

(** One archive event as the parser builds it.  The fields copied from the
    record ([event_id: raw.id], [role: msg.role], [raw.parentId || null],
    ...) hold the JavaScript value read, [None] being [undefined];
    [timestamp] is [new Date(raw.timestamp).getTime()], [None] when that is
    [NaN]; [content_json] is the text [JSON.stringify] returned; the fields
    with a leading underscore are the parser's extras for the satellite
    tables ([None] where the object has no such property). *)
Record event := mkEvent {
  event_id : option json;
  parent_event_id : option json;
  session_id : option json;
  event_type : string;
  event_subtype : option json;
  timestamp : option Z;
  content_json : string;
  role : option json;
  tool_name : option json;
  model_provider : option json;
  model_id : option json;
  is_error : Z;
  _thinking_content : option string;
  _thinking_signature : option json;
  _content_size : option Z;
  _usage : option json
}.

(** [e.session_id = sid]. *)
Definition with_session_id (e : event) (sid : option json) : event :=
  {| event_id := event_id e; parent_event_id := parent_event_id e;
     session_id := sid; event_type := event_type e;
     event_subtype := event_subtype e; timestamp := timestamp e;
     content_json := content_json e; role := role e; tool_name := tool_name e;
     model_provider := model_provider e; model_id := model_id e;
     is_error := is_error e; _thinking_content := _thinking_content e;
     _thinking_signature := _thinking_signature e;
     _content_size := _content_size e; _usage := _usage e |}.

(** The rest of the UTF-8 text [s] after its first character, when that
    character is JavaScript white space (WhiteSpace or LineTerminator,
    what [trim] removes and [\s] matches): U+0009 to U+000D, U+0020,
    U+00A0, U+1680, U+2000 to U+200A, U+2028, U+2029, U+202F, U+205F,
    U+3000 and U+FEFF. *)
Definition ws_rest (s : string) : option string :=
  match s with
  | String a r1 =>
      let x := nat_of_ascii a in
      if (Nat.eqb x 32 || (Nat.leb 9 x && Nat.leb x 13))%bool then Some r1 else
      match r1 with
      | String b r2 =>
          let y := nat_of_ascii b in
          if (Nat.eqb x 194 && Nat.eqb y 160)%bool then Some r2 else
          match r2 with
          | String c r3 =>
              let z := nat_of_ascii c in
              if ((Nat.eqb x 225 && Nat.eqb y 154 && Nat.eqb z 128)
                  || (Nat.eqb x 226 && Nat.eqb y 128
                      && ((Nat.leb 128 z && Nat.leb z 138) || Nat.eqb z 168
                          || Nat.eqb z 169 || Nat.eqb z 175))
                  || (Nat.eqb x 226 && Nat.eqb y 129 && Nat.eqb z 159)
                  || (Nat.eqb x 227 && Nat.eqb y 128 && Nat.eqb z 128)
                  || (Nat.eqb x 239 && Nat.eqb y 187 && Nat.eqb z 191))%bool
              then Some r3 else None
          | EmptyString => None
          end
      | EmptyString => None
      end
  | EmptyString => None
  end.

(** The text after its leading white space ([fuel] bounds the characters
    dropped; the length of the text is always enough). *)
Fixpoint drop_ws (fuel : nat) (s : string) : string :=
  match fuel with
  | O => s
  | Datatypes.S f => match ws_rest s with Some r => drop_ws f r | None => s end
  end.

(** [!line.trim()]: the line is empty or white space only. *)
Definition blank (line : string) : bool :=
  String.eqb (drop_ws (String.length line) line) "".

Section EventParser.

(** The host's [JSON.parse] ([None]: it throws a SyntaxError) and
    [Date.parse] on strings ([None]: [NaN]). *)
Variable JSON_parse : string -> option json.
Variable Date_parse : string -> option Z.

(** [new Date(v).getTime()]: [None] when the constructor throws, [Some
    None] when the time is [NaN].  A string is parsed; a number is kept
    within the time-value range; [null] and booleans are converted to
    numbers; an array or object is converted to a primitive first
    ([valueOf] gives the object back, then [toString]), which throws for an
    object with an own [toString] and otherwise gives a string to parse. *)
Definition date_ms (v : option json) : option (option Z) :=
  match v with
  | None => Some None
  | Some JNull => Some (Some 0)
  | Some (JBool b) => Some (Some (if b then 1 else 0))
  | Some (JNum n) => Some (if Z.abs n <=? 8640000000000000 then Some n else None)
  | Some (JStr s) => Some (Date_parse s)
  | Some x => option_map Date_parse (js_to_string x)
  end.

Definition str_eq (v : option json) (s : string) : bool :=
  match v with
  | Some (JStr s') => String.eqb s' s
  | _ => false
  end.

Definition parseSessionEvent (raw : json) : option event :=
  match date_ms (get raw "timestamp") with
  | None => None
  | Some ts =>
      Some {| event_id := get raw "id"; parent_event_id := Some JNull;
              session_id := get raw "id"; event_type := "session";
              event_subtype := Some JNull; timestamp := ts;
              content_json := json_stringify
                (JObj (obj_defined [("version", get raw "version");
                                    ("cwd", get raw "cwd")]));
              role := Some JNull; tool_name := Some JNull;
              model_provider := Some JNull; model_id := Some JNull;
              is_error := 0; _thinking_content := None;
              _thinking_signature := None; _content_size := None; _usage := None |}
  end.

Definition parseModelChangeEvent (raw : json) : option event :=
  match date_ms (get raw "timestamp") with
  | None => None
  | Some ts =>
      Some {| event_id := get raw "id";
              parent_event_id := or_null_js (get raw "parentId");
              session_id := Some JNull; event_type := "model_change";
              event_subtype := Some JNull; timestamp := ts;
              content_json := json_stringify
                (JObj (obj_defined [("provider", get raw "provider");
                                    ("modelId", get raw "modelId")]));
              role := Some JNull; tool_name := Some JNull;
              model_provider := get raw "provider";
              model_id := get raw "modelId";
              is_error := 0; _thinking_content := None;
              _thinking_signature := None; _content_size := None; _usage := None |}
  end.

Definition parseThinkingLevelEvent (raw : json) : option event :=
  match date_ms (get raw "timestamp") with
  | None => None
  | Some ts =>
      Some {| event_id := get raw "id";
              parent_event_id := or_null_js (get raw "parentId");
              session_id := Some JNull; event_type := "thinking_level_change";
              event_subtype := Some JNull; timestamp := ts;
              content_json := json_stringify
                (JObj (obj_defined [("thinkingLevel", get raw "thinkingLevel")]));
              role := Some JNull; tool_name := Some JNull;
              model_provider := Some JNull; model_id := Some JNull;
              is_error := 0; _thinking_content := None;
              _thinking_signature := None; _content_size := None; _usage := None |}
  end.

Definition parseCustomEvent (raw : json) : option event :=
  match date_ms (get raw "timestamp") with
  | None => None
  | Some ts =>
      Some {| event_id := get raw "id";
              parent_event_id := or_null_js (get raw "parentId");
              session_id := Some JNull; event_type := "custom";
              event_subtype := or_null_js (get raw "customType");
              timestamp := ts;
              content_json := json_stringify
                (JObj (obj_defined [("customType", get raw "customType");
                                    ("data", get raw "data")]));
              role := Some JNull; tool_name := Some JNull;
              model_provider := Some JNull; model_id := Some JNull;
              is_error := 0; _thinking_content := None;
              _thinking_signature := None; _content_size := None; _usage := None |}
  end.

(** [for (const block of msg.content)]: arrays yield their items, strings
    yield one-character strings (which never carry a [type]), anything else
    is not iterable and throws. *)
Definition iter_content (c : json) : option (list json) :=
  match c with
  | JArr xs => Some xs
  | JStr _ => Some []
  | _ => None
  end.

Definition is_tool_block (b : json) : bool :=
  (str_eq (get b "type") "toolCall" || str_eq (get b "type") "toolUse")%bool.

Definition is_thinking_block (b : json) : bool := str_eq (get b "type") "thinking".

(** The events minted for one content block of an assistant message
    ([None]: it throws, on [block.type] of [null], on an interpolated
    object with an own [toString], or on [Buffer.byteLength] of a thinking
    text that is not a string). *)
Definition block_events (raw : json) (ts : option Z) (block : json)
  : option (list event) :=
  match block with
  | JNull => None
  | _ =>
    let tool :=
      if is_tool_block block then
        match tmpl (get raw "id"), tmpl (get block "id") with
        | Some p, Some b =>
          Some [{| event_id := Some (JStr (p ++ "_tool_" ++ b));
                   parent_event_id := get raw "id";
                   session_id := Some JNull; event_type := "tool_call";
                   event_subtype := Some JNull; timestamp := ts;
                   content_json := json_stringify (JObj (obj_defined
                     [("id", get block "id"); ("name", get block "name");
                      ("arguments", if truthy (get block "arguments")
                                    then get block "arguments" else get block "input")]));
                   role := Some JNull; tool_name := get block "name";
                   model_provider := Some JNull; model_id := Some JNull;
                   is_error := 0; _thinking_content := None;
                   _thinking_signature := None; _content_size := None;
                   _usage := None |}]
        | _, _ => None
        end
      else Some [] in
    match tool with
    | None => None
    | Some tool =>
      if is_thinking_block block then
        let th := if truthy (get block "thinking") then get block "thinking"
                  else Some (JStr "") in
        match th, tmpl (get raw "id") with
        | Some (JStr text), Some p =>
            let size := Z.of_nat (String.length text) in
            Some (tool ++
              [{| event_id := Some (JStr (p ++ "_thinking"));
                  parent_event_id := get raw "id";
                  session_id := Some JNull; event_type := "thinking_block";
                  event_subtype := Some JNull; timestamp := ts;
                  content_json := json_stringify (JObj
                    [("type", JStr "thinking");
                     ("has_signature", JBool (truthy (get block "thinkingSignature")));
                     ("size_bytes", JNum size)]);
                  role := Some JNull; tool_name := Some JNull;
                  model_provider := Some JNull; model_id := Some JNull;
                  is_error := 0; _thinking_content := Some text;
                  _thinking_signature := or_null_js (get block "thinkingSignature");
                  _content_size := Some size; _usage := None |}])%list
        | _, _ => None
        end
      else Some tool
    end
  end.

Fixpoint blocks_events (raw : json) (ts : option Z) (bs : list json)
  : option (list event) :=
  match bs with
  | [] => Some []
  | b :: rest =>
      match block_events raw ts b, blocks_events raw ts rest with
      | Some es, Some es' => Some (es ++ es')%list
      | _, _ => None
      end
  end.

(** The [_usage] object of a [usage_stats] event ([cost = usage.cost || {}]). *)
Definition derived_usage (usage : json) : json :=
  let cost := if truthy (get usage "cost")
              then match get usage "cost" with Some c => c | None => JObj [] end
              else JObj [] in
  let z v := match or_zero_js v with Some x => x | None => JNum 0 end in
  JObj [("input_tokens", z (get usage "input"));
        ("output_tokens", z (get usage "output"));
        ("cache_read_tokens", z (get usage "cacheRead"));
        ("cache_write_tokens", z (get usage "cacheWrite"));
        ("total_tokens", z (get usage "totalTokens"));
        ("input_cost", z (get cost "input"));
        ("output_cost", z (get cost "output"));
        ("cache_read_cost", z (get cost "cacheRead"));
        ("cache_write_cost", z (get cost "cacheWrite"));
        ("total_cost", z (get cost "total"))].

(** The body of [parseMessageEvent] once [baseTimestamp] (the time value
    [ts]) and [msg] are read. *)
Definition messageEvents (raw : json) (ts : option Z) (msg : json)
  : option (list event) :=
  let isToolResult := str_eq (get msg "role") "toolResult" in
  let assistant := str_eq (get msg "role") "assistant" in
  let mainEvent :=
    {| event_id := get raw "id";
       parent_event_id := or_null_js (get raw "parentId");
       session_id := Some JNull;
       event_type := if isToolResult then "tool_result" else "message";
       event_subtype := Some JNull; timestamp := ts;
       content_json := json_stringify msg;
       role := get msg "role";
       tool_name := if isToolResult then get msg "toolName" else Some JNull;
       model_provider := or_null_js (get msg "provider");
       model_id := or_null_js (get msg "model");
       is_error := if isToolResult then (if truthy (get msg "isError") then 1 else 0) else 0;
       _thinking_content := None; _thinking_signature := None;
       _content_size := None; _usage := None |} in
  let blocks :=
    if (assistant && truthy (get msg "content"))%bool then
      match get msg "content" with
      | Some c => match iter_content c with
                  | Some bs => blocks_events raw ts bs
                  | None => None
                  end
      | None => Some []
      end
    else Some [] in
  let usage :=
    if (assistant && truthy (get msg "usage"))%bool then
      match get msg "usage", tmpl (get raw "id") with
      | Some u, Some p =>
        Some [{| event_id := Some (JStr (p ++ "_usage"));
                 parent_event_id := get raw "id";
                 session_id := Some JNull; event_type := "usage_stats";
                 event_subtype := Some JNull; timestamp := ts;
                 content_json := json_stringify u;
                 role := Some JNull; tool_name := Some JNull;
                 model_provider := or_null_js (get msg "provider");
                 model_id := or_null_js (get msg "model"); is_error := 0;
                 _thinking_content := None; _thinking_signature := None;
                 _content_size := None; _usage := Some (derived_usage u) |}]
      | _, _ => None
      end
    else Some [] in
  match blocks, usage with
  | Some bes, Some us => Some (mainEvent :: bes ++ us)%list
  | _, _ => None
  end.

(** [parseMessageEvent]: [None] when it throws. *)
Definition parseMessageEvent (raw : json) : option (list event) :=
  match date_ms (get raw "timestamp"), get raw "message" with
  | None, _ => None                          (* new Date(raw.timestamp) throws *)
  | Some _, None => None                     (* msg.role throws *)
  | Some ts, Some msg =>
      match msg with
      | JNull => None                        (* msg.role throws *)
      | _ => messageEvents raw ts msg
      end
  end.

(** [parseEvent]: the [switch] on [rawEvent.type] (strict equality on each
    [case], no match falls to [default]). *)
Definition parseEvent (raw : json) : option (list event) :=
  let one o := option_map (fun e => [e]) o in
  match get raw "type" with
  | Some (JStr t) =>
      if String.eqb t "session" then one (parseSessionEvent raw)
      else if String.eqb t "model_change" then one (parseModelChangeEvent raw)
      else if String.eqb t "thinking_level_change" then one (parseThinkingLevelEvent raw)
      else if String.eqb t "custom" then one (parseCustomEvent raw)
      else if String.eqb t "message" then parseMessageEvent raw
      else Some []
  | _ => Some []
  end.

(** The body of the [for await] loop for one line: the events it pushes.
    Every exception inside the [try] is caught and the line contributes
    nothing. *)
Definition parseLineEvents (sinceTimestamp : Z) (line : string) : list event :=
  if blank line then []
  else
    match JSON_parse line with
    | None => []
    | Some JNull => []                      (* rawEvent.timestamp throws *)
    | Some raw =>
        match date_ms (get raw "timestamp") with
        | None => []                        (* new Date(...) throws *)
        | Some (Some t) =>
            if t <=? sinceTimestamp then []
            else match parseEvent raw with Some es => es | None => [] end
        | Some None =>                       (* NaN <= since is false *)
            match parseEvent raw with Some es => es | None => [] end
        end
    end.

Fixpoint parseLines (sinceTimestamp : Z) (lines : list string) : list event :=
  match lines with
  | [] => []
  | l :: rest => (parseLineEvents sinceTimestamp l ++ parseLines sinceTimestamp rest)%list
  end.

(** [parseEvents(path, since)]: a file is its lines, or [None] when it does
    not exist, in which case the call throws ([None]). *)
Definition parseEvents (file : option (list string)) (sinceTimestamp : Z)
  : option (list event) :=
  match file with
  | None => None
  | Some lines => Some (parseLines sinceTimestamp lines)
  end.

End EventParser.

(* ------------------------------------------------------------------ *)
(** ** Statement parameters (better-sqlite3's binder) *)

Inductive sql_error :=
| SQLITE_CONSTRAINT_NOTNULL
| SQLITE_CONSTRAINT_UNIQUE
| SQLITE_CONSTRAINT_FOREIGNKEY
| SQLITE_CONSTRAINT_CHECK.

Definition sql_error_eqb (a b : sql_error) : bool :=
  match a, b with
  | SQLITE_CONSTRAINT_NOTNULL, SQLITE_CONSTRAINT_NOTNULL
  | SQLITE_CONSTRAINT_UNIQUE, SQLITE_CONSTRAINT_UNIQUE
  | SQLITE_CONSTRAINT_FOREIGNKEY, SQLITE_CONSTRAINT_FOREIGNKEY
  | SQLITE_CONSTRAINT_CHECK, SQLITE_CONSTRAINT_CHECK => true
  | _, _ => false
  end.

(** An exception of a statement: a [SqliteError] with its [code], or the
    TypeError or RangeError the binder throws before the statement runs. *)
Inductive js_error :=
| SqliteError (code : sql_error)
| BindError.

(** A value bound to a parameter, as the column stores it.  JavaScript
    numbers are bound as doubles; the numbers of [json] are integers. *)
Inductive sqlv :=
| SNull
| SNum (n : Z)
| SText (s : string).

(** [BindValue]: a number, a string, [null] or [undefined]; anything else
    (a boolean, or an array or object met inside an array) is the
    TypeError "SQLite3 can only bind numbers, strings, bigints, buffers,
    and null". *)
Definition bind_value (v : option json) : option sqlv :=
  match v with
  | None | Some JNull => Some SNull
  | Some (JNum n) => Some (SNum n)
  | Some (JStr s) => Some (SText s)
  | _ => None
  end.

Fixpoint bind_elems (xs : list json) : option (list sqlv) :=
  match xs with
  | [] => Some []
  | x :: rest =>
      match bind_value (Some x), bind_elems rest with
      | Some a, Some b => Some (a :: b)
      | _, _ => None
      end
  end.

(** [BindArgs] over the arguments of [run] or [get]: an array is spread
    over the next anonymous parameters; a plain object is a bag of named
    parameters, of which these statements have none, so it binds nothing,
    and a second one is refused ("You cannot specify named parameters in
    two different objects"); any other value binds the next parameter.
    [None]: the binder throws. *)
Fixpoint bind_args (bound_object : bool) (args : list (option json))
  : option (list sqlv) :=
  match args with
  | [] => Some []
  | Some (JArr xs) :: rest =>
      match bind_elems xs, bind_args bound_object rest with
      | Some a, Some b => Some (a ++ b)%list
      | _, _ => None
      end
  | Some (JObj _) :: rest => if bound_object then None else bind_args true rest
  | v :: rest =>
      match bind_value v, bind_args bound_object rest with
      | Some a, Some b => Some (a :: b)
      | _, _ => None
      end
  end.

(** Binding a statement of [n] anonymous parameters: the values bound, or
    [None] when a value is refused or their number is not [n] ("Too few" or
    "Too many parameter values were provided"). *)
Definition bind_params (n : nat) (args : list (option json)) : option (list sqlv) :=
  match bind_args false args with
  | Some vs => if Nat.eqb (length vs) n then Some vs else None
  | None => None
  end.

(** A number argument; [NaN] is bound as a double, which SQLite stores as
    NULL. *)
Definition num_arg (t : option Z) : option json :=
  match t with Some n => Some (JNum n) | None => Some JNull end.

(** [=] between two values: NULL equals nothing.  Values are compared as
    bound (the column affinities of the DDL are not modelled). *)
Definition sql_eq (a b : sqlv) : bool :=
  match a, b with
  | SNum x, SNum y => x =? y
  | SText x, SText y => String.eqb x y
  | _, _ => false
  end.

Definition is_sql_null (v : sqlv) : bool :=
  match v with SNull => true | _ => false end.

(* ------------------------------------------------------------------ *)
(** ** The events store ([MessageArchive] event methods) *)

(** A row of [events]: the fifteen values the INSERT bound, in the order of
    its column list ([event_id], [parent_event_id], [session_key],
    [session_id], [event_type], [event_subtype], [timestamp], [created_at],
    [content_json], [role], [tool_name], [model_provider], [model_id],
    [is_error], [content_size]). *)
Definition event_row : Type := list sqlv.

Definition col (i : nat) (r : list sqlv) : sqlv := nth i r SNull.

Definition ev_event_id (r : event_row) : sqlv := col 0 r.
Definition ev_parent_event_id (r : event_row) : sqlv := col 1 r.
Definition ev_session_id (r : event_row) : sqlv := col 3 r.
Definition ev_event_type (r : event_row) : sqlv := col 4 r.
Definition ev_timestamp (r : event_row) : sqlv := col 6 r.
Definition ev_content_json (r : event_row) : sqlv := col 8 r.

(** The event tables, plus the [archive_state] entry
    [last_events_scan_timestamp] (stored as [now.toString()] and read back
    with [parseInt], i.e. the number itself).  The satellite tables hold
    the values their INSERTs bound. *)
Record estore := mkEStore {
  events : list event_row;
  thinking_blocks : list (list sqlv);
  usage_stats : list (list sqlv);
  events_checkpoint : option Z
}.

Definition empty_estore : estore := mkEStore [] [] [] None.

(** [SELECT id FROM events WHERE event_id = ?] with [v] bound finds a row. *)
Definition has_event_id (S : estore) (v : sqlv) : bool :=
  existsb (fun r => sql_eq (ev_event_id r) v) (events S).

(** Modelled from the spec: the DDL of the [events] table
    ([message-archive-events-schema.sql]) is not among the sources.  Its
    constraints as docs/TROUBLESHOOTING.md and the spec (sections 3, 4.1
    and 7) give them: [event_id UNIQUE NOT NULL], [session_id NOT NULL],
    a missing [timestamp] rejected, and
    [FOREIGN KEY (parent_event_id) REFERENCES events(event_id)], checked when
    foreign keys are on.  NOT NULL is checked first, then uniqueness, then
    the foreign key at the end of the statement (a row may name itself). *)
Definition event_row_error (fk_on : bool) (S : estore) (r : event_row)
  : option sql_error :=
  if (is_sql_null (ev_event_id r) || is_sql_null (ev_session_id r)
      || is_sql_null (ev_timestamp r))%bool
  then Some SQLITE_CONSTRAINT_NOTNULL
  else if has_event_id S (ev_event_id r) then Some SQLITE_CONSTRAINT_UNIQUE
  else if fk_on then
    let p := ev_parent_event_id r in
    if (is_sql_null p || sql_eq p (ev_event_id r) || has_event_id S p)%bool
    then None else Some SQLITE_CONSTRAINT_FOREIGNKEY
  else None.

(** The one constraint of [thinking_blocks] and [usage_stats] is modelled
    from the spec (section 3: one row per event), their DDL not being among
    the sources: [event_id] (the first value bound) is unique. *)
Definition satellite_has (tbl : list (list sqlv)) (v : sqlv) : bool :=
  existsb (fun r => sql_eq (col 0 r) v) tbl.

(** [insertThinkingBlock(eventId, content, signature, size)] at clock
    [now]: the store after it, or [None] when it throws.  A binding error
    is rethrown; a UNIQUE conflict is swallowed. *)
Definition insertThinkingBlock (now : Z) (S : estore) (eventId content signature size : option json)
  : option estore :=
  match bind_params 5 [eventId; content; or_null_js signature; size; Some (JNum now)] with
  | None => None
  | Some row =>
      if satellite_has (thinking_blocks S) (col 0 row) then Some S
      else Some (mkEStore (events S) (thinking_blocks S ++ [row])%list
                          (usage_stats S) (events_checkpoint S))
  end.

Definition usage_keys : list string :=
  ["input_tokens"; "output_tokens"; "cache_read_tokens"; "cache_write_tokens";
   "total_tokens"; "input_cost"; "output_cost"; "cache_read_cost";
   "cache_write_cost"; "total_cost"].

(** The values [insertUsageStats] binds after [eventId]. *)
Definition usage_args (usage : json) (provider modelId : option json)
    (timestamp : option Z) : list (option json) :=
  (map (fun k => or_zero_js (get usage k)) usage_keys
   ++ [or_null_js provider; or_null_js modelId; num_arg timestamp])%list.

(** [insertUsageStats(eventId, usage, provider, modelId, timestamp)]. *)
Definition insertUsageStats (S : estore) (eventId : option json) (usage : json)
    (provider modelId : option json) (timestamp : option Z) : option estore :=
  match bind_params 14 (eventId :: usage_args usage provider modelId timestamp) with
  | None => None
  | Some row =>
      if satellite_has (usage_stats S) (col 0 row) then Some S
      else Some (mkEStore (events S) (thinking_blocks S)
                          (usage_stats S ++ [row])%list (events_checkpoint S))
  end.

(** The outcome of [insertEvent]: a row id returned, [null], or an
    exception together with the store as the exception leaves it (the
    events row stays when a satellite insert throws after it). *)
Inductive insert_outcome :=
| Inserted (S' : estore)
| Skipped
| Threw (err : js_error) (S' : estore).

(** [if (!eventData.session_id && eventData.event_type === 'session')
    eventData.session_id = eventData.event_id]. *)
Definition session_fill (e : event) : event :=
  if (negb (truthy (session_id e)) && String.eqb (event_type e) "session")%bool
  then with_session_id e (event_id e) else e.

(** The fifteen arguments of the INSERT into [events]; [now] is
    [Date.now()]. *)
Definition event_args (e : event) (sessionKey : string) (now : Z) : list (option json) :=
  [event_id e; or_null_js (parent_event_id e); Some (JStr sessionKey);
   or_null_js (session_id e); Some (JStr (event_type e));
   or_null_js (event_subtype e); num_arg (timestamp e); Some (JNum now);
   Some (JStr (content_json e)); or_null_js (role e); or_null_js (tool_name e);
   or_null_js (model_provider e); or_null_js (model_id e);
   Some (JNum (is_error e));
   Some (JNum (Z.of_nat (String.length (content_json e))))].

(** The value the duplicate check binds: [None] when [get] throws. *)
Definition select_key (e : event) : option sqlv :=
  match bind_params 1 [event_id e] with
  | Some [v] => Some v
  | _ => None
  end.

Definition bound_row (e : event) (sessionKey : string) (now : Z) : option event_row :=
  bind_params 15 (event_args e sessionKey now).

(** [insertEvent(eventData, sessionKey, {skipIfExists})] with foreign keys
    [fk_on] at clock [now]. *)
Definition insertEvent (fk_on : bool) (now : Z) (S : estore) (eventData : event)
    (sessionKey : string) (skipIfExists : bool) : insert_outcome :=
  let e := session_fill eventData in
  let existing :=
    if skipIfExists then
      match select_key e with
      | None => None
      | Some v => Some (has_event_id S v)
      end
    else Some false in
  match existing with
  | None => Threw BindError S                (* the SELECT's get throws *)
  | Some true => Skipped
  | Some false =>
    match bound_row e sessionKey now with
    | None => Threw BindError S
    | Some row =>
      match event_row_error fk_on S row with
      | Some err =>
          if (sql_error_eqb err SQLITE_CONSTRAINT_UNIQUE && skipIfExists)%bool
          then Skipped else Threw (SqliteError err) S
      | None =>
        let S1 := mkEStore (events S ++ [row])%list (thinking_blocks S)
                           (usage_stats S) (events_checkpoint S) in
        let S2 :=
          if (String.eqb (event_type e) "thinking_block"
              && truthy (option_map JStr (_thinking_content e)))%bool
          then insertThinkingBlock now S1 (event_id e)
                 (option_map JStr (_thinking_content e)) (_thinking_signature e)
                 (option_map JNum (_content_size e))
          else Some S1 in
        match S2 with
        | None => Threw BindError S1
        | Some S2 =>
          let S3 :=
            if (String.eqb (event_type e) "usage_stats" && truthy (_usage e))%bool
            then match _usage e with
                 | Some u => insertUsageStats S2 (event_id e) u (model_provider e)
                               (model_id e) (timestamp e)
                 | None => Some S2
                 end
            else Some S2 in
          match S3 with
          | None => Threw BindError S2
          | Some S3 => Inserted S3
          end
        end
      end
    end
  end.

Record counters := mkCounters {
  inserted : nat;
  skipped : nat;
  errors : nat
}.

Definition zero_counters : counters := mkCounters 0 0 0.

Record batch_options := mkBatchOptions {
  skipIfExists : bool;              (* default true *)
  sessionId : option string;
  disableForeignKeys : bool         (* default false *)
}.

(** The session id of [insertEventBatch]: [options.sessionId || null],
    else that of the first [session] event of the batch, else [null]. *)
Definition batch_session_id (opts : batch_options) (evs : list event) : option json :=
  let o := option_map JStr (sessionId opts) in
  if truthy o then o
  else match find (fun e => String.eqb (event_type e) "session") evs with
       | Some e => session_id e
       | None => Some JNull
       end.

(** [if (!e.session_id) e.session_id = sessionId]. *)
Definition fill_session (sid : option json) (e : event) : event :=
  if truthy (session_id e) then e else with_session_id e sid.

(** The transaction body: every exception of [insertEvent] is caught and
    counted, and the loop goes on with the store as the exception left
    it. *)
Fixpoint batch_loop (fk_on : bool) (now : Z) (sessionKey : string) (skip : bool)
    (S : estore) (c : counters) (evs : list event) : estore * counters :=
  match evs with
  | [] => (S, c)
  | e :: rest =>
      match insertEvent fk_on now S e sessionKey skip with
      | Inserted S' =>
          batch_loop fk_on now sessionKey skip S'
            (mkCounters (Nat.succ (inserted c)) (skipped c) (errors c)) rest
      | Skipped =>
          batch_loop fk_on now sessionKey skip S
            (mkCounters (inserted c) (Nat.succ (skipped c)) (errors c)) rest
      | Threw _ S' =>
          batch_loop fk_on now sessionKey skip S'
            (mkCounters (inserted c) (skipped c) (Nat.succ (errors c))) rest
      end
  end.

(** [insertEventBatch(events, sessionKey, options)] at clock [now]. *)
Definition insertEventBatch (now : Z) (S : estore) (evs : list event)
    (sessionKey : string) (opts : batch_options) : estore * counters :=
  let sid := batch_session_id opts evs in
  let evs' := map (fill_session sid) evs in
  batch_loop (negb (disableForeignKeys opts)) now sessionKey (skipIfExists opts)
             S zero_counters evs'.

(* ------------------------------------------------------------------ *)
(** ** The event scanner ([scanEvents] of tools/archive-scan.js) *)

Section Scanner.

Variable JSON_parse : string -> option json.
Variable Date_parse : string -> option Z.

(** A session file: its basename without [.jsonl] (the session id) and its
    lines, [None] when it cannot be read. *)
Definition session_file : Type := (string * option (list string))%type.

Record scan_stats := mkScanStats {
  totalInserted : nat;
  totalSkipped : nat;
  totalErrors : nat;
  filesProcessed : nat
}.

Definition zero_scan_stats : scan_stats := mkScanStats 0 0 0 0.

(** The session key is a constant in the scanner ([// TODO: extract from
    path]). *)
Definition scan_session_key : string := "agent:main:main".

(** The loop over the files; [now] is the clock the inserts read. *)
Fixpoint scan_files (now : Z) (lastTimestamp : Z) (force : bool) (db : estore)
    (st : scan_stats) (files : list session_file) : estore * scan_stats :=
  match files with
  | [] => (db, st)
  | (basename, content) :: rest =>
      match parseEvents JSON_parse Date_parse content lastTimestamp with
      | None =>                                 (* caught: errors++ *)
          scan_files now lastTimestamp force db
            (mkScanStats (totalInserted st) (totalSkipped st)
                         (Nat.succ (totalErrors st)) (filesProcessed st)) rest
      | Some [] => scan_files now lastTimestamp force db st rest
      | Some evs =>
          let '(db', r) :=
            insertEventBatch now db evs scan_session_key
              (mkBatchOptions true (Some basename) force) in
          scan_files now lastTimestamp force db'
            (mkScanStats (totalInserted st + inserted r)
                         (totalSkipped st + skipped r)
                         (totalErrors st + errors r)
                         (Nat.succ (filesProcessed st))) rest
      end
  end.

Definition set_events_checkpoint (db : estore) (now : Z) : estore :=
  mkEStore (events db) (thinking_blocks db) (usage_stats db) (Some now).

(** [scanEvents(archive, sessionFiles, force)] run at wall-clock [now] (the
    clock is read as [now] throughout the scan). *)
Definition scanEvents (db : estore) (files : list session_file) (force : bool)
    (now : Z) : estore * scan_stats :=
  let stored := match events_checkpoint db with Some t => t | None => 0 end in
  let lastTimestamp := if force then 0 else stored in
  let '(db', st) := scan_files now lastTimestamp force db zero_scan_stats files in
  (set_events_checkpoint db' now, st).

End Scanner.

(* ------------------------------------------------------------------ *)
(** ** The messages store ([MessageArchive] message methods) *)

(** The [messageData] object handed to [insertMessage].  [None] is
    [undefined] (or [null]); a [timestamp] of [None] is [NaN], the time
    value of an invalid date.  The pass-through columns that no check reads
    ([internal_id], [session_id], [sender_name], [recipient_id],
    [recipient_name], [device_id], [content_json], [thread_id]) are left
    out. *)
Record message_data := mkMessageData {
  m_message_id : option string;
  m_session_key : option string;
  m_direction : option string;
  m_sender_id : option string;
  m_channel : option string;
  m_content_type : option string;
  m_content_text : option string;
  m_reply_to_id : option string;
  m_timestamp : option Z;
  m_edited_at : option Z;
  m_deleted_at : option Z;
  m_created_at : option Z
}.

(** A row of [messages]. *)
Record message_row := mkMessageRow {
  row_message_id : string;
  row_session_key : string;
  row_direction : string;
  row_sender_id : option string;
  row_channel : string;
  row_content_type : string;
  row_content_text : option string;
  row_content_hash : string;
  row_reply_to_id : option string;
  row_timestamp : Z;
  row_edited_at : option Z;
  row_deleted_at : option Z;
  row_created_at : Z
}.

(** A row of [edits]. *)
Record edit_row := mkEditRow {
  edit_message_id : string;
  previous_content : string;
  edit_edited_at : Z
}.

Record mstore := mkMStore {
  messages : list message_row;
  edits : list edit_row
}.

Definition empty_mstore : mstore := mkMStore [] [].

(** [`${x || ''}`] on a string field. *)
Definition or_empty (o : option string) : string :=
  match or_null o with Some s => s | None => "" end.

(** [x || null] on a numeric field: [0] and [NaN] are falsy. *)
Definition or_null_num (o : option Z) : option Z :=
  match o with Some 0 => None | x => x end.

Definition truthy_str (o : option string) : bool :=
  match or_null o with Some _ => true | None => false end.

(** [hashMessage]: SHA-256, hex encoded, of
    [`${sender_id || ''}|${timestamp}|${content_text || ''}`]. *)
Definition hashMessage (md : message_data) : string :=
  Sha256.digest (or_empty (m_sender_id md) ++ "|" ++ num_to_string (m_timestamp md)
                 ++ "|" ++ or_empty (m_content_text md)).

Definition opt_eqb (o : option string) (s : string) : bool :=
  match o with Some x => String.eqb x s | None => false end.

(** Stage 1: [SELECT id FROM messages WHERE message_id = ?] (a NULL key
    matches nothing). *)
Definition dup_by_id (S : mstore) (md : message_data) : bool :=
  match m_message_id md with
  | Some id => existsb (fun r => String.eqb (row_message_id r) id) (messages S)
  | None => false
  end.

(** Stage 2: [SELECT id FROM messages WHERE content_hash = ?]. *)
Definition dup_by_hash (S : mstore) (md : message_data) : bool :=
  existsb (fun r => String.eqb (row_content_hash r) (hashMessage md)) (messages S).

(** Stage 3: [sender_id = ? AND ABS(timestamp - ?) < 1000 AND
    content_text = ?]; a [NaN] time binds as NULL and matches nothing. *)
Definition dup_fuzzy (S : mstore) (md : message_data) : bool :=
  match m_sender_id md, m_timestamp md, m_content_text md with
  | Some s, Some t, Some c =>
      existsb (fun r => (opt_eqb (row_sender_id r) s
                         && (Z.abs (row_timestamp r - t) <? 1000)
                         && opt_eqb (row_content_text r) c)%bool) (messages S)
  | _, _, _ => false
  end.

(** [isDuplicate]: stage 3 runs only when [sender_id] and [content_text]
    are both truthy. *)
Definition isDuplicate (S : mstore) (md : message_data) : bool :=
  if dup_by_id S md then true
  else if dup_by_hash S md then true
  else if (truthy_str (m_sender_id md) && truthy_str (m_content_text md))%bool
       then dup_fuzzy S md
       else false.

Inductive msg_outcome :=
| MInserted (S' : mstore)
| MSkipped
| MThrew (err : sql_error).

(** The [INSERT INTO messages] statement: NOT NULL and the [direction]
    CHECK, then [message_id] uniqueness, then the [reply_to_id] foreign key
    (foreign keys are on in [MessageArchive]). *)
Definition message_row_of (md : message_data) (now : Z) : option message_row :=
  match m_message_id md, m_session_key md, m_direction md, m_channel md,
        m_timestamp md with
  | Some id, Some key, Some dir, Some ch, Some t =>
      Some (mkMessageRow id key dir (or_null (m_sender_id md)) ch
              (match or_null (m_content_type md) with Some ct => ct | None => "text" end)
              (or_null (m_content_text md)) (hashMessage md)
              (or_null (m_reply_to_id md)) t
              (or_null_num (m_edited_at md)) (or_null_num (m_deleted_at md))
              (match or_null_num (m_created_at md) with Some c => c | None => now end))
  | _, _, _, _, _ => None
  end.

Definition message_row_error (S : mstore) (r : message_row) : option sql_error :=
  if negb (String.eqb (row_direction r) "inbound" || String.eqb (row_direction r) "outbound")
  then Some SQLITE_CONSTRAINT_CHECK
  else if existsb (fun r' => String.eqb (row_message_id r') (row_message_id r)) (messages S)
  then Some SQLITE_CONSTRAINT_UNIQUE
  else match row_reply_to_id r with
       | Some p =>
           if (String.eqb p (row_message_id r)
               || existsb (fun r' => String.eqb (row_message_id r') p) (messages S))%bool
           then None else Some SQLITE_CONSTRAINT_FOREIGNKEY
       | None => None
       end.

(** [insertMessage(messageData, {skipIfExists})] at wall-clock [now]. *)
Definition insertMessage (now : Z) (S : mstore) (md : message_data)
    (skipIfExists : bool) : msg_outcome :=
  if (skipIfExists && isDuplicate S md)%bool then MSkipped
  else
    match message_row_of md now with
    | None => MThrew SQLITE_CONSTRAINT_NOTNULL
    | Some r =>
        match message_row_error S r with
        | Some err => MThrew err
        | None => MInserted (mkMStore (messages S ++ [r])%list (edits S))
        end
    end.

Record insert_stats := mkInsertStats {
  ins_inserted : nat;
  ins_skipped : nat
}.

Fixpoint insert_all (now : Z) (S : mstore) (st : insert_stats)
    (msgs : list message_data) : option (mstore * insert_stats) :=
  match msgs with
  | [] => Some (S, st)
  | md :: rest =>
      match insertMessage now S md true with
      | MInserted S' =>
          insert_all now S' (mkInsertStats (Nat.succ (ins_inserted st)) (ins_skipped st)) rest
      | MSkipped =>
          insert_all now S (mkInsertStats (ins_inserted st) (Nat.succ (ins_skipped st))) rest
      | MThrew _ => None
      end
  end.

(** [insertBatch(messages)]: one transaction; an exception rolls it back
    and propagates ([None], the store as it was). *)
Definition insertBatch (now : Z) (S : mstore) (msgs : list message_data)
  : option (mstore * insert_stats) :=
  insert_all now S (mkInsertStats 0 0) msgs.

(** Outcome of a statement sequence that may throw. *)
Inductive exec :=
| Done (S : mstore)
| Raised (err : sql_error).

Definition find_message (S : mstore) (id : string) : option message_row :=
  find (fun r => String.eqb (row_message_id r) id) (messages S).

Definition set_content (id : string) (content : option string) (ts : Z)
    (r : message_row) : message_row :=
  if String.eqb (row_message_id r) id then
    {| row_message_id := row_message_id r; row_session_key := row_session_key r;
       row_direction := row_direction r; row_sender_id := row_sender_id r;
       row_channel := row_channel r; row_content_type := row_content_type r;
       row_content_text := content; row_content_hash := row_content_hash r;
       row_reply_to_id := row_reply_to_id r; row_timestamp := row_timestamp r;
       row_edited_at := Some ts; row_deleted_at := row_deleted_at r;
       row_created_at := row_created_at r |}
  else r.

(** [updateMessage(messageId, newContent, editTimestamp)]: three
    statements, no transaction.  The [INSERT INTO edits] binds the current
    [content_text], which [previous_content TEXT NOT NULL] refuses when it
    is NULL. *)
Definition updateMessage (S : mstore) (messageId : string) (newContent : option string)
    (editTimestamp : Z) : exec :=
  match find_message S messageId with
  | None => Done S
  | Some current =>
      match row_content_text current with
      | None => Raised SQLITE_CONSTRAINT_NOTNULL
      | Some prev =>
          let S1 := mkMStore (messages S)
                      (edits S ++ [mkEditRow messageId prev editTimestamp])%list in
          Done (mkMStore (map (set_content messageId newContent editTimestamp)
                              (messages S1)) (edits S1))
      end
  end.

Definition set_deleted (id : string) (ts : Z) (r : message_row) : message_row :=
  if String.eqb (row_message_id r) id then
    {| row_message_id := row_message_id r; row_session_key := row_session_key r;
       row_direction := row_direction r; row_sender_id := row_sender_id r;
       row_channel := row_channel r; row_content_type := row_content_type r;
       row_content_text := row_content_text r; row_content_hash := row_content_hash r;
       row_reply_to_id := row_reply_to_id r; row_timestamp := row_timestamp r;
       row_edited_at := row_edited_at r; row_deleted_at := Some ts;
       row_created_at := row_created_at r |}
  else r.

(** [softDeleteMessage(messageId, timestamp)]. *)
Definition softDeleteMessage (S : mstore) (messageId : string) (timestamp : Z) : mstore :=
  mkMStore (map (set_deleted messageId timestamp) (messages S)) (edits S).

(** The [filters] of [queryMessages]; [limit] defaults to 100, [offset]
    to 0 and [includeDeleted] to [false]. *)
Record query_filters := mkQueryFilters {
  q_sessionKey : option string;
  q_channel : option string;
  q_senderId : option string;
  q_startTime : option Z;
  q_endTime : option Z;
  q_contentMatch : option string;
  q_limit : Z;
  q_offset : Z;
  q_includeDeleted : bool
}.

Definition default_filters : query_filters :=
  mkQueryFilters None None None None None None 100 0 false.

(** The defaults with [includeDeleted: true]. *)
Definition all_filters : query_filters :=
  mkQueryFilters None None None None None None 100 0 true.

Section Query.

(** The FTS5 [MATCH] of a query against a row's [content_text]. *)
Variable fts_match : string -> string -> bool.

(** The [WHERE] clauses in the order the code appends them; a filter is
    applied only when it is truthy. *)
Definition where_clauses (f : query_filters) : list (message_row -> bool) :=
  ((match or_null (q_sessionKey f) with
    | Some k => [fun r => String.eqb (row_session_key r) k] | None => [] end)
   ++ (match or_null (q_channel f) with
       | Some c => [fun r => String.eqb (row_channel r) c] | None => [] end)
   ++ (match or_null (q_senderId f) with
       | Some s => [fun r => opt_eqb (row_sender_id r) s] | None => [] end)
   ++ (match or_null_num (q_startTime f) with
       | Some t => [fun r => t <=? row_timestamp r] | None => [] end)
   ++ (match or_null_num (q_endTime f) with
       | Some t => [fun r => row_timestamp r <=? t] | None => [] end)
   ++ (if q_includeDeleted f then []
       else [fun r => match row_deleted_at r with None => true | Some _ => false end])
   ++ (match or_null (q_contentMatch f) with
       | Some q => [fun r => match row_content_text r with
                             | Some c => fts_match q c | None => false end]
       | None => [] end))%list.

(** [ORDER BY timestamp DESC]: rows of equal timestamp keep their table
    order (SQL leaves that order open; the properties below are about
    membership only). *)
Fixpoint insert_desc (r : message_row) (l : list message_row) : list message_row :=
  match l with
  | [] => [r]
  | x :: xs => if row_timestamp x <? row_timestamp r then r :: x :: xs
               else x :: insert_desc r xs
  end.

Definition sort_desc (l : list message_row) : list message_row :=
  fold_left (fun acc r => insert_desc r acc) l [].

(** [LIMIT ? OFFSET ?]; a negative limit means no limit. *)
Definition page (limit offset : Z) (l : list message_row) : list message_row :=
  let l' := skipn (Z.to_nat offset) l in
  if limit <? 0 then l' else firstn (Z.to_nat limit) l'.

(** [queryMessages(filters)]. *)
Definition queryMessages (S : mstore) (f : query_filters) : list message_row :=
  page (q_limit f) (q_offset f)
    (sort_desc (filter (fun r => forallb (fun p => p r) (where_clauses f)) (messages S))).

(** The filters other than [includeDeleted], as one predicate. *)
Definition other_filters (f : query_filters) (r : message_row) : bool :=
  forallb (fun p => p r)
    (where_clauses (mkQueryFilters (q_sessionKey f) (q_channel f) (q_senderId f)
                      (q_startTime f) (q_endTime f) (q_contentMatch f)
                      (q_limit f) (q_offset f) true)).

End Query.

(* ------------------------------------------------------------------ *)
(** ** [WhatsAppExportParser.normalizeMessage] *)

(** What [parseLine] returns for a message header line. *)
Record wa_parsed := mkWaParsed {
  wa_date : string;
  wa_time : string;
  wa_sender : string;
  wa_text : string
}.

(** [sender.replace(/\s+/g, '_')]: each maximal run of white space (what
    [ws_rest] recognises) becomes one underscore ([fuel] bounds the
    characters read; the length of the text is always enough). *)
Fixpoint replace_ws_from (fuel : nat) (prev_ws : bool) (s : string) : string :=
  match fuel with
  | O => s
  | Datatypes.S f =>
      match s with
      | EmptyString => EmptyString
      | String c rest =>
          match ws_rest s with
          | Some r =>
              if prev_ws then replace_ws_from f true r
              else String "_" (replace_ws_from f true r)
          | None => String c (replace_ws_from f false rest)
          end
      end
  end.

Definition replace_ws (s : string) : string :=
  replace_ws_from (String.length s) false s.

(** [s.includes(needle)]. *)
Fixpoint includes (s needle : string) : bool :=
  (String.prefix needle s
   || match s with
      | EmptyString => false
      | String _ rest => includes rest needle
      end)%bool.

(** The content type and text chosen by the [includes] chain. *)
Definition wa_content (text : string) : string * string :=
  if (includes text "<Media omitted>" || includes text "image omitted")%bool
  then ("image", "[Image]")
  else if includes text "video omitted" then ("video", "[Video]")
  else if (includes text "audio omitted" || includes text "voice message")%bool
  then ("audio", "[Audio]")
  else if (includes text "document omitted" || includes text "attached:")%bool
  then ("document", "[Document]")
  else if includes text "location:" then ("location", text)
  else if includes text "sticker omitted" then ("sticker", "[Sticker]")
  else ("text", text).

Section WhatsApp.

(** [new Date(str).getTime()] ([None] for [NaN]; it never throws, so the
    [Date.now()] fallback of the [catch] is unreachable). *)
Variable Date_parse : string -> option Z.

(** [normalizeMessage(parsed)] at wall-clock [now]; the fields it sets
    that [message_data] leaves out ([sender_name], [content_json]) are
    omitted, and [sender_id] is not set. *)
Definition normalizeMessage (now : Z) (parsed : wa_parsed) : message_data :=
  let timestamp := Date_parse (wa_date parsed ++ " " ++ wa_time parsed) in
  let ct := wa_content (wa_text parsed) in
  {| m_message_id := Some ("whatsapp_export_" ++ num_to_string timestamp ++ "_"
                           ++ replace_ws (wa_sender parsed));
     m_session_key := Some "imported:whatsapp:export";
     m_direction := Some (if String.eqb (wa_sender parsed) "You"
                          then "outbound" else "inbound");
     m_sender_id := None;
     m_channel := Some "whatsapp";
     m_content_type := Some (fst ct);
     m_content_text := Some (snd ct);
     m_reply_to_id := None;
     m_timestamp := timestamp;
     m_edited_at := None;
     m_deleted_at := None;
     m_created_at := Some now |}.

End WhatsApp.

(* ------------------------------------------------------------------ *)
(** ** [exportSessionAsJsonl] *)

(** A column value as better-sqlite3 hands it to JavaScript. *)
Definition sql_js (v : sqlv) : json :=
  match v with
  | SNull => JNull
  | SNum n => JNum n
  | SText s => JStr s
  end.

(** [String(v)] of a column value. *)
Definition sql_text (v : sqlv) : string :=
  match v with
  | SNull => "null"
  | SNum n => Z_to_dec n
  | SText s => s
  end.

(** SQLite's order on values: NULL first, then numbers, then text (the
    BINARY collation, byte order). *)
Definition sql_lt (a b : sqlv) : bool :=
  match a, b with
  | SNull, SNull => false
  | SNull, _ => true
  | SNum x, SNum y => x <? y
  | SNum _, SText _ => true
  | SText x, SText y => String.ltb x y
  | _, _ => false
  end.

(** [ORDER BY timestamp ASC] (a stable insertion; equal timestamps keep
    table order, which SQL leaves open). *)
Fixpoint insert_asc (r : event_row) (l : list event_row) : list event_row :=
  match l with
  | [] => [r]
  | x :: xs => if sql_lt (ev_timestamp r) (ev_timestamp x) then r :: x :: xs
               else x :: insert_asc r xs
  end.

Definition sort_asc (l : list event_row) : list event_row :=
  fold_left (fun acc r => insert_asc r acc) l [].

(** [getSessionEvents(sessionId, {includeThinking: true, includeUsage:
    true})]: the rows of the session; the thinking and usage rows it
    attaches are not read by the export. *)
Definition getSessionEvents (S : estore) (sessionId : string) : list event_row :=
  sort_asc (filter (fun r => sql_eq (ev_session_id r) (SText sessionId)) (events S)).

(** Proleptic Gregorian date of a day count from 1970-01-01. *)
Definition civil_from_days (z : Z) : Z * Z * Z :=
  let z := z + 719468 in
  let era := z / 146097 in
  let doe := z - era * 146097 in
  let yoe := (doe - doe / 1460 + doe / 36524 - doe / 146096) / 365 in
  let doy := doe - (365 * yoe + yoe / 4 - yoe / 100) in
  let mp := (5 * doy + 2) / 153 in
  let d := doy - (153 * mp + 2) / 5 + 1 in
  let m := if mp <? 10 then mp + 3 else mp - 9 in
  (yoe + era * 400 + (if m <=? 2 then 1 else 0), m, d).

Definition pad (w : nat) (n : Z) : string :=
  let s := Z_to_dec n in
  (String.concat "" (List.repeat "0" (w - String.length s)) ++ s).

(** [new Date(t).toISOString()]; [None] is the [RangeError] thrown past
    the time-value range. *)
Definition toISOString (t : Z) : option string :=
  if 8640000000000000 <? Z.abs t then None else
  let '(y, m, d) := civil_from_days (t / 86400000) in
  let ms := t mod 86400000 in
  let year := if y <? 0 then "-" ++ pad 6 (- y)
              else if 9999 <? y then "+" ++ pad 6 y else pad 4 y in
  Some (year ++ "-" ++ pad 2 m ++ "-" ++ pad 2 d ++ "T"
        ++ pad 2 (ms / 3600000) ++ ":" ++ pad 2 (ms / 60000 mod 60) ++ ":"
        ++ pad 2 (ms / 1000 mod 60) ++ "." ++ pad 3 (ms mod 1000) ++ "Z").

(** Property assignment [o[k] = v]: an existing key keeps its place. *)
Fixpoint set_prop (k : string) (v : json) (kvs : list (string * json))
  : list (string * json) :=
  match kvs with
  | [] => [(k, v)]
  | (k', v') :: rest =>
      if String.eqb k k' then (k, v) :: rest else (k', v') :: set_prop k v rest
  end.

Fixpoint index_props (i : nat) (xs : list json) : list (string * json) :=
  match xs with
  | [] => []
  | x :: rest => (Z_to_dec (Z.of_nat i), x) :: index_props (Datatypes.S i) rest
  end.

(** The own enumerable properties [Object.assign] copies from a source. *)
Definition own_props (v : json) : list (string * json) :=
  match v with
  | JObj kvs => kvs
  | JArr xs => index_props 0 xs
  | JStr s => index_props 0 (map (fun c => JStr (String c EmptyString))
                                 (list_ascii_of_string s))
  | _ => []
  end.

(** [Object.assign(target, source)]. *)
Definition object_assign (target : list (string * json)) (source : json)
  : list (string * json) :=
  fold_left (fun acc kv => set_prop (fst kv) (snd kv) acc) (own_props source) target.

Definition synthetic_type (t : string) : bool :=
  (String.eqb t "tool_call" || String.eqb t "thinking_block"
   || String.eqb t "usage_stats")%bool.

(** [['tool_call', 'thinking_block', 'usage_stats'].includes(evt.event_type)]. *)
Definition synthetic_row (r : event_row) : bool :=
  match ev_event_type r with
  | SText t => synthetic_type t
  | _ => false
  end.

Section SessionExport.

(** The host's [JSON.parse] and [Date.parse], as for the parser. *)
Variable JSON_parse : string -> option json.
Variable Date_parse : string -> option Z.

(** The object one stored row becomes ([None]: it throws, when
    [JSON.parse] fails on [content_json] or when [toISOString] meets an
    invalid date). *)
Definition reconstruct (evt : event_row) : option json :=
  match JSON_parse (sql_text (ev_content_json evt)) with
  | None => None
  | Some content =>
      match date_ms Date_parse (Some (sql_js (ev_timestamp evt))) with
      | Some (Some t) =>
          match toISOString t with
          | None => None
          | Some iso =>
              let base := [("type", if sql_eq (ev_event_type evt) (SText "tool_result")
                                    then JStr "message" else sql_js (ev_event_type evt));
                           ("id", sql_js (ev_event_id evt));
                           ("timestamp", JStr iso)] in
              let base := if truthy (Some (sql_js (ev_parent_event_id evt)))
                          then (base ++ [("parentId", sql_js (ev_parent_event_id evt))])%list
                          else base in
              Some (JObj (object_assign base content))
          end
      | _ => None
      end
  end.

(** [exportSessionAsJsonl(sessionId)]: the objects handed to
    [JSON.stringify], one per line, or [None] when it throws. *)
Fixpoint export_lines (evs : list event_row) : option (list json) :=
  match evs with
  | [] => Some []
  | evt :: rest =>
      if synthetic_row evt then export_lines rest
      else match reconstruct evt, export_lines rest with
           | Some o, Some os => Some (o :: os)
           | _, _ => None
           end
  end.

Definition exportSessionAsJsonl (S : estore) (sessionId : string) : option (list json) :=
  export_lines (getSessionEvents S sessionId).

End SessionExport.

(* ------------------------------------------------------------------ *)
(** ** Concrete host functions for the examples *)

(** [Date.parse] on the ISO-8601 form [YYYY-MM-DDTHH:MM:SS.sssZ] that the
    session files use; other strings give [NaN] here. *)
Definition digit (c : ascii) : option Z :=
  let n := nat_of_ascii c in
  if (Nat.leb 48 n && Nat.leb n 57)%bool then Some (Z.of_nat n - 48) else None.

Fixpoint digits (s : string) : option Z :=
  match s with
  | EmptyString => Some 0
  | String c rest =>
      match digit c, digits rest with
      | Some d, Some v => Some (d * 10 ^ Z.of_nat (String.length rest) + v)
      | _, _ => None
      end
  end.

Definition days_from_civil (y m d : Z) : Z :=
  let y' := if m <=? 2 then y - 1 else y in
  let era := y' / 400 in
  let yoe := y' - era * 400 in
  let doy := (153 * (if m >? 2 then m - 3 else m + 9) + 2) / 5 + d - 1 in
  let doe := yoe * 365 + yoe / 4 - yoe / 100 + doy in
  era * 146097 + doe - 719468.

Definition iso_date_parse (s : string) : option Z :=
  if negb (Nat.eqb (String.length s) 24) then None else
  match digits (substring 0 4 s), digits (substring 5 2 s), digits (substring 8 2 s),
        digits (substring 11 2 s), digits (substring 14 2 s), digits (substring 17 2 s),
        digits (substring 20 3 s) with
  | Some y, Some mo, Some d, Some h, Some mi, Some sec, Some ms =>
      Some (days_from_civil y mo d * 86400000 + ((h * 60 + mi) * 60 + sec) * 1000 + ms)
  | _, _, _, _, _, _, _ => None
  end.

Example iso_date_parse_epoch :
  iso_date_parse "1970-01-01T00:00:00.000Z" = Some 0.
Proof. reflexivity. Qed.

Example iso_date_parse_2026 :
  iso_date_parse "2026-02-13T12:00:00.000Z" = Some 1770984000000.
Proof. vm_compute. reflexivity. Qed.

(** [JSON.parse] on the lines of a fixed file: each line's text is paired
    with the value it denotes; any other text is a syntax error. *)
Definition json_table (tbl : list (string * json)) (line : string) : option json :=
  assoc line tbl.

(* ------------------------------------------------------------------ *)
(** ** Fan-out of a [message] record: what the claims count *)

Definition message_of (raw : json) : json :=
  match get raw "message" with Some m => m | None => JNull end.

Definition is_assistant (raw : json) : bool :=
  str_eq (get (message_of raw) "role") "assistant".

(** The content blocks an assistant message fans out over. *)
Definition fanout_blocks (raw : json) : list json :=
  if (is_assistant raw && truthy (get (message_of raw) "content"))%bool then
    match get (message_of raw) "content" with
    | Some (JArr xs) => xs
    | _ => []
    end
  else [].

Definition tool_count (raw : json) : nat :=
  length (filter is_tool_block (fanout_blocks raw)).

Definition thinking_count (raw : json) : nat :=
  length (filter is_thinking_block (fanout_blocks raw)).

Definition usage_count (raw : json) : nat :=
  if (is_assistant raw && truthy (get (message_of raw) "usage"))%bool then 1 else 0.

(** [`${v}`] as a string; [""] where it throws (never, once the parse that
    interpolated [v] has succeeded). *)
Definition tmpl_s (v : option json) : string :=
  match tmpl v with Some s => s | None => "" end.

(** The (type, id) pairs of the synthetic events, with parent id [P]:
    [P_tool_<block id>], [P_thinking], [P_usage]. *)
Definition block_synth (P : string) (b : json) : list (string * string) :=
  ((if is_tool_block b
    then [("tool_call", String.append P (String.append "_tool_" (tmpl_s (get b "id"))))]
    else [])
   ++ (if is_thinking_block b
       then [("thinking_block", String.append P "_thinking")] else []))%list.

Definition expected_synthetic (raw : json) : list (string * string) :=
  let P := tmpl_s (get raw "id") in
  (flat_map (block_synth P) (fanout_blocks raw)
   ++ (if Nat.eqb (usage_count raw) 1
       then [("usage_stats", String.append P "_usage")] else []))%list.

(** A string value. *)
Definition str_of (v : option json) : option string :=
  match v with Some (JStr s) => Some s | _ => None end.

Definition str_is (id : string) (v : option json) : bool :=
  match v with Some (JStr s) => String.eqb s id | _ => false end.

Definition type_and_id (e : event) : string * option string :=
  (event_type e, str_of (event_id e)).

Definition some_id (p : string * string) : string * option string :=
  (fst p, Some (snd p)).

(** [true] when every event names a string id that is not stored yet and
    that no later event of the list repeats. *)
Fixpoint fresh_ids (S : estore) (evs : list event) : bool :=
  match evs with
  | [] => true
  | e :: rest =>
      match event_id e with
      | Some (JStr id) =>
          (negb (has_event_id S (SText id))
           && negb (existsb (fun e' => str_is id (event_id e')) rest)
           && fresh_ids S rest)%bool
      | _ => false
      end
  end.

(** A value the driver binds as it is: a number, a string, [null] or
    [undefined]. *)
Definition scalar_arg (v : option json) : bool :=
  match v with
  | None | Some JNull | Some (JNum _) | Some (JStr _) => true
  | _ => false
  end.

Definition scalar_val (v : option json) : sqlv :=
  match v with
  | Some (JNum n) => SNum n
  | Some (JStr s) => SText s
  | _ => SNull
  end.

(** Every value [insertEvent] binds for [e] is a scalar: the fifteen values
    of its events row, and those of its thinking_blocks or usage_stats
    row. *)
Definition bindable (e : event) : bool :=
  (forallb scalar_arg (event_args e "" 0)
   && (if String.eqb (event_type e) "thinking_block"
       then scalar_arg (or_null_js (_thinking_signature e)) else true)
   && (if String.eqb (event_type e) "usage_stats" then
         match _usage e with
         | Some u => forallb scalar_arg (usage_args u (model_provider e) (model_id e)
                                                    (timestamp e))
         | None => true
         end
       else true))%bool.

(** [true] when the record's parent, as the events row binds it, is null
    or already stored. *)
Definition parent_stored (S : estore) (raw : json) : bool :=
  match or_null_js (get raw "parentId") with
  | Some (JStr p) => has_event_id S (SText p)
  | Some (JNum n) => has_event_id S (SNum n)
  | _ => true
  end.

(** [new Date(raw.timestamp)] succeeds with a valid time. *)
Definition valid_time (t : option (option Z)) : bool :=
  match t with Some (Some _) => true | _ => false end.

(** The row of [e] is refused whatever the store holds: one of its values
    cannot be bound, or one of the NOT NULL columns [event_id],
    [session_id], [timestamp] is NULL.  (The row is bound at clock 0; the
    clock changes neither outcome.) *)
Definition refused (e : event) (key : string) : bool :=
  match bound_row e key 0 with
  | None => true
  | Some r => (is_sql_null (ev_event_id r) || is_sql_null (ev_session_id r)
               || is_sql_null (ev_timestamp r))%bool
  end.

(** An event is settled in a store when inserting it again with
    [skipIfExists] can only be skipped or refused: the duplicate check
    cannot be bound, or it finds the id, or the row is refused. *)
Definition settled (key : string) (S : estore) (e : event) : Prop :=
  select_key (session_fill e) = None \/
  (exists v, select_key (session_fill e) = Some v /\ has_event_id S v = true) \/
  refused (session_fill e) key = true.

(** The events a file contributes to a forced scan, and the files that
    cannot be read. *)
Definition events_in (JSON_parse : string -> option json)
    (Date_parse : string -> option Z) (files : list session_file) : nat :=
  fold_right (fun f n =>
    match parseEvents JSON_parse Date_parse (snd f) 0 with
    | Some evs => (length evs + n)%nat
    | None => n
    end) 0%nat files.

Definition unreadable (files : list session_file) : nat :=
  length (filter (fun f => match snd f with None => true | Some _ => false end) files).

(** Sample [message] records: an assistant turn [M] with one tool call, one
    thinking block and a usage object; one whose two tool calls carry the
    same block id; one whose thinking block has the signature [true]; and
    one whose [provider] is [true]. *)
Definition sample_assistant (content : list json) : json :=
  JObj [("type", JStr "message"); ("id", JStr "M");
        ("timestamp", JStr "2026-02-13T12:00:00.000Z");
        ("message", JObj [("role", JStr "assistant");
                          ("content", JArr content);
                          ("provider", JStr "anthropic");
                          ("usage", JObj [("input", JNum 10); ("output", JNum 5)])])].

Definition tool_block (id : string) : json :=
  JObj [("type", JStr "toolCall"); ("id", JStr id); ("name", JStr "exec");
        ("arguments", JObj [("command", JStr "ls")])].

Definition raw_s2 : json :=
  sample_assistant [tool_block "T1";
                    JObj [("type", JStr "thinking"); ("thinking", JStr "plan")]].

Definition raw_dup_tools : json :=
  sample_assistant [tool_block "T1"; tool_block "T1"].

(** An assistant turn whose thinking block has [thinkingSignature: true]:
    its events row is written, then the [thinking_blocks] insert cannot
    bind [true]. *)
Definition raw_bool_signature : json :=
  sample_assistant [JObj [("type", JStr "thinking"); ("thinking", JStr "plan");
                          ("thinkingSignature", JBool true)]].

Definition raw_bool_provider : json :=
  JObj [("type", JStr "message"); ("id", JStr "M");
        ("timestamp", JStr "2026-02-13T12:00:00.000Z");
        ("message", JObj [("role", JStr "assistant");
                          ("content", JArr [tool_block "T1"]);
                          ("provider", JBool true);
                          ("usage", JObj [("input", JNum 10)])])].

Definition parsed (D : string -> option Z) (raw : json) : list event :=
  match parseEvent D raw with Some evs => evs | None => [] end.

Definition sample_opts : batch_options := mkBatchOptions true (Some "sess1") false.

(** [custom] records: [k1], and [o1] whose parent [missing] is not
    stored. *)
Definition sample_custom (id : string) (parent : option string) : json :=
  JObj ([("type", JStr "custom"); ("id", JStr id);
         ("timestamp", JStr "2026-02-13T12:00:00.000Z")]
        ++ match parent with Some p => [("parentId", JStr p)] | None => [] end)%list.

(** A batch with a row whose parent is missing, a row, and that row
    again. *)
Definition sample_mixed_batch : list event :=
  (parsed iso_date_parse (sample_custom "o1" (Some "missing"))
   ++ parsed iso_date_parse (sample_custom "k1" None)
   ++ parsed iso_date_parse (sample_custom "k1" None))%list.

(** Two [custom] records, one with no [timestamp] and one whose
    [timestamp] is [null]. *)
Definition custom_line_table : list (string * json) :=
  [("C1", JObj [("type", JStr "custom"); ("id", JStr "c1");
                ("customType", JStr "note")]);
   ("C0", JObj [("type", JStr "custom"); ("id", JStr "c0"); ("timestamp", JNull);
                ("customType", JStr "note")])].

(** A one-line session file: a [session] record stamped one second after
    the epoch. *)
Definition session_line_table : list (string * json) :=
  [("L1", JObj [("type", JStr "session"); ("id", JStr "s1");
                ("timestamp", JStr "1970-01-01T00:00:01.000Z");
                ("cwd", JStr "/work")])].

Definition session_files : list session_file := [("s1", Some ["L1"])].

(** A message as a channel hook would hand it to [insertMessage]. *)
Definition sample_message (id : string) (sender text : option string) (ts : Z)
  : message_data :=
  {| m_message_id := Some id; m_session_key := Some "agent:main:main";
     m_direction := Some "inbound"; m_sender_id := sender;
     m_channel := Some "telegram"; m_content_type := None;
     m_content_text := text; m_reply_to_id := None; m_timestamp := Some ts;
     m_edited_at := None; m_deleted_at := None; m_created_at := None |}.

(** [new Date(str).getTime()] on the one header date used below
    (local time taken as UTC). *)
Definition wa_dates (s : string) : option Z :=
  if String.eqb s "12/31/23 10:30 PM" then Some 1704061800000 else None.

(** Two lines of a WhatsApp export sent by the same person in the same
    minute. *)
Definition wa_line1 : wa_parsed := mkWaParsed "12/31/23" "10:30 PM" "John Doe" "Happy new year".
Definition wa_line2 : wa_parsed := mkWaParsed "12/31/23" "10:30 PM" "John Doe" "See you soon".

(** A user turn whose message body carries its own [timestamp], 500 ms
    after the record's. *)
Definition raw_user_msg : json :=
  JObj [("type", JStr "message"); ("id", JStr "m1");
        ("timestamp", JStr "2026-02-02T02:40:00.000Z");
        ("message", JObj [("role", JStr "user"); ("content", JStr "hi");
                          ("timestamp", JNum 1770000000500)])].

(** The [JSON.parse] the export meets: the stored [content_json] of that
    turn is read back as its message body. *)
Definition user_msg_json : string -> option json :=
  json_table [(json_stringify (message_of raw_user_msg), message_of raw_user_msg)].

(** The [UNIQUE] constraint on [messages.message_id], as a property of a
    store. *)
Definition ids_unique (S : mstore) : Prop :=
  NoDup (map row_message_id (messages S)).

(** A batch with a repeated message. *)
Definition sample_batch : list message_data :=
  [sample_message "a" None (Some "hi") 1000; sample_message "a" None (Some "hi") 1000;
   sample_message "c" None (Some "x") 5000].

(** [ORDER BY timestamp DESC] holds of a result. *)
Definition timestamp_desc (l : list message_row) : Prop :=
  Sorted (fun a b => row_timestamp b <= row_timestamp a) l.

(* ------------------------------------------------------------------ *)
(** ** [checkpoint] and the scan watermark *)

(** A row of [archive_state] ([key TEXT PRIMARY KEY, value TEXT NOT
    NULL, updated_at INTEGER NOT NULL]). *)
Record state_row := mkStateRow {
  state_key : string;
  state_value : string;
  state_updated_at : Z
}.

(** [INSERT ... ON CONFLICT(key) DO UPDATE SET value = ?, updated_at = ?]. *)
Fixpoint upsert_state (key value : string) (now : Z) (rows : list state_row)
  : list state_row :=
  match rows with
  | [] => [mkStateRow key value now]
  | r :: rest =>
      if String.eqb (state_key r) key then mkStateRow key value now :: rest
      else r :: upsert_state key value now rest
  end.

(** [checkpoint(key, value)] at wall-clock [now]: [Some v] sets and
    returns [v]; [None] ([null], the default) reads the stored value or
    [null]. *)
Definition checkpoint (now : Z) (T : list state_row) (key : string)
    (value : option string) : list state_row * option string :=
  match value with
  | Some v => (upsert_state key v now T, Some v)
  | None =>
      (T, option_map state_value (find (fun r => String.eqb (state_key r) key) T))
  end.

(** A digit of [parseInt] in any radix up to 36. *)
Definition digit_val (c : ascii) : option Z :=
  let n := Z.of_nat (nat_of_ascii c) in
  if ((48 <=? n) && (n <=? 57))%bool then Some (n - 48)
  else if ((97 <=? n) && (n <=? 122))%bool then Some (n - 87)
  else if ((65 <=? n) && (n <=? 90))%bool then Some (n - 55)
  else None.

(** The value of the longest prefix of radix digits ([None]: no digit). *)
Fixpoint parse_digits (radix : Z) (s : string) (acc : option Z) : option Z :=
  match s with
  | EmptyString => acc
  | String c rest =>
      match digit_val c with
      | Some d =>
          if d <? radix then
            parse_digits radix rest
              (Some (match acc with Some a => a | None => 0 end * radix + d))
          else acc
      | None => acc
      end
  end.

(** [parseInt(s)] with no radix: leading white space, a sign, a [0x]
    prefix selecting radix 16, then the longest run of digits; [None] is
    [NaN].  Values are exact (JavaScript rounds past 2^53). *)
Definition parseInt (s : string) : option Z :=
  let s1 := drop_ws (String.length s) s in
  let '(sign, s2) := match s1 with
                     | String "-" rest => (-1, rest)
                     | String "+" rest => (1, rest)
                     | _ => (1, s1)
                     end in
  let '(radix, s3) := match s2 with
                      | String "0" (String "x" rest) => (16, rest)
                      | String "0" (String "X" rest) => (16, rest)
                      | _ => (10, s2)
                      end in
  option_map (Z.mul sign) (parse_digits radix s3 None).

(** [parseInt(archive.checkpoint(KEY) || '0')], the watermark a scan
    reads. *)
Definition read_watermark (T : list state_row) (key : string) : option Z :=
  parseInt (match or_null (snd (checkpoint 0 T key None)) with
            | Some s => s
            | None => "0"
            end).

Definition EVENTS_CHECKPOINT_KEY : string := "last_events_scan_timestamp".

(* ------------------------------------------------------------------ *)
(** ** Reactions *)

(** A row of [reactions]; [UNIQUE(message_id, emoji, user_id)], and
    [message_id] references [messages(message_id)] (foreign keys are on). *)
Record reaction_row := mkReactionRow {
  rx_id : Z;
  rx_message_id : string;
  rx_emoji : string;
  rx_user_id : string;
  rx_user_name : option string;
  rx_added_at : Z;
  rx_removed_at : option Z
}.

Definition is_none (o : option Z) : bool :=
  match o with None => true | Some _ => false end.

(** The table and its [AUTOINCREMENT] counter. *)
Record rstore := mkRStore {
  reactions : list reaction_row;
  rx_seq : Z
}.

Definition rx_key (r : reaction_row) : string * string * string :=
  (rx_message_id r, rx_emoji r, rx_user_id r).

Definition rx_is (messageId emoji userId : string) (r : reaction_row) : bool :=
  String.eqb (rx_message_id r) messageId && String.eqb (rx_emoji r) emoji &&
  String.eqb (rx_user_id r) userId.

(** [DO UPDATE SET removed_at = NULL, added_at = ?]. *)
Definition reactivate (messageId emoji userId : string) (now : Z)
    (r : reaction_row) : reaction_row :=
  if rx_is messageId emoji userId r then
    {| rx_id := rx_id r; rx_message_id := rx_message_id r; rx_emoji := rx_emoji r;
       rx_user_id := rx_user_id r; rx_user_name := rx_user_name r;
       rx_added_at := now; rx_removed_at := None |}
  else r.

(** [addReaction(messageId, emoji, userId, userName)] at [now]: the
    upsert updates the conflicting row, or inserts a new one, which the
    foreign key refuses when the message is not archived. *)
Definition addReaction (S : mstore) (R : rstore) (messageId emoji userId : string)
    (userName : option string) (now : Z) : sql_error + rstore :=
  if existsb (rx_is messageId emoji userId) (reactions R) then
    inr (mkRStore (map (reactivate messageId emoji userId now) (reactions R)) (rx_seq R))
  else
    match find_message S messageId with
    | None => inl SQLITE_CONSTRAINT_FOREIGNKEY
    | Some _ =>
        inr (mkRStore (reactions R ++
                       [mkReactionRow (rx_seq R + 1) messageId emoji userId userName
                                      now None])%list
                      (rx_seq R + 1))
    end.

(** [SET removed_at = ? WHERE ... AND removed_at IS NULL]. *)
Definition mark_removed (messageId emoji userId : string) (now : Z)
    (r : reaction_row) : reaction_row :=
  if rx_is messageId emoji userId r && is_none (rx_removed_at r) then
    {| rx_id := rx_id r; rx_message_id := rx_message_id r; rx_emoji := rx_emoji r;
       rx_user_id := rx_user_id r; rx_user_name := rx_user_name r;
       rx_added_at := rx_added_at r; rx_removed_at := Some now |}
  else r.

Definition removeReaction (R : rstore) (messageId emoji userId : string) (now : Z)
  : rstore :=
  mkRStore (map (mark_removed messageId emoji userId now) (reactions R)) (rx_seq R).

(** The active reactions [getStats] counts ([WHERE removed_at IS NULL]). *)
Definition active_reactions (R : rstore) : nat :=
  length (filter (fun r => is_none (rx_removed_at r)) (reactions R)).

Definition find_reaction (R : rstore) (messageId emoji userId : string)
  : option reaction_row :=
  find (rx_is messageId emoji userId) (reactions R).

(** A store holding message [m], and one removed reaction on it. *)
Definition sample_store_m : mstore :=
  mkMStore [mkMessageRow "m" "agent:main:main" "inbound" (Some "u1") "telegram" "text"
              (Some "hello") "h" None 1000 None None 0] [].

Definition sample_reactions : rstore :=
  mkRStore [mkReactionRow 1 "m" "+1" "u1" (Some "Ann") 10 (Some 20)] 1.

(* ------------------------------------------------------------------ *)
(** ** Sessions *)

(** A row of [sessions] (the inline schema of [initializeSessionsSchema]:
    the repository ships no [schema/sessions-schema.sql]). *)
Record session_row := mkSessionRow {
  sess_id : string;
  sess_session_key : string;
  sess_type : string;
  sess_parent_id : option string;
  sess_label : option string;
  sess_agent_id : option string;
  sess_model : option string;
  sess_started_at : Z;
  sess_ended_at : option Z;
  sess_status : string;
  sess_title : string;
  sess_summary : string;
  sess_message_count : Z;
  sess_event_count : Z;
  sess_created_at : Z;
  sess_updated_at : Z
}.

(** The [sessionData] object given to [upsertSession]; [None] is a
    missing ([undefined]) or [null] property, bound as NULL. *)
Record session_data := mkSessionData {
  sd_id : string;
  sd_session_key : option string;
  sd_type : option string;
  sd_parent_id : option string;
  sd_label : option string;
  sd_agent_id : option string;
  sd_model : option string;
  sd_started_at : option Z;
  sd_ended_at : option Z;
  sd_status : option string;
  sd_title : option string;
  sd_summary : option string;
  sd_message_count : option Z;
  sd_event_count : option Z
}.

Definition str_in (s : string) (l : list string) : bool := existsb (String.eqb s) l.

(** [CHECK(type IN ('main', 'subagent', 'cron', 'isolated'))]. *)
Definition session_types : list string := ["main"; "subagent"; "cron"; "isolated"].

(** [CHECK(status IN ('active', 'completed', 'failed'))]. *)
Definition session_statuses : list string := ["active"; "completed"; "failed"].

(** [x || 0] on a count. *)
Definition or_zero (o : option Z) : Z := match o with Some n => n | None => 0 end.

(** The row the statement writes, after the NOT NULL checks
    ([session_key], [type], [started_at], [title], [summary]) and then
    the CHECK constraints. *)
Definition session_values (d : session_data) (created updated : Z)
  : sql_error + session_row :=
  match sd_session_key d, sd_type d, sd_started_at d, sd_title d, sd_summary d with
  | Some key, Some ty, Some st, Some ti, Some su =>
      let status := match or_null (sd_status d) with Some s => s | None => "active" end in
      if str_in ty session_types && str_in status session_statuses then
        inr (mkSessionRow (sd_id d) key ty (or_null (sd_parent_id d))
               (or_null (sd_label d)) (or_null (sd_agent_id d)) (or_null (sd_model d))
               st (or_null_num (sd_ended_at d)) status ti su
               (or_zero (sd_message_count d)) (or_zero (sd_event_count d))
               created updated)
      else inl SQLITE_CONSTRAINT_CHECK
  | _, _, _, _, _ => inl SQLITE_CONSTRAINT_NOTNULL
  end.

Definition getSession (T : list session_row) (sessionId : string) : option session_row :=
  find (fun r => String.eqb (sess_id r) sessionId) T.

(** [FOREIGN KEY (parent_id) REFERENCES sessions(id)] on the table [T]
    the statement leaves (a row may name itself). *)
Definition parent_ok (T : list session_row) (r : session_row) : bool :=
  match sess_parent_id r with
  | None => true
  | Some p => existsb (fun x => String.eqb (sess_id x) p) T
  end.

Definition replace_session (row : session_row) (r : session_row) : session_row :=
  if String.eqb (sess_id r) (sess_id row) then row else r.

(** [upsertSession(sessionData)] at [now]: [true] after an insert,
    [false] after an update, which keeps [created_at]. *)
Definition upsertSession (now : Z) (T : list session_row) (d : session_data)
  : sql_error + (list session_row * bool) :=
  match getSession T (sd_id d) with
  | Some existing =>
      match session_values d (sess_created_at existing) now with
      | inl err => inl err
      | inr row =>
          let T' := map (replace_session row) T in
          if parent_ok T' row then inr (T', false) else inl SQLITE_CONSTRAINT_FOREIGNKEY
      end
  | None =>
      match session_values d now now with
      | inl err => inl err
      | inr row =>
          let T' := (T ++ [row])%list in
          if parent_ok T' row then inr (T', true) else inl SQLITE_CONSTRAINT_FOREIGNKEY
      end
  end.

(** [SET status = ?, updated_at = ? WHERE id = ? AND status = 'active']. *)
Definition close_session (status sessionId : string) (now : Z) (r : session_row)
  : session_row :=
  if String.eqb (sess_id r) sessionId && String.eqb (sess_status r) "active" then
    {| sess_id := sess_id r; sess_session_key := sess_session_key r;
       sess_type := sess_type r; sess_parent_id := sess_parent_id r;
       sess_label := sess_label r; sess_agent_id := sess_agent_id r;
       sess_model := sess_model r; sess_started_at := sess_started_at r;
       sess_ended_at := sess_ended_at r; sess_status := status;
       sess_title := sess_title r; sess_summary := sess_summary r;
       sess_message_count := sess_message_count r;
       sess_event_count := sess_event_count r;
       sess_created_at := sess_created_at r; sess_updated_at := now |}
  else r.

Definition completeSession (now : Z) (T : list session_row) (sessionId : string)
  : list session_row :=
  map (close_session "completed" sessionId now) T.

Definition failSession (now : Z) (T : list session_row) (sessionId : string)
  : list session_row :=
  map (close_session "failed" sessionId now) T.

(** The table's constraints: unique ids, both CHECKs, the parent key. *)
Definition sessions_ok (T : list session_row) : Prop :=
  NoDup (map sess_id T) /\
  forall r, In r T ->
    str_in (sess_type r) session_types = true /\
    str_in (sess_status r) session_statuses = true /\
    parent_ok T r = true.

(** A main session as [archive-scan] hands it over (no status). *)
Definition sample_session_data : session_data :=
  mkSessionData "s1" (Some "agent:main:main") (Some "main") None None None None
    (Some 100) None None (Some "Title") (Some "Summary") None None.

Definition sample_session_row (status : string) : session_row :=
  mkSessionRow "s1" "agent:main:main" "main" None None None None 100 None status
    "Title" "Summary" 0 0 5 5.

(* ------------------------------------------------------------------ *)
(** ** Generated message ids ([SessionParser] of [message-parser.js]) *)

(** The number of bytes of the UTF-8 character led by the byte [c]. *)
Definition char_len (c : ascii) : nat :=
  let n := nat_of_ascii c in
  if Nat.ltb n 192 then 1 else if Nat.ltb n 224 then 2
  else if Nat.ltb n 240 then 3 else 4.

(** The UTF-8 encoding of U+FFFD, which [hash.update] writes for a lone
    surrogate. *)
Definition replacement_char : string :=
  String (ascii_of_nat 239) (String (ascii_of_nat 191) (String (ascii_of_nat 189) "")).

(** The first [n] UTF-16 code units of the UTF-8 text [s], as UTF-8: a
    character of four bytes is two code units, and a cut between them
    leaves a lone surrogate ([fuel] bounds the characters read; the length
    of the text is always enough). *)
Fixpoint utf16_prefix (fuel n : nat) (s : string) : string :=
  match fuel with
  | O => ""
  | Datatypes.S f =>
      match n, s with
      | O, _ => ""
      | _, EmptyString => ""
      | Datatypes.S n', String c _ =>
          let k := char_len c in
          let rest := substring k (String.length s - k) s in
          if Nat.eqb k 4 then
            match n' with
            | O => replacement_char
            | Datatypes.S n'' => substring 0 k s ++ utf16_prefix f n'' rest
            end
          else substring 0 k s ++ utf16_prefix f n' rest
      end
  end.

(** [s.substring(0, n)]. *)
Definition js_substring_0 (n : nat) (s : string) : string :=
  utf16_prefix (String.length s) n s.

Section MessageParser.

(** [JSON.stringify] of an object. *)
Variable JSON_stringify : json -> string.

(** An element as [Array.prototype.join] renders it ([None]: its
    conversion throws). *)
Definition join_elem (v : option json) : option string :=
  match v with
  | None | Some JNull => Some ""
  | Some x => js_to_string x
  end.

(** The [map] callback of [extractTextContent] on one block, followed by
    the conversion [join] applies to what it returns; [None] when either
    throws ([block.type] on [null], or an own [toString]). *)
Definition block_text (block : json) : option string :=
  match block with
  | JStr s => Some s
  | JNull => None
  | _ =>
      if str_eq (get block "type") "text" then join_elem (get block "text")
      else if truthy (get block "text") then join_elem (get block "text")
      else Some ""
  end.

Fixpoint all_some {A} (l : list (option A)) : option (list A) :=
  match l with
  | [] => Some []
  | Some x :: rest => option_map (cons x) (all_some rest)
  | None :: rest => None
  end.

(** [extractTextContent(content)]: the value it returns, [None] when it
    throws. *)
Definition extractTextContent (content : option json) : option json :=
  match content with
  | Some (JStr s) => Some (JStr s)
  | Some (JArr blocks) =>
      option_map (fun ts => JStr (String.concat (String "010" "") ts))
                 (all_some (map block_text blocks))
  | Some (JObj kvs) =>
      if truthy (get (JObj kvs) "text") then get (JObj kvs) "text"
      else if truthy (get (JObj kvs) "content") then get (JObj kvs) "content"
      else Some (JStr (JSON_stringify (JObj kvs)))
  | _ => Some (JStr "")
  end.

(** [generateMessageId(timestamp, senderId, content)]: [generated_] and
    the first 16 hex digits of the SHA-256 of
    [`${timestamp}|${senderId || 'unknown'}|${textContent.substring(0, 100)}`];
    [None] when it throws (the text is not a string, or the sender is an
    object with an own [toString]).  [substring] counts UTF-16 code
    units. *)
Definition generateMessageId (timestamp : option Z) (senderId : option json)
    (content : option json) : option string :=
  match extractTextContent content with
  | Some (JStr text) =>
      let sender := if truthy senderId then tmpl senderId else Some "unknown" in
      match sender with
      | Some sender =>
          let payload := (num_to_string timestamp ++ "|" ++ sender ++ "|"
                          ++ js_substring_0 100 text)%string in
          Some ("generated_" ++ substring 0 16 (Sha256.digest payload))
      | None => None
      end
  | _ => None
  end.

End MessageParser.

(** A text of 101 characters ending in [c]. *)
Definition sample_long_text (c : string) : string :=
  (String.concat "" (repeat "xxxxxxxxxx" 10) ++ c)%string.

(* ------------------------------------------------------------------ *)
(** ** Session metadata ([EventParser.extractSessionMetadata]) *)

(** A JavaScript number that is an integer or an infinity. *)
Inductive js_number :=
| JSFin (z : Z)
| JSPosInf
| JSNegInf.

Record session_metadata := mkSessionMetadata {
  md_session_id : option json;
  md_started_at : js_number;
  md_ended_at : js_number;
  md_event_count : nat;
  md_has_thinking : bool;
  md_has_usage : bool;
  md_tool_calls : nat;
  md_errors : nat
}.

(** [events.map(e => e.timestamp).filter(t => t)]: [NaN] and [0] are
    dropped. *)
Fixpoint truthy_times (evs : list event) : list Z :=
  match evs with
  | [] => []
  | e :: rest =>
      match timestamp e with
      | Some t => if t =? 0 then truthy_times rest else t :: truthy_times rest
      | None => truthy_times rest
      end
  end.

(** [Math.min(...ts)] and [Math.max(...ts)]: [Infinity] and [-Infinity]
    on no argument.  (The spread is refused past the engine's argument
    limit, some hundred thousand values, which is not modelled.) *)
Definition js_min_step (acc : js_number) (t : Z) : js_number :=
  match acc with
  | JSPosInf => JSFin t
  | JSFin x => JSFin (Z.min x t)
  | JSNegInf => JSNegInf
  end.

Definition js_max_step (acc : js_number) (t : Z) : js_number :=
  match acc with
  | JSNegInf => JSFin t
  | JSFin x => JSFin (Z.max x t)
  | JSPosInf => JSPosInf
  end.

Definition Math_min (ts : list Z) : js_number := fold_left js_min_step ts JSPosInf.
Definition Math_max (ts : list Z) : js_number := fold_left js_max_step ts JSNegInf.

Definition is_type (t : string) (e : event) : bool := String.eqb (event_type e) t.

(** [extractSessionMetadata(events)]; [None] is [null]. *)
Definition extractSessionMetadata (evs : list event) : option session_metadata :=
  match evs with
  | [] => None
  | _ =>
      match find (is_type "session") evs with
      | None => None
      | Some sessionEvent =>
          let ts := truthy_times evs in
          Some {| md_session_id := session_id sessionEvent;
                  md_started_at := Math_min ts;
                  md_ended_at := Math_max ts;
                  md_event_count := length evs;
                  md_has_thinking := existsb (is_type "thinking_block") evs;
                  md_has_usage := existsb (is_type "usage_stats") evs;
                  md_tool_calls := length (filter (is_type "tool_call") evs);
                  md_errors := length (filter (fun e => negb (is_error e =? 0)) evs) |}
      end
  end.

(** An event of type [ty] at time [ts] in session [sess]. *)
Definition sample_event (ty : string) (ts : option Z) : event :=
  mkEvent (Some (JStr ty)) None (Some (JStr "sess")) ty None ts "null" None None None None 0
    None None None None.

(* ------------------------------------------------------------------ *)
(** ** [WhatsAppExportParser.parseLine] and [parseExport] *)

(** Text as the regular expressions see it: a list of UTF-16 code units. *)
Definition units := list Z.

(** [\s]: the WhiteSpace and LineTerminator code units. *)
Definition is_js_ws (u : Z) : bool :=
  (existsb (Z.eqb u) [9; 10; 11; 12; 13; 32; 160; 5760; 8232; 8233; 8239;
                       8287; 12288; 65279]
   || ((8192 <=? u) && (u <=? 8202)))%bool.

(** [\d]. *)
Definition is_js_digit (u : Z) : bool := ((48 <=? u) && (u <=? 57))%bool.

(** [.] without the [s] flag: anything but a line terminator. *)
Definition is_not_line_term (u : Z) : bool :=
  negb (existsb (Z.eqb u) [10; 13; 8232; 8233]).

(** The regular expressions of [parseLine]: character sets, sequence,
    ordered alternation, greedy repetition [{min,max}] ([None]: no upper
    bound) and numbered capture groups. *)
Inductive regex :=
| RClass (p : Z -> bool)
| REmpty
| RSeq (a b : regex)
| RAlt (a b : regex)
| RRep (min : nat) (max : option nat) (a : regex)
| RGroup (n : nat) (a : regex).

(** Capture values, the latest first. *)
Definition captures := list (nat * units).

Definition re_cont := units -> captures -> option captures.

(** ECMAScript's RepeatMatcher for a greedy quantifier: [m] matches the
    atom; once [min] iterations are done, an iteration that consumes
    nothing fails.  [fuel] only bounds the recursion: it is started at
    [min + length s + 1], more than the number of calls. *)
Fixpoint re_rep (m : units -> captures -> re_cont -> option captures)
    (k : re_cont) (fuel mn : nat) (mx : option nat) (s : units)
    (c : captures) {struct fuel} : option captures :=
  match fuel with
  | O => None
  | S fuel' =>
      match mx with
      | Some O => k s c
      | _ =>
          match mn with
          | S mn' => m s c (fun s' c' => re_rep m k fuel' mn' (option_map pred mx) s' c')
          | O =>
              match m s c (fun s' c' =>
                             if (length s' <? length s)%nat
                             then re_rep m k fuel' O (option_map pred mx) s' c'
                             else None) with
              | Some res => Some res
              | None => k s c
              end
          end
      end
  end.

(** Backtracking matcher in continuation-passing style: [k] receives the
    rest of the input and the captures, and failure backtracks. *)
Fixpoint re_match (r : regex) (s : units) (c : captures) (k : re_cont)
    {struct r} : option captures :=
  match r with
  | RClass p =>
      match s with
      | u :: s' => if p u then k s' c else None
      | [] => None
      end
  | REmpty => k s c
  | RSeq a b => re_match a s c (fun s' c' => re_match b s' c' k)
  | RAlt a b =>
      match re_match a s c k with
      | Some res => Some res
      | None => re_match b s c k
      end
  | RRep mn mx a => re_rep (re_match a) k (mn + S (length s)) mn mx s c
  | RGroup n a =>
      re_match a s c (fun s' c' => k s' ((n, firstn (length s - length s') s) :: c'))
  end.

(** [line.match(regex)] for a regular expression [^...$] without the [g]
    and [m] flags: only a match from the first code unit to the last
    one counts. *)
Definition re_exec (r : regex) (s : units) : option captures :=
  re_match r s [] (fun s' c => match s' with [] => Some c | _ => None end).

(** [match[n]] (every group of [parseLine]'s expressions takes part in a
    successful match). *)
Fixpoint get_cap (n : nat) (c : captures) : units :=
  match c with
  | [] => []
  | (m, v) :: c' => if Nat.eqb m n then v else get_cap n c'
  end.

Fixpoint re_seq (l : list regex) : regex :=
  match l with
  | [] => REmpty
  | [a] => a
  | a :: l' => RSeq a (re_seq l')
  end.

Definition re_lit (u : Z) : regex := RClass (Z.eqb u).

(** An upper-case ASCII letter under the [i] flag: it matches its
    lower-case form too. *)
Definition re_lit_i (u : Z) : regex := RClass (fun x => (Z.eqb x u || Z.eqb x (u + 32))%bool).

Definition re_digits (mn mx : nat) : regex := RRep mn (Some mx) (RClass is_js_digit).
Definition re_ws_star : regex := RRep 0 None (RClass is_js_ws).
Definition re_ws_plus : regex := RRep 1 None (RClass is_js_ws).
Definition re_opt (a : regex) : regex := RRep 0 (Some 1%nat) a.

(** [(\d{1,2}\/\d{1,2}\/\d{2,4})] *)
Definition wa_date_group : regex :=
  RGroup 1 (re_seq [re_digits 1 2; re_lit 47; re_digits 1 2; re_lit 47; re_digits 2 4]).

(** [([^:]+)] *)
Definition wa_sender_group : regex :=
  RGroup 3 (RRep 1 None (RClass (fun u => negb (Z.eqb u 58)))).

(** The text group: any number of [.], then the end of the line. *)
Definition wa_text_group : regex := RGroup 4 (RRep 0 None (RClass is_not_line_term)).

(** Format 1: [^(\d{1,2}\/\d{1,2}\/\d{2,4}),?\s+(\d{1,2}:\d{2}(?::\d{2})?\s*(?:AM|PM)?)\s*-\s*([^:]+):\s*] and the text group, with the [i] flag. *)
Definition wa_format1 : regex :=
  RSeq (re_seq [wa_date_group; re_opt (re_lit 44); re_ws_plus;
                RGroup 2 (re_seq [re_digits 1 2; re_lit 58; re_digits 2 2;
                                  re_opt (re_seq [re_lit 58; re_digits 2 2]);
                                  re_ws_star;
                                  re_opt (RAlt (re_seq [re_lit_i 65; re_lit_i 77])
                                               (re_seq [re_lit_i 80; re_lit_i 77]))]);
                re_ws_star; re_lit 45; re_ws_star; wa_sender_group; re_lit 58;
                re_ws_star])
       wa_text_group.

(** Format 2: [^\[(\d{1,2}\/\d{1,2}\/\d{2,4}),?\s+(\d{1,2}:\d{2}:\d{2})\]\s*([^:]+):\s*] and the text group. *)
Definition wa_format2 : regex :=
  RSeq (re_seq [re_lit 91; wa_date_group; re_opt (re_lit 44); re_ws_plus;
                RGroup 2 (re_seq [re_digits 1 2; re_lit 58; re_digits 2 2;
                                  re_lit 58; re_digits 2 2]);
                re_lit 93; re_ws_star; wa_sender_group; re_lit 58; re_ws_star])
       wa_text_group.

(** [String.prototype.trim]: it strips [\s] code units at both ends. *)
Fixpoint trim_start (s : units) : units :=
  match s with
  | u :: s' => if is_js_ws u then trim_start s' else s
  | [] => []
  end.

Definition js_trim (s : units) : units := rev (trim_start (rev (trim_start s))).

(** The object [parseLine] returns. *)
Record wa_line := mkWaLine {
  wl_date : units;
  wl_time : units;
  wl_sender : units;
  wl_text : units
}.

Definition wa_line_of (c : captures) : wa_line :=
  mkWaLine (get_cap 1 c) (get_cap 2 c) (js_trim (get_cap 3 c)) (get_cap 4 c).

(** [parseLine(line)] ([None] for [null]). *)
Definition parseLine (line : units) : option wa_line :=
  match re_exec wa_format1 line with
  | Some c => Some (wa_line_of c)
  | None =>
      match re_exec wa_format2 line with
      | Some c => Some (wa_line_of c)
      | None => None
      end
  end.

(** [content.split('\n')]. *)
Fixpoint split_lf (s : units) : list units :=
  match s with
  | [] => [[]]
  | u :: s' =>
      if Z.eqb u 10 then [] :: split_lf s'
      else match split_lf s' with
           | l :: ls => (u :: l) :: ls
           | [] => [[u]]
           end
  end.

(** The loop of [parseExport] over [lines], with [currentMessage = cur]:
    the parsed headers, in order, each with its continuation lines
    appended ([currentMessage.text += '\n' + line]); [parseExport]
    returns [normalizeMessage] of each. *)
Fixpoint wa_group (cur : option wa_line) (lines : list units) : list wa_line :=
  match lines with
  | [] => match cur with Some m => [m] | None => [] end
  | line :: rest =>
      match parseLine line with
      | Some p => (match cur with Some m => [m] | None => [] end) ++ wa_group (Some p) rest
      | None =>
          match cur, js_trim line with
          | Some m, _ :: _ =>
              wa_group (Some (mkWaLine (wl_date m) (wl_time m) (wl_sender m)
                                       (wl_text m ++ 10 :: line)%list)) rest
          | _, _ => wa_group cur rest
          end
      end
  end.

(** The messages [parseExport] builds from the file's [content]. *)
Definition wa_export_lines (content : units) : list wa_line :=
  wa_group None (split_lf content).

(** The header lines of [lines], parsed. *)
Definition wa_headers (lines : list units) : list wa_line :=
  flat_map (fun l => match parseLine l with Some p => [p] | None => [] end) lines.

(** The lines that follow a header, up to the next header line. *)
Fixpoint wa_following (lines : list units) : list units :=
  match lines with
  | [] => []
  | l :: rest => match parseLine l with Some _ => [] | None => l :: wa_following rest end
  end.

(** The header lines of [lines], parsed, each with the lines that follow
    it up to the next header. *)
Fixpoint wa_blocks (lines : list units) : list (wa_line * list units) :=
  match lines with
  | [] => []
  | l :: rest =>
      match parseLine l with
      | Some p => (p, wa_following rest) :: wa_blocks rest
      | None => wa_blocks rest
      end
  end.

(** [line.trim()] is not empty. *)
Definition wa_nonblank (l : units) : bool :=
  match js_trim l with [] => false | _ :: _ => true end.

(** The header [h] with a newline and each of the non-blank lines of
    [following] appended to its text. *)
Definition wa_message (h : wa_line) (following : list units) : wa_line :=
  mkWaLine (wl_date h) (wl_time h) (wl_sender h)
    (wl_text h ++ concat (map (fun l => 10 :: l) (filter wa_nonblank following)))%list.

(** [w] is the header [h] with continuation lines appended: same date,
    time and sender, and the text of [h] followed by nothing or by a
    newline and more. *)
Definition wa_extends (w h : wa_line) : Prop :=
  wl_date w = wl_date h /\ wl_time w = wl_time h /\ wl_sender w = wl_sender h /\
  exists extra, wl_text w = (wl_text h ++ extra)%list /\
                (extra = [] \/ exists e, extra = 10 :: e).

(** A line of a file with CRLF line ends, after [split('\n')]. *)
Definition crlf_line (l : units) : Prop := l = [] \/ exists l0, l = (l0 ++ [13])%list.

(** An ASCII string as code units. *)
Definition units_of (s : string) : units :=
  map (fun a => Z.of_nat (nat_of_ascii a)) (list_ascii_of_string s).

(** Three messages with one [message_id]. *)
Definition sample_same_id_batch : list message_data :=
  map (fun t => {| m_message_id := Some "x"; m_session_key := Some "k";
                   m_direction := Some "inbound"; m_sender_id := None;
                   m_channel := Some "c"; m_content_type := None;
                   m_content_text := Some (Z_to_dec t); m_reply_to_id := None;
                   m_timestamp := Some t; m_edited_at := None;
                   m_deleted_at := None; m_created_at := None |}) [1; 2; 3].

(* ------------------------------------------------------------------ *)
(** ** [backfillSessions] *)

(** What the loop learns about one session file. *)
Record sfile := mkSFile {
  sf_detected : option session_data;
  (** [detector.detectSession(file)]; [None]: it threw *)
  sf_summary : option (option string * option string);
  (** the [title] and [summary] of [summarize] (or of [generateFallback]
      when it throws); [None]: [parseEvents] or the fallback threw *)
  sf_now : Z
  (** [Date.now()] during [upsertSession] *)
}.

Record backfill_stats := mkBackfillStats {
  bf_inserted : nat;
  bf_updated : nat;
  bf_skipped : nat;
  bf_errors : nat
}.

Definition bf_inc_inserted (c : backfill_stats) : backfill_stats :=
  mkBackfillStats (Nat.succ (bf_inserted c)) (bf_updated c) (bf_skipped c) (bf_errors c).
Definition bf_inc_updated (c : backfill_stats) : backfill_stats :=
  mkBackfillStats (bf_inserted c) (Nat.succ (bf_updated c)) (bf_skipped c) (bf_errors c).
Definition bf_inc_skipped (c : backfill_stats) : backfill_stats :=
  mkBackfillStats (bf_inserted c) (bf_updated c) (Nat.succ (bf_skipped c)) (bf_errors c).
Definition bf_inc_errors (c : backfill_stats) : backfill_stats :=
  mkBackfillStats (bf_inserted c) (bf_updated c) (bf_skipped c) (Nat.succ (bf_errors c)).

(** [sessionData.title = summary.title; sessionData.summary = summary.summary]. *)
Definition with_summary (d : session_data) (title summary : option string) : session_data :=
  {| sd_id := sd_id d; sd_session_key := sd_session_key d; sd_type := sd_type d;
     sd_parent_id := sd_parent_id d; sd_label := sd_label d;
     sd_agent_id := sd_agent_id d; sd_model := sd_model d;
     sd_started_at := sd_started_at d; sd_ended_at := sd_ended_at d;
     sd_status := sd_status d; sd_title := title; sd_summary := summary;
     sd_message_count := sd_message_count d; sd_event_count := sd_event_count d |}.

(** [existing] is truthy. *)
Definition session_exists (o : option session_row) : bool :=
  match o with Some _ => true | None => false end.

(** The [for] loop of [backfillSessions] over the sessions table [T]. *)
Fixpoint backfill_loop (dryRun force : bool) (T : list session_row)
    (c : backfill_stats) (files : list sfile)
    : list session_row * backfill_stats :=
  match files with
  | [] => (T, c)
  | f :: rest =>
      match sf_detected f with
      | None => backfill_loop dryRun force T (bf_inc_errors c) rest
      | Some d =>
          let existing := getSession T (sd_id d) in
          if (session_exists existing && negb force)%bool then
            backfill_loop dryRun force T (bf_inc_skipped c) rest
          else
            match sf_summary f with
            | None => backfill_loop dryRun force T (bf_inc_errors c) rest
            | Some (title, summary) =>
                if negb dryRun then
                  match upsertSession (sf_now f) T (with_summary d title summary) with
                  | inl _ => backfill_loop dryRun force T (bf_inc_errors c) rest
                  | inr (T', true) => backfill_loop dryRun force T' (bf_inc_inserted c) rest
                  | inr (T', false) => backfill_loop dryRun force T' (bf_inc_updated c) rest
                  end
                else if session_exists existing
                then backfill_loop dryRun force T (bf_inc_updated c) rest
                else backfill_loop dryRun force T (bf_inc_inserted c) rest
            end
      end
  end.

(** [limit ? sessionFiles.slice(0, limit) : sessionFiles]. *)
Definition files_to_process (limit : option nat) (files : list sfile)
    : list sfile :=
  match limit with
  | Some (S n) => firstn (S n) files
  | _ => files
  end.

(** [backfillSessions({dryRun, force, limit})] on the sessions table [T]
    and the session files found, in order: the final table and the
    counts it returns. *)
Definition backfillSessions (dryRun force : bool) (limit : option nat)
    (T : list session_row) (files : list sfile)
    : list session_row * backfill_stats :=
  backfill_loop dryRun force T (mkBackfillStats 0 0 0 0) (files_to_process limit files).

(** [inserted + updated + skipped + errors]. *)
Definition bf_total (c : backfill_stats) : nat :=
  (bf_inserted c + bf_updated c + bf_skipped c + bf_errors c)%nat.

(** Two session files with the same id, then one whose detection fails. *)
Definition sample_sfiles : list sfile :=
  [mkSFile (Some sample_session_data) (Some (Some "T", Some "S")) 10;
   mkSFile (Some sample_session_data) (Some (Some "T2", Some "S2")) 20;
   mkSFile None None 30].

(* ------------------------------------------------------------------ *)
(** ** [ArchiveQuery.exportCSV] *)

Definition csv_comma : ascii := ","%char.
Definition csv_nl : ascii := "010"%char.
Definition csv_dq : ascii := ascii_of_nat 34.

(** [String(value).replace(...)]: every double quote doubled. *)
Fixpoint double_quotes (l : list ascii) : list ascii :=
  match l with
  | [] => []
  | c :: l' => if Ascii.eqb c csv_dq then c :: c :: double_quotes l'
               else c :: double_quotes l'
  end.

(** The three [value.includes] tests: a comma, a double quote or a
    newline. *)
Definition csv_special (c : ascii) : bool :=
  (Ascii.eqb c csv_comma || Ascii.eqb c csv_dq || Ascii.eqb c csv_nl)%bool.

(** The escaping of one value: quotes doubled, then the whole value put
    in quotes when it holds a comma, a quote or a newline. *)
Definition csv_escape (s : string) : list ascii :=
  let v := double_quotes (list_ascii_of_string s) in
  if existsb csv_special v then (csv_dq :: v ++ [csv_dq])%list else v.

(** [Array.prototype.join(',')]. *)
Fixpoint join_comma (l : list (list ascii)) : list ascii :=
  match l with
  | [] => []
  | [x] => x
  | x :: l' => (x ++ csv_comma :: join_comma l')%list
  end.

(** A column value of a result row (NULL, INTEGER or TEXT). *)
Inductive sql_value :=
| SqlNull
| SqlInt (z : Z)
| SqlText (s : string).

(** A result row, as the object better-sqlite3 builds: column to value. *)
Definition sql_row := list (string * sql_value).

(** [String(msg[field] || '')]. *)
Definition csv_field (v : option sql_value) : string :=
  match v with
  | Some (SqlInt z) => if Z.eqb z 0 then "" else Z_to_dec z
  | Some (SqlText s) => s
  | _ => ""
  end.

Definition message_csv_headers : list string :=
  ["timestamp"; "direction"; "sender_name"; "sender_id"; "channel";
   "content_type"; "content_text"; "session_key"].

(** [exportCSV(messages)]. *)
Definition exportCSV (messages : list sql_row) : string :=
  string_of_list_ascii
    (join_comma (map list_ascii_of_string message_csv_headers) ++ [csv_nl] ++
     concat (map (fun msg => join_comma (map (fun field => csv_escape (csv_field (assoc field msg)))
                                             message_csv_headers) ++ [csv_nl])
                 messages))%list.

(** A CSV reader (RFC 4180 with LF record ends): the reading side of the
    round trip, not code of the repository. *)
Inductive csv_mode := CStart | CPlain | CQuoted | CQuoteSeen.

Fixpoint csv_go (m : csv_mode) (cur : list ascii) (fields : list string) (s : list ascii)
    : list (list string) :=
  match s with
  | [] =>
      match m, cur, fields with
      | CStart, [], [] => []
      | _, _, _ => [(fields ++ [string_of_list_ascii cur])%list]
      end
  | c :: s' =>
      match m with
      | CQuoted =>
          if Ascii.eqb c csv_dq then csv_go CQuoteSeen cur fields s'
          else csv_go CQuoted (cur ++ [c])%list fields s'
      | _ =>
          if Ascii.eqb c csv_comma then
            csv_go CStart [] (fields ++ [string_of_list_ascii cur])%list s'
          else if Ascii.eqb c csv_nl then
            (fields ++ [string_of_list_ascii cur])%list :: csv_go CStart [] [] s'
          else
            match m with
            | CStart =>
                if Ascii.eqb c csv_dq then csv_go CQuoted cur fields s'
                else csv_go CPlain (cur ++ [c])%list fields s'
            | CQuoteSeen =>
                if Ascii.eqb c csv_dq then csv_go CQuoted (cur ++ [c])%list fields s'
                else csv_go CPlain (cur ++ [c])%list fields s'
            | _ => csv_go CPlain (cur ++ [c])%list fields s'
            end
      end
  end.

Definition csv_parse (s : string) : list (list string) :=
  csv_go CStart [] [] (list_ascii_of_string s).

(** Two messages whose text needs quoting. *)
Definition sample_csv_rows : list sql_row :=
  [[("timestamp", SqlInt 5); ("content_text", SqlText "a, b")];
   [("timestamp", SqlInt 0); ("sender_id", SqlNull);
    ("content_text", SqlText (String csv_dq (String csv_nl "x")))]].

(* ------------------------------------------------------------------ *)
(** ** memory-consolidation/consolidation-logger.js *)

(** [array.join('\n')] on lines of code units. *)
Fixpoint join_lf (ls : list units) : units :=
  match ls with
  | [] => []
  | [l] => l
  | l :: ls' => (l ++ 10 :: join_lf ls')%list
  end.

(** [line.match(/^##\s/)]. *)
Definition is_entry_header (line : units) : bool :=
  match line with
  | 35 :: 35 :: c :: _ => is_js_ws c
  | _ => false
  end.

(** The state of the loop of [extractRecentMemoryAdditions]:
    [recentEntries], [inEntry] and [currentEntry]. *)
Definition recent_state := (list units * bool * list units)%type.

(** [recentEntries.push(currentEntry.join('\n'))] when [currentEntry] is
    not empty and fewer than [maxEntries] entries are kept. *)
Definition push_entry (maxEntries : nat) (recent : list units) (cur : list units) : list units :=
  match cur with
  | [] => recent
  | _ => if Nat.ltb (length recent) maxEntries then (recent ++ [join_lf cur])%list else recent
  end.

(** One iteration of its [for (const line of lines)] loop. *)
Definition recent_step (maxEntries : nat) (st : recent_state) (line : units) : recent_state :=
  let '(recent, inEntry, cur) := st in
  if is_entry_header line then (push_entry maxEntries recent cur, true, [line])
  else if inEntry then (recent, inEntry, (cur ++ [line])%list)
  else (recent, inEntry, cur).

(** [extractRecentMemoryAdditions(memoryContent, maxEntries)]. *)
Definition extractRecentMemoryAdditions (memoryContent : units) (maxEntries : nat) : list units :=
  let '(recent, _, cur) :=
    fold_left (recent_step maxEntries) (split_lf memoryContent) ([], false, []) in
  push_entry maxEntries recent cur.

(** [MAX_MEMORY_SIZE] and [Math.floor(MAX_MEMORY_SIZE * 0.6)] (the double
    product rounds to 30720 exactly). *)
Definition MAX_MEMORY_SIZE : Z := 50 * 1024.
Definition memory_target_size : Z := 30720.

(** The split-point loop of [manageMemorySize]: [currentSize] is [cur],
    [i] the index of the first line of [lines]; the result is
    [splitIndex], 0 when the loop ends without [break]. *)
Fixpoint split_search (cur : Z) (i : nat) (lines : list units) : nat :=
  match lines with
  | [] => 0
  | l :: ls =>
      let cur' := cur + Z.of_nat (length l) + 1 in
      if (memory_target_size <=? cur') && is_entry_header l then i
      else split_search cur' (S i) ls
  end.

(** [manageMemorySize()] on a MEMORY.md of [size] bytes holding
    [content]: [None] when it returns without writing, otherwise the new
    MEMORY.md content and the archive content it writes. *)
Definition manageMemorySize (size : Z) (content : units) : option (units * units) :=
  if size <=? MAX_MEMORY_SIZE then None
  else
    let lines := split_lf content in
    let splitIndex := split_search 0 0 lines in
    if Nat.eqb splitIndex 0 then None
    else Some (join_lf (firstn splitIndex lines), join_lf (skipn splitIndex lines)).

(** [line.startsWith('##')]. *)
Definition starts_with_hashes (line : units) : bool :=
  match line with
  | 35 :: 35 :: _ => true
  | _ => false
  end.

(** The dream-notes loop of [createConsolidationReport]: [headerLines]
    is [acc], [lineCount] is [lineCount]. *)
Fixpoint themes_loop (lineCount : nat) (lines : list units) (acc : list units) : list units :=
  match lines with
  | [] => acc
  | line :: ls =>
      if Nat.ltb lineCount 50 then themes_loop (Datatypes.S lineCount) ls (acc ++ [line])%list
      else if starts_with_hashes line then acc
      else themes_loop lineCount ls acc
  end.

(** [synthesisThemes] computed from the content of dream-notes.md. *)
Definition synthesis_themes (dreamContent : units) : units :=
  join_lf (themes_loop 0 (split_lf dreamContent) []).

(** A MEMORY.md of three entries; the [###] line is not an entry header. *)
Definition sample_memory : units :=
  units_of "# Memory
intro
## A
a1
### sub
## B
b1
## C".

(** A MEMORY.md whose second entry starts past the 30720 mark. *)
Definition sample_big_memory : units :=
  (units_of "## old" ++ [10] ++ repeat 120 (Z.to_nat 30720) ++ [10] ++ units_of "## new" ++ [10] ++ units_of "x")%list.

(* ------------------------------------------------------------------ *)
(** ** Notions the proofs are stated with *)

(** The fields every event minted from a [message] record shares with its
    siblings: the record's time and no session id (the batch fills it). *)
Definition minted (ts : option Z) (e : event) : Prop :=
  timestamp e = ts /\ session_id e = Some JNull.

Definition type_and_event_id (e : event) : string * option json := (event_type e, event_id e).

(** Values that differ at most by the number they hold bind to rows of the
    same length, NULL at the same places. *)
Definition num_like (a b : option json) : Prop :=
  a = b \/ exists n m, a = Some (JNum n) /\ b = Some (JNum m).

Definition same_nulls (vs vs' : list sqlv) : Prop :=
  Forall2 (fun x y => is_sql_null x = is_sql_null y) vs vs'.

(** The row [insertEvent] writes for an event whose values are all
    scalars. *)
Definition row_of (key : string) (now : Z) (e : event) : event_row :=
  map scalar_val (event_args e key now).

(** A block's text conversion throws on [null], and on a block whose
    [text] has no string conversion. *)
Definition block_throws (b : json) : Prop :=
  b = JNull \/ exists x, get b "text" = Some x /\ js_to_string x = None.

(** The events of a file, as a forced scan commits them. *)
Definition scan_batch (basename : string) (evs : list event) : list event :=
  map (fill_session (batch_session_id (mkBatchOptions true (Some basename) true) evs)) evs.

(* ================================================================== *)
(** * Proofs *)

(* ------------------------------------------------------------------ *)
(** ** The event-log parser: shape of a [message] record's events *)

Lemma tool_not_thinking (b : json) :
  is_tool_block b = true -> is_thinking_block b = false.
Proof.
  unfold is_tool_block, is_thinking_block, str_eq.
  destruct (get b "type") as [[]|]; try discriminate.
  intros H. apply Bool.orb_true_iff in H.
  destruct H as [H|H]; apply String.eqb_eq in H; subst; reflexivity.
Qed.

Lemma tmpl_s_some (v : option json) (p : string) : tmpl v = Some p -> tmpl_s v = p.
Proof. unfold tmpl_s. intros ->. reflexivity. Qed.

Lemma block_events_spec (raw : json) (ts : option Z) (b : json) (es : list event) :
  block_events raw ts b = Some es ->
  map type_and_id es = map some_id (block_synth (tmpl_s (get raw "id")) b) /\
  Forall (fun e => parent_event_id e = get raw "id" /\ minted ts e) es.
Proof.
  intros H. unfold block_events in H. unfold block_synth.
  assert (Hb : b <> JNull) by (intros ->; discriminate H).
  replace (match b with JNull => None | _ => _ end) with
    (match (if is_tool_block b then
              match tmpl (get raw "id"), tmpl (get b "id") with
              | Some p, Some b0 => Some [{| event_id := Some (JStr (p ++ "_tool_" ++ b0));
                   parent_event_id := get raw "id";
                   session_id := Some JNull; event_type := "tool_call";
                   event_subtype := Some JNull; timestamp := ts;
                   content_json := json_stringify (JObj (obj_defined
                     [("id", get b "id"); ("name", get b "name");
                      ("arguments", if truthy (get b "arguments")
                                    then get b "arguments" else get b "input")]));
                   role := Some JNull; tool_name := get b "name";
                   model_provider := Some JNull; model_id := Some JNull;
                   is_error := 0; _thinking_content := None;
                   _thinking_signature := None; _content_size := None;
                   _usage := None |}]
              | _, _ => None
              end
            else Some []) with
     | None => None
     | Some tool =>
       if is_thinking_block b then
         match (if truthy (get b "thinking") then get b "thinking" else Some (JStr "")),
               tmpl (get raw "id") with
         | Some (JStr text), Some p =>
             Some (tool ++
              [{| event_id := Some (JStr (p ++ "_thinking"));
                  parent_event_id := get raw "id";
                  session_id := Some JNull; event_type := "thinking_block";
                  event_subtype := Some JNull; timestamp := ts;
                  content_json := json_stringify (JObj
                    [("type", JStr "thinking");
                     ("has_signature", JBool (truthy (get b "thinkingSignature")));
                     ("size_bytes", JNum (Z.of_nat (String.length text)))]);
                  role := Some JNull; tool_name := Some JNull;
                  model_provider := Some JNull; model_id := Some JNull;
                  is_error := 0; _thinking_content := Some text;
                  _thinking_signature := or_null_js (get b "thinkingSignature");
                  _content_size := Some (Z.of_nat (String.length text)); _usage := None |}])%list
         | _, _ => None
         end
       else Some tool
     end) in H by (destruct b; [contradiction Hb; reflexivity | reflexivity ..]).
  destruct (is_tool_block b) eqn:Ht.
  - rewrite (tool_not_thinking b Ht) in H |- *.
    destruct (tmpl (get raw "id")) as [p|] eqn:Ep; [|discriminate H].
    destruct (tmpl (get b "id")) as [q|] eqn:Eq; [|discriminate H].
    inversion H; subst. rewrite (tmpl_s_some _ _ Ep), (tmpl_s_some _ _ Eq).
    split; [reflexivity|]. repeat constructor.
  - simpl in H |- *. destruct (is_thinking_block b).
    + destruct (if truthy (get b "thinking") then _ else _) as [[]|]; try discriminate H.
      destruct (tmpl (get raw "id")) as [p|] eqn:Ep; [|discriminate H].
      inversion H; subst. rewrite (tmpl_s_some _ _ Ep).
      split; [reflexivity|]. repeat constructor.
    + inversion H; subst. split; constructor.
Qed.


Lemma blocks_events_spec (raw : json) (ts : option Z) (bs : list json) (es : list event) :
  blocks_events raw ts bs = Some es ->
  map type_and_id es = map some_id (flat_map (block_synth (tmpl_s (get raw "id"))) bs) /\
  Forall (fun e => parent_event_id e = get raw "id" /\ minted ts e) es.
Proof.
  revert es. induction bs as [|b bs IH]; intros es H; simpl in H.
  - inversion H; subst. split; [reflexivity | constructor].
  - destruct (block_events raw ts b) as [es1|] eqn:E1; [|discriminate].
    destruct (blocks_events raw ts bs) as [es2|] eqn:E2; [|discriminate].
    inversion H; subst.
    destruct (block_events_spec raw ts b es1 E1) as [M1 F1].
    destruct (IH es2 eq_refl) as [M2 F2].
    simpl. rewrite !map_app, M1, M2. split; [reflexivity|].
    apply Forall_app; split; assumption.
Qed.

Lemma block_synth_length (P : string) (b : json) :
  length (block_synth P b) =
  (length (filter is_tool_block [b]) + length (filter is_thinking_block [b]))%nat.
Proof.
  unfold block_synth; simpl.
  destruct (is_tool_block b), (is_thinking_block b); reflexivity.
Qed.

Lemma flat_map_synth_length (P : string) (bs : list json) :
  length (flat_map (block_synth P) bs) =
  (length (filter is_tool_block bs) + length (filter is_thinking_block bs))%nat.
Proof.
  induction bs as [|b bs IH]; [reflexivity|].
  simpl. rewrite length_app, IH, block_synth_length. simpl.
  destruct (is_tool_block b), (is_thinking_block b); simpl; lia.
Qed.

Lemma parseMessageEvent_some (Date_parse : string -> option Z) (raw : json)
    (evs : list event) :
  parseMessageEvent Date_parse raw = Some evs ->
  exists ts msg, date_ms Date_parse (get raw "timestamp") = Some ts /\
                 get raw "message" = Some msg /\ messageEvents raw ts msg = Some evs.
Proof.
  unfold parseMessageEvent.
  destruct (date_ms Date_parse (get raw "timestamp")) as [ts|]; [|discriminate].
  destruct (get raw "message") as [msg|]; [|discriminate].
  intros H. exists ts, msg. destruct msg; [discriminate H | auto ..].
Qed.

(** The shape of a successful [parseMessageEvent]: the parent event first,
    then the synthetic events in the order of [expected_synthetic], each
    naming the record's id as parent. *)
Lemma parseMessageEvent_shape (Date_parse : string -> option Z) (raw : json)
    (evs : list event) :
  parseMessageEvent Date_parse raw = Some evs ->
  exists ts main rest,
    date_ms Date_parse (get raw "timestamp") = Some ts /\
    evs = main :: rest /\
    event_id main = get raw "id" /\
    parent_event_id main = or_null_js (get raw "parentId") /\
    event_type main = (if str_eq (get (message_of raw) "role") "toolResult"
                       then "tool_result" else "message") /\
    minted ts main /\
    map type_and_id rest = map some_id (expected_synthetic raw) /\
    Forall (fun e => parent_event_id e = get raw "id" /\ minted ts e) rest.
Proof.
  intros H0. destruct (parseMessageEvent_some _ _ _ H0) as (ts & msg & Ed & Em & H).
  exists ts. clear H0.
  unfold expected_synthetic, usage_count, fanout_blocks, is_assistant, message_of.
  rewrite Em. unfold messageEvents in H.
  destruct (str_eq (get msg "role") "assistant") eqn:Ea; simpl in H |- *.
  - destruct (truthy (get msg "usage")) eqn:Eu; simpl in H |- *.
    + destruct (get msg "usage") as [u|]; [|discriminate Eu].
      destruct (tmpl (get raw "id")) as [p|] eqn:Ep; [|destruct (if truthy _ then _ else _) as [[]|]; discriminate H].
      rewrite (tmpl_s_some _ _ Ep).
      destruct (truthy (get msg "content")) eqn:Et; simpl in H |- *.
      * destruct (get msg "content") as [c|]; [|discriminate Et].
        destruct (iter_content c) as [bs|] eqn:Ei; [|discriminate H].
        destruct (blocks_events raw ts bs) as [bes|] eqn:Eb; [|discriminate H].
        destruct (blocks_events_spec _ _ _ _ Eb) as [M F].
        assert (Hbs : bs = match c with JArr xs => xs | _ => [] end)
          by (destruct c; inversion Ei; reflexivity).
        rewrite (tmpl_s_some _ _ Ep) in M. rewrite <- Hbs.
        inversion H; subst; clear H.
        eexists; eexists. split; [exact Ed|]. repeat (split; [first [reflexivity | split; reflexivity]|]).
        rewrite !map_app, M. split; [reflexivity|].
        apply Forall_app. split; [exact F | repeat constructor].
      * inversion H; subst; clear H.
        eexists; eexists. split; [exact Ed|]. repeat (split; [first [reflexivity | split; reflexivity]|]).
        try (split; [reflexivity|]). repeat constructor.
    + destruct (truthy (get msg "content")) eqn:Et; simpl in H |- *.
      * destruct (get msg "content") as [c|]; [|discriminate Et].
        destruct (iter_content c) as [bs|] eqn:Ei; [|discriminate H].
        destruct (blocks_events raw ts bs) as [bes|] eqn:Eb; [|discriminate H].
        destruct (blocks_events_spec _ _ _ _ Eb) as [M F].
        assert (Hbs : bs = match c with JArr xs => xs | _ => [] end)
          by (destruct c; inversion Ei; reflexivity).
        rewrite <- Hbs.
        inversion H; subst; clear H.
        eexists; eexists. split; [exact Ed|]. repeat (split; [first [reflexivity | split; reflexivity]|]).
        rewrite app_nil_r, app_nil_r, M. split; [reflexivity | exact F].
      * inversion H; subst; clear H.
        eexists; eexists. split; [exact Ed|]. repeat (split; [first [reflexivity | split; reflexivity]|]).
        try (split; [reflexivity|]). repeat constructor.
  - inversion H; subst; clear H.
    eexists; eexists. split; [exact Ed|]. repeat (split; [first [reflexivity | split; reflexivity]|]).
    try (split; [reflexivity|]). repeat constructor.
Qed.

Lemma parseMessageEvent_length (Date_parse : string -> option Z) (raw : json)
    (evs : list event) :
  parseMessageEvent Date_parse raw = Some evs ->
  length evs = (1 + tool_count raw + thinking_count raw + usage_count raw)%nat.
Proof.
  intros H. destruct (parseMessageEvent_shape _ _ _ H)
    as (ts & main & rest & _ & -> & _ & _ & _ & _ & M & _).
  apply (f_equal (@length _)) in M. rewrite !length_map in M.
  simpl. rewrite M. unfold expected_synthetic, tool_count, thinking_count.
  rewrite length_app, flat_map_synth_length.
  destruct (usage_count raw) as [|[|n]] eqn:U; simpl; try lia.
  unfold usage_count in U. destruct (_ && _)%bool; discriminate.
Qed.


(** The ids a parse mints do not depend on the date parser. *)
Lemma date_ms_none (D D' : string -> option Z) (v : option json) :
  date_ms D v = None -> date_ms D' v = None.
Proof.
  unfold date_ms. destruct v as [[]|]; try discriminate;
  match goal with |- context [option_map _ ?x] => destruct x end;
  simpl; congruence.
Qed.

Lemma block_events_ids (raw : json) (ts ts' : option Z) (b : json) :
  option_map (map type_and_event_id) (block_events raw ts b) =
  option_map (map type_and_event_id) (block_events raw ts' b).
Proof.
  unfold block_events. destruct b; try reflexivity;
  repeat match goal with
  | |- context [get ?x "thinking"] => destruct (get x "thinking") as [[]|]
  | |- context [tmpl ?x] => destruct (tmpl x)
  | |- context [if ?c then _ else _] => destruct c
  end; reflexivity.
Qed.

Lemma blocks_events_ids (raw : json) (ts ts' : option Z) (bs : list json) :
  option_map (map type_and_event_id) (blocks_events raw ts bs) =
  option_map (map type_and_event_id) (blocks_events raw ts' bs).
Proof.
  induction bs as [|b bs IH]; [reflexivity|]. simpl.
  pose proof (block_events_ids raw ts ts' b) as Hb.
  destruct (block_events raw ts b), (block_events raw ts' b); try discriminate;
  destruct (blocks_events raw ts bs), (blocks_events raw ts' bs); try discriminate;
  simpl in *; try reflexivity.
  inversion Hb as [Hb']. inversion IH as [IH'].
  rewrite !map_app, Hb', IH'. reflexivity.
Qed.

Lemma messageEvents_ids (raw : json) (ts ts' : option Z) (msg : json) :
  option_map (map type_and_event_id) (messageEvents raw ts msg) =
  option_map (map type_and_event_id) (messageEvents raw ts' msg).
Proof.
  unfold messageEvents.
  destruct (_ && truthy (get msg "usage"))%bool;
    [destruct (get msg "usage"), (tmpl (get raw "id")) | ];
  (destruct (_ && truthy (get msg "content"))%bool;
    [destruct (get msg "content") as [c|];
     [destruct (iter_content c) as [bs|];
      [pose proof (blocks_events_ids raw ts ts' bs) as Hb;
       destruct (blocks_events raw ts bs), (blocks_events raw ts' bs);
       try discriminate; simpl in *; try reflexivity;
       inversion Hb as [Hb']; rewrite !map_app, Hb'; reflexivity | ] | ] | ]);
  reflexivity.
Qed.

Lemma parseMessageEvent_ids (D D' : string -> option Z) (raw : json) :
  option_map (map type_and_event_id) (parseMessageEvent D raw) =
  option_map (map type_and_event_id) (parseMessageEvent D' raw).
Proof.
  unfold parseMessageEvent.
  destruct (date_ms D (get raw "timestamp")) as [ts|] eqn:E1.
  - destruct (date_ms D' (get raw "timestamp")) as [ts'|] eqn:E2.
    + destruct (get raw "message") as [msg|]; [|reflexivity].
      destruct msg; try reflexivity; apply messageEvents_ids.
    + apply (date_ms_none D' D) in E2. congruence.
  - rewrite (date_ms_none D D' _ E1). reflexivity.
Qed.

(* ------------------------------------------------------------------ *)
(** ** The binder *)

Lemma scalar_bind (v : option json) :
  scalar_arg v = true -> bind_value v = Some (scalar_val v).
Proof. destruct v as [[]|]; simpl; intros H; try discriminate; reflexivity. Qed.

Lemma bind_args_scalar (bo : bool) (args : list (option json)) :
  forallb scalar_arg args = true -> bind_args bo args = Some (map scalar_val args).
Proof.
  revert bo. induction args as [|a rest IH]; intros bo H; [reflexivity|].
  simpl in H. apply andb_true_iff in H as [Ha Hr].
  destruct a as [[]|]; try discriminate Ha; simpl; rewrite (IH bo Hr); reflexivity.
Qed.

Lemma bind_params_scalar (n : nat) (args : list (option json)) :
  forallb scalar_arg args = true -> length args = n ->
  bind_params n args = Some (map scalar_val args).
Proof.
  intros H L. unfold bind_params.
  rewrite (bind_args_scalar false args H), length_map, L, Nat.eqb_refl. reflexivity.
Qed.

Lemma event_args_scalar (e : event) (k k' : string) (n n' : Z) :
  forallb scalar_arg (event_args e k n) = forallb scalar_arg (event_args e k' n').
Proof. reflexivity. Qed.

Lemma bindable_row (e : event) : bindable e = true ->
  forallb scalar_arg (event_args e "" 0) = true.
Proof. unfold bindable. intros H. apply andb_true_iff in H as [H _].
  apply andb_true_iff in H as [H _]. exact H. Qed.

Lemma bound_row_bindable (e : event) (k : string) (n : Z) :
  bindable e = true -> bound_row e k n = Some (map scalar_val (event_args e k n)).
Proof.
  intros H. unfold bound_row. apply bind_params_scalar; [|reflexivity].
  rewrite (event_args_scalar e k "" n 0). exact (bindable_row e H).
Qed.

Lemma same_nulls_refl (vs : list sqlv) : same_nulls vs vs.
Proof. induction vs; constructor; auto. Qed.

Lemma same_nulls_app (a b c d : list sqlv) :
  same_nulls a b -> same_nulls c d -> same_nulls (a ++ c) (b ++ d).
Proof. intros H1 H2. apply Forall2_app; assumption. Qed.

Lemma bind_args_num_like (args args' : list (option json)) :
  Forall2 num_like args args' -> forall bo,
  match bind_args bo args, bind_args bo args' with
  | Some vs, Some vs' => same_nulls vs vs'
  | None, None => True
  | _, _ => False
  end.
Proof.
  induction 1 as [|a b args args' Hab Hrest IH]; intros bo; [constructor|].
  destruct Hab as [<-|(n & m & -> & ->)].
  - destruct a as [[|b0|n0|s0|xs|kvs]|]; simpl; try exact I;
    try (specialize (IH bo);
         destruct (bind_args bo args), (bind_args bo args'); try contradiction;
         try exact I; constructor; [reflexivity | exact IH]).
    + destruct (bind_elems xs); [|exact I]. specialize (IH bo).
      destruct (bind_args bo args), (bind_args bo args'); try contradiction; try exact I.
      apply same_nulls_app; [apply same_nulls_refl | exact IH].
    + destruct bo; [exact I | exact (IH true)].
  - simpl. specialize (IH bo).
    destruct (bind_args bo args), (bind_args bo args'); try contradiction; try exact I.
    constructor; [reflexivity | exact IH].
Qed.

Lemma same_nulls_col (vs vs' : list sqlv) (i : nat) :
  same_nulls vs vs' -> is_sql_null (col i vs) = is_sql_null (col i vs').
Proof.
  unfold col. intros H. revert i. induction H as [|x y vs vs' Hxy H IH]; intros i.
  - destruct i; reflexivity.
  - destruct i; [exact Hxy | apply IH].
Qed.

Lemma event_args_num_like (e : event) (k : string) (n n' : Z) :
  Forall2 num_like (event_args e k n) (event_args e k n').
Proof.
  unfold event_args.
  repeat (apply Forall2_cons; [first [left; reflexivity | right; eauto] |]).
  constructor.
Qed.

(** A row is refused, or not, whatever the clock. *)
Lemma bound_row_clock (e : event) (k : string) (n : Z) :
  match bound_row e k n with
  | None => refused e k = true
  | Some r => refused e k =
      (is_sql_null (ev_event_id r) || is_sql_null (ev_session_id r)
       || is_sql_null (ev_timestamp r))%bool
  end.
Proof.
  unfold refused, bound_row, bind_params.
  pose proof (bind_args_num_like _ _ (event_args_num_like e k n 0) false) as H.
  destruct (bind_args false (event_args e k n)) as [vs|];
  destruct (bind_args false (event_args e k 0)) as [vs'|]; try contradiction.
  - unfold ev_event_id, ev_session_id, ev_timestamp.
    rewrite (Forall2_length H).
    destruct (Nat.eqb (length vs') 15); [|reflexivity].
    rewrite !(same_nulls_col vs vs' _ H). reflexivity.
  - reflexivity.
Qed.

(** The value the duplicate check binds is the row's [event_id]. *)
Lemma bind_args_head (x : option json) (v : sqlv) (rest : list (option json)) (r : list sqlv) :
  bind_args false [x] = Some [v] -> bind_args false (x :: rest) = Some r ->
  exists r', r = v :: r'.
Proof.
  destruct x as [[|b|n|s|xs|kvs]|]; cbn [bind_args];
  try (destruct (bind_value _) as [a|]; [|discriminate];
       intros H; inversion H; subst;
       destruct (bind_args false rest); [|discriminate];
       intros H'; inversion H'; eexists; reflexivity).
  - destruct (bind_elems xs) as [[|y [|z l]]|]; simpl; try discriminate.
    intros H; inversion H; subst.
    destruct (bind_args false rest); [|discriminate].
    intros H'; inversion H'; eexists; reflexivity.
  - discriminate.
Qed.

Lemma select_key_col (e : event) (k : string) (n : Z) (v : sqlv) (r : event_row) :
  select_key e = Some v -> bound_row e k n = Some r -> ev_event_id r = v.
Proof.
  unfold select_key, bound_row, bind_params, ev_event_id, col.
  destruct (bind_args false [event_id e]) as [[|v0 [|v1 l]]|] eqn:E1;
  cbv beta iota; try discriminate.
  intros H; inversion H; subst.
  destruct (bind_args false (event_args e k n)) as [r0|] eqn:E2; [|discriminate].
  destruct (Nat.eqb (length r0) 15); [|discriminate].
  intros H'; inversion H'; subst.
  destruct (bind_args_head _ _ _ _ E1 E2) as [r' ->]. reflexivity.
Qed.

Lemma sql_eq_refl (v : sqlv) : is_sql_null v = false -> sql_eq v v = true.
Proof.
  destruct v; simpl; intros H; [discriminate | apply Z.eqb_refl | apply String.eqb_refl].
Qed.

(* ------------------------------------------------------------------ *)
(** ** Facts about the event store *)

Lemma has_event_id_app (S S' : estore) (xs : list event_row) (v : sqlv) :
  events S' = (events S ++ xs)%list ->
  has_event_id S' v = (has_event_id S v || existsb (fun r => sql_eq (ev_event_id r) v) xs)%bool.
Proof. intros E. unfold has_event_id. rewrite E. apply existsb_app. Qed.

Lemma has_event_id_extend (S S' : estore) (xs : list event_row) (v : sqlv) :
  events S' = (events S ++ xs)%list ->
  has_event_id S v = true -> has_event_id S' v = true.
Proof. intros E H. rewrite (has_event_id_app S S' xs v E), H. reflexivity. Qed.

Lemma insertThinkingBlock_events (now : Z) (S S' : estore) (a b c d : option json) :
  insertThinkingBlock now S a b c d = Some S' ->
  events S' = events S /\ events_checkpoint S' = events_checkpoint S.
Proof.
  unfold insertThinkingBlock. destruct (bind_params 5 _); [|discriminate].
  destruct (satellite_has _ _); intros H; inversion H; subst; split; reflexivity.
Qed.

Lemma insertUsageStats_events (S S' : estore) (a : option json) (u : json)
    (p m : option json) (t : option Z) :
  insertUsageStats S a u p m t = Some S' ->
  events S' = events S /\ events_checkpoint S' = events_checkpoint S.
Proof.
  unfold insertUsageStats. destruct (bind_params 14 _); [|discriminate].
  destruct (satellite_has _ _); intros H; inversion H; subst; split; reflexivity.
Qed.

(** The outcomes of [insertEvent]: a row appended (the satellite insert
    after it may still throw), a skip, or an exception that leaves the
    store as it was. *)
Lemma insertEvent_cases (fk : bool) (now : Z) (S : estore) (e : event) (key : string)
    (skip : bool) :
  match insertEvent fk now S e key skip with
  | Inserted S' =>
      exists r, bound_row (session_fill e) key now = Some r /\
        event_row_error fk S r = None /\
        events S' = (events S ++ [r])%list /\ events_checkpoint S' = events_checkpoint S
  | Skipped => True
  | Threw err S' =>
      S' = S \/
      (err = BindError /\ exists r, bound_row (session_fill e) key now = Some r /\
        event_row_error fk S r = None /\
        events S' = (events S ++ [r])%list /\ events_checkpoint S' = events_checkpoint S)
  end.
Proof.
  unfold insertEvent. set (e' := session_fill e).
  destruct skip; [destruct (select_key e') as [v|]; [destruct (has_event_id S v)|] |];
  cbv beta iota zeta; try exact I; try (left; reflexivity);
  (destruct (bound_row e' key now) as [r|] eqn:Hr; cbv beta iota zeta; [|left; reflexivity]);
  (destruct (event_row_error fk S r) as [err|] eqn:He; cbv beta iota zeta;
   [destruct (sql_error_eqb err _ && _)%bool; [exact I | left; reflexivity] |]);
  (match goal with
   | |- context [match (if ?c then insertThinkingBlock ?n ?S1 ?a ?b ?s ?d else Some ?S1')
                 with Some _ => _ | None => _ end] =>
       destruct (if c then insertThinkingBlock n S1 a b s d else Some S1') as [S2|] eqn:E2
   end; cbv beta iota zeta;
   [|right; split; [reflexivity|]; exists r; repeat split; assumption]);
  (assert (H2 : events S2 = (events S ++ [r])%list /\
                events_checkpoint S2 = events_checkpoint S)
     by (revert E2; match goal with |- context [if ?c then _ else _] => destruct c end;
         intros E2;
         [apply insertThinkingBlock_events in E2; destruct E2 as [-> ->]
         | inversion E2; subst]; split; reflexivity));
  (match goal with
   | |- context [match (if ?c then ?x else Some ?y) with Some _ => _ | None => _ end] =>
       destruct (if c then x else Some y) as [S3|] eqn:E3
   end; cbv beta iota zeta;
   [|right; split; [reflexivity|]; exists r; repeat split; try assumption; apply H2]);
  (assert (H3 : events S3 = events S2 /\ events_checkpoint S3 = events_checkpoint S2)
     by (revert E3; destruct (_usage e') as [u|];
         match goal with |- context [if ?c then _ else _] => destruct c end; intros E3;
         first [apply insertUsageStats_events in E3; exact E3
               | inversion E3; subst; split; reflexivity]));
  (exists r; repeat split; try assumption;
   [rewrite (proj1 H3); apply H2 | rewrite (proj2 H3); apply H2]).
Qed.


(* ------------------------------------------------------------------ *)
(** ** Inserting events that can be stored *)

Lemma row_of_cols (key : string) (now : Z) (e : event) :
  ev_event_id (row_of key now e) = scalar_val (event_id e) /\
  ev_parent_event_id (row_of key now e) = scalar_val (or_null_js (parent_event_id e)) /\
  ev_session_id (row_of key now e) = scalar_val (or_null_js (session_id e)) /\
  ev_event_type (row_of key now e) = SText (event_type e) /\
  ev_timestamp (row_of key now e) = scalar_val (num_arg (timestamp e)).
Proof. repeat split. Qed.

Lemma session_fill_truthy (e : event) : truthy (session_id e) = true -> session_fill e = e.
Proof. unfold session_fill. intros H. rewrite H. reflexivity. Qed.

Lemma scalar_truthy_not_null (v : option json) :
  scalar_arg v = true -> truthy v = true -> is_sql_null (scalar_val v) = false.
Proof. destruct v as [[]|]; simpl; congruence. Qed.

Lemma or_null_js_truthy (v : option json) : truthy v = true -> or_null_js v = v.
Proof. unfold or_null_js. intros ->. reflexivity. Qed.

Lemma bindable_parts (e : event) : bindable e = true ->
  forallb scalar_arg (event_args e "" 0) = true /\
  (String.eqb (event_type e) "thinking_block" = true ->
   scalar_arg (or_null_js (_thinking_signature e)) = true) /\
  (String.eqb (event_type e) "usage_stats" = true -> forall u, _usage e = Some u ->
   forallb scalar_arg (usage_args u (model_provider e) (model_id e) (timestamp e)) = true).
Proof.
  unfold bindable. intros H.
  apply andb_true_iff in H as [H H3]. apply andb_true_iff in H as [H1 H2].
  split; [exact H1|]. split.
  - intros E. rewrite E in H2. exact H2.
  - intros E u Eu. rewrite E, Eu in H3. exact H3.
Qed.

Lemma bindable_session (e : event) :
  bindable e = true -> scalar_arg (or_null_js (session_id e)) = true.
Proof.
  intros H. apply bindable_parts in H as [H _].
  unfold event_args in H. cbn [forallb] in H.
  repeat (apply andb_true_iff in H as [? H]). assumption.
Qed.

Lemma event_row_error_fresh (fk : bool) (S : estore) (e : event) (key : string) (now : Z)
    (id : string) :
  bindable e = true -> truthy (session_id e) = true ->
  event_id e = Some (JStr id) -> has_event_id S (SText id) = false ->
  timestamp e <> None ->
  (fk = true -> (is_sql_null (scalar_val (or_null_js (parent_event_id e)))
                 || has_event_id S (scalar_val (or_null_js (parent_event_id e))))%bool = true) ->
  event_row_error fk S (row_of key now e) = None.
Proof.
  intros Hb Hs Hid Hf Ht Hp.
  destruct (row_of_cols key now e) as (C0 & C1 & C3 & _ & C6).
  unfold event_row_error. rewrite C0, C3, C6, Hid.
  rewrite (or_null_js_truthy _ Hs).
  pose proof (bindable_session e Hb) as Hsc. rewrite (or_null_js_truthy _ Hs) in Hsc.
  rewrite (scalar_truthy_not_null _ Hsc Hs).
  destruct (timestamp e) as [t|]; [|congruence]. cbn [scalar_val num_arg is_sql_null orb].
  rewrite Hf. destruct fk; [|reflexivity].
  rewrite C1. specialize (Hp eq_refl).
  destruct (is_sql_null _); [reflexivity|].
  simpl in Hp. rewrite Hp, orb_true_r. reflexivity.
Qed.

Lemma insertThinkingBlock_some (now : Z) (S : estore) (a b c d : option json) :
  forallb scalar_arg [a; b; or_null_js c; d; Some (JNum now)] = true ->
  exists S', insertThinkingBlock now S a b c d = Some S'.
Proof.
  intros H. unfold insertThinkingBlock. rewrite (bind_params_scalar 5 _ H eq_refl).
  destruct (satellite_has _ _); eexists; reflexivity.
Qed.

Lemma insertUsageStats_some (S : estore) (a : option json) (u : json)
    (p m : option json) (t : option Z) :
  scalar_arg a = true -> forallb scalar_arg (usage_args u p m t) = true ->
  exists S', insertUsageStats S a u p m t = Some S'.
Proof.
  intros Ha H. unfold insertUsageStats.
  rewrite (bind_params_scalar 14 (a :: usage_args u p m t)); [| change (scalar_arg a && forallb scalar_arg (usage_args u p m t) = true)%bool;
       rewrite Ha, H; reflexivity | reflexivity].
  destruct (satellite_has _ _); eexists; reflexivity.
Qed.

(** An event with scalar values, a session, a time, a fresh string id and
    (with foreign keys on) a stored or null parent is inserted: its row is
    appended. *)
Lemma insertEvent_fresh (fk : bool) (now : Z) (S : estore) (e : event) (key : string)
    (skip : bool) (id : string) :
  bindable e = true -> truthy (session_id e) = true ->
  event_id e = Some (JStr id) -> has_event_id S (SText id) = false ->
  timestamp e <> None ->
  (fk = true -> (is_sql_null (scalar_val (or_null_js (parent_event_id e)))
                 || has_event_id S (scalar_val (or_null_js (parent_event_id e))))%bool = true) ->
  exists S', insertEvent fk now S e key skip = Inserted S' /\
             events S' = (events S ++ [row_of key now e])%list.
Proof.
  intros Hb Hs Hid Hf Ht Hp.
  pose proof (event_row_error_fresh fk S e key now id Hb Hs Hid Hf Ht Hp) as He.
  pose proof (bound_row_bindable e key now Hb) as Hr.
  destruct (bindable_parts e Hb) as (_ & Hth & Hus).
  unfold insertEvent. rewrite (session_fill_truthy e Hs).
  assert (Hk : select_key e = Some (SText id))
    by (unfold select_key, bind_params; rewrite Hid; reflexivity).
  assert (Hex : (if skip then match select_key e with
                              | None => None
                              | Some v => Some (has_event_id S v)
                              end else Some false) = Some false)
    by (destruct skip; [rewrite Hk, Hf|]; reflexivity).
  cbv zeta. rewrite Hex. cbv iota beta. rewrite Hr. cbv iota beta.
  fold (row_of key now e). rewrite He. cbv iota beta zeta.
  set (S1 := mkEStore (events S ++ [row_of key now e])%list (thinking_blocks S)
                      (usage_stats S) (events_checkpoint S)).
  assert (H2 : exists S2,
     (if (String.eqb (event_type e) "thinking_block"
          && truthy (option_map JStr (_thinking_content e)))%bool
      then insertThinkingBlock now S1 (event_id e)
             (option_map JStr (_thinking_content e)) (_thinking_signature e)
             (option_map JNum (_content_size e))
      else Some S1) = Some S2 /\ events S2 = events S1).
  { destruct (String.eqb (event_type e) "thinking_block") eqn:Et; [|eexists; split; reflexivity].
    destruct (truthy (option_map JStr (_thinking_content e)));
      [|eexists; split; reflexivity]. cbn [andb].
    destruct (insertThinkingBlock_some now S1 (event_id e)
                (option_map JStr (_thinking_content e)) (_thinking_signature e)
                (option_map JNum (_content_size e))) as [S2 E2].
    { rewrite Hid. cbn [forallb scalar_arg]. rewrite (Hth eq_refl).
      destruct (_thinking_content e), (_content_size e); reflexivity. }
    exists S2. split; [exact E2|]. apply (insertThinkingBlock_events _ _ _ _ _ _ _ E2). }
  destruct H2 as (S2 & E2 & Ev2). rewrite E2. cbv iota beta zeta.
  assert (H3 : exists S3,
     (if (String.eqb (event_type e) "usage_stats" && truthy (_usage e))%bool
      then match _usage e with
           | Some u => insertUsageStats S2 (event_id e) u (model_provider e)
                         (model_id e) (timestamp e)
           | None => Some S2
           end
      else Some S2) = Some S3 /\ events S3 = events S2).
  { destruct (String.eqb (event_type e) "usage_stats") eqn:Et; [|eexists; split; reflexivity].
    destruct (truthy (_usage e)); [|eexists; split; reflexivity]. cbn [andb].
    destruct (_usage e) as [u|] eqn:Eu; [|eexists; split; reflexivity].
    destruct (insertUsageStats_some S2 (event_id e) u (model_provider e) (model_id e)
                (timestamp e)) as [S3 E3].
    { rewrite Hid. reflexivity. }
    { exact (Hus eq_refl u eq_refl). }
    exists S3. split; [exact E3|]. apply (insertUsageStats_events _ _ _ _ _ _ _ E3). }
  destruct H3 as (S3 & E3 & Ev3). rewrite E3. cbv iota beta.
  exists S3. split; [reflexivity|]. rewrite Ev3, Ev2. reflexivity.
Qed.

Lemma batch_loop_counts (fk : bool) (now : Z) (key : string) (skip : bool)
    (evs : list event) : forall S c,
  let c' := snd (batch_loop fk now key skip S c evs) in
  (inserted c' + skipped c' + errors c' = inserted c + skipped c + errors c + length evs)%nat.
Proof.
  induction evs as [|e rest IH]; intros S c; cbv zeta in *; simpl; [lia|].
  destruct (insertEvent fk now S e key skip); rewrite IH; simpl;
  change Nat.succ with Datatypes.S; lia.
Qed.

(** A batch whose every event, in the store its predecessors leave, can be
    stored inserts them all, in order. *)
Lemma batch_loop_fresh (fk : bool) (now : Z) (key : string) (skip : bool)
    (evs : list event) : forall S c,
  (forall pre e post S', evs = (pre ++ e :: post)%list ->
     events S' = (events S ++ map (row_of key now) pre)%list ->
     bindable e = true /\ truthy (session_id e) = true /\ timestamp e <> None /\
     (exists id, event_id e = Some (JStr id) /\ has_event_id S' (SText id) = false) /\
     (fk = true -> (is_sql_null (scalar_val (or_null_js (parent_event_id e)))
                    || has_event_id S' (scalar_val (or_null_js (parent_event_id e))))%bool
                   = true)) ->
  let r := batch_loop fk now key skip S c evs in
  events (fst r) = (events S ++ map (row_of key now) evs)%list /\
  inserted (snd r) = (inserted c + length evs)%nat /\
  skipped (snd r) = skipped c /\ errors (snd r) = errors c.
Proof.
  induction evs as [|e rest IH]; intros S c H; simpl.
  - rewrite app_nil_r. repeat split; lia.
  - destruct (H [] e rest S eq_refl (eq_sym (app_nil_r _)))
      as (Hb & Hs & Ht & (id & Hid & Hf) & Hp).
    destruct (insertEvent_fresh fk now S e key skip id Hb Hs Hid Hf Ht Hp) as (S1 & -> & E1).
    destruct (IH S1 (mkCounters (Nat.succ (inserted c)) (skipped c) (errors c)))
      as (E & Hi & Hsk & Her).
    + intros pre e' post S' Hrest HS'. apply (H (e :: pre) e' post S').
      * rewrite Hrest. reflexivity.
      * rewrite HS', E1, <- app_assoc. reflexivity.
    + simpl in *. split; [rewrite E, E1, <- app_assoc; reflexivity|].
      split; [lia|]. split; assumption.
Qed.

(** [fresh_ids] at one position of the list. *)
Lemma fresh_ids_split (S : estore) (pre : list event) (e : event) (post : list event)
    (id : string) :
  fresh_ids S (pre ++ e :: post) = true -> event_id e = Some (JStr id) ->
  has_event_id S (SText id) = false /\
  Forall (fun e0 => exists id0, event_id e0 = Some (JStr id0) /\ id0 <> id) pre.
Proof.
  intros H Hid. induction pre as [|e0 pre IH].
  - simpl in H. rewrite Hid in H.
    apply andb_true_iff in H as [H _]. apply andb_true_iff in H as [H _].
    apply negb_true_iff in H. split; [exact H | constructor].
  - simpl in H. destruct (event_id e0) as [[| | | id0 | |]|] eqn:E0; try discriminate.
    apply andb_true_iff in H as [H Hr]. apply andb_true_iff in H as [_ Hn].
    destruct (IH Hr) as [Hf Hpre]. split; [exact Hf|]. constructor; [|exact Hpre].
    exists id0. split; [exact E0|]. intros <-.
    apply negb_true_iff in Hn. rewrite existsb_app in Hn. apply orb_false_iff in Hn as [_ Hn].
    simpl in Hn. rewrite Hid in Hn. simpl in Hn. rewrite String.eqb_refl in Hn. discriminate.
Qed.

Lemma fresh_ids_map (S : estore) (f : event -> event) (evs : list event) :
  (forall e, event_id (f e) = event_id e) -> fresh_ids S (map f evs) = fresh_ids S evs.
Proof.
  intros Hf.
  assert (Hx : forall id l, existsb (fun e' => str_is id (event_id e')) (map f l) =
                            existsb (fun e' => str_is id (event_id e')) l)
    by (intros id l; induction l as [|x l IHl]; [reflexivity|]; simpl; rewrite Hf, IHl;
        reflexivity).
  induction evs as [|e rest IH]; [reflexivity|]. cbn [fresh_ids map].
  rewrite Hf, IH. destruct (event_id e) as [[]|]; try reflexivity. rewrite Hx. reflexivity.
Qed.

Lemma fill_session_event_id (sid : option json) (e : event) :
  event_id (fill_session sid e) = event_id e.
Proof. unfold fill_session. destruct (truthy _); reflexivity. Qed.

Lemma has_rows_fresh (S S' : estore) (key : string) (now : Z) (pre : list event) (id : string) :
  events S' = (events S ++ map (row_of key now) pre)%list ->
  has_event_id S (SText id) = false ->
  Forall (fun e0 => exists id0, event_id e0 = Some (JStr id0) /\ id0 <> id) pre ->
  has_event_id S' (SText id) = false.
Proof.
  intros E Hf Hpre. rewrite (has_event_id_app S S' _ _ E), Hf. simpl. clear E.
  induction Hpre as [|e0 pre (id0 & Hid0 & Hne) _ IH]; [reflexivity|].
  simpl. rewrite IH, orb_false_r.
  destruct (row_of_cols key now e0) as (C0 & _). rewrite C0, Hid0. simpl.
  apply String.eqb_neq. exact Hne.
Qed.

Lemma has_rows_in (S S' : estore) (key : string) (now : Z) (pre : list event)
    (e0 : event) (id : string) :
  events S' = (events S ++ map (row_of key now) pre)%list ->
  In e0 pre -> event_id e0 = Some (JStr id) ->
  has_event_id S' (SText id) = true.
Proof.
  intros E Hin Hid. rewrite (has_event_id_app S S' _ _ E). apply orb_true_iff. right.
  apply existsb_exists. exists (row_of key now e0). split; [apply in_map; exact Hin|].
  destruct (row_of_cols key now e0) as (C0 & _). rewrite C0, Hid. apply String.eqb_refl.
Qed.

Lemma bindable_fill (e : event) (sid : string) :
  session_id e = Some JNull ->
  bindable (fill_session (Some (JStr sid)) e) = bindable e.
Proof.
  intros Hs. unfold fill_session. rewrite Hs. cbn [truthy].
  unfold bindable, event_args. cbn -[scalar_arg or_null_js]. rewrite Hs.
  replace (scalar_arg (or_null_js (Some (JStr sid)))) with true
    by (unfold or_null_js; destruct (truthy _); reflexivity).
  reflexivity.
Qed.

Lemma map_rows_synthetic (key : string) (now : Z) (rest : list event)
    (l : list (string * string)) :
  map type_and_id rest = map some_id l ->
  map (fun row => (ev_event_type row, ev_event_id row)) (map (row_of key now) rest) =
  map (fun p => (SText (fst p), SText (snd p))) l.
Proof.
  revert l. induction rest as [|e rest IH]; intros [|p l] H; try discriminate; [reflexivity|].
  cbn [map] in H. injection H as Ht Hi Hr. cbn [map].
  destruct (row_of_cols key now e) as (C0 & _ & _ & C4 & _). rewrite C0, C4, Ht.
  unfold str_of in Hi. destruct (event_id e) as [[]|]; try discriminate.
  injection Hi as ->. f_equal. apply IH. exact Hr.
Qed.


Lemma fill_session_fields (sid : option json) (e : event) :
  event_id (fill_session sid e) = event_id e /\
  parent_event_id (fill_session sid e) = parent_event_id e /\
  event_type (fill_session sid e) = event_type e /\
  timestamp (fill_session sid e) = timestamp e.
Proof. unfold fill_session. destruct (truthy _); repeat split. Qed.

Lemma fill_session_null (sid : string) (e : event) :
  session_id e = Some JNull ->
  session_id (fill_session (Some (JStr sid)) e) = Some (JStr sid).
Proof. unfold fill_session. intros ->. reflexivity. Qed.

Lemma map_split {A B : Type} (f : A -> B) (pre : list B) (x : B) (post : list B) :
  forall l, map f l = (pre ++ x :: post)%list ->
  exists pre0 x0 post0, l = (pre0 ++ x0 :: post0)%list /\ map f pre0 = pre /\ f x0 = x.
Proof.
  induction pre as [|y pre IH]; intros [|a l] H; try discriminate.
  - injection H as Hx Hp. exists [], a, l. repeat split; assumption.
  - injection H as Hy Hl. destruct (IH l Hl) as (pre0 & x0 & post0 & -> & Hm & Hf).
    exists (a :: pre0), x0, post0. simpl. rewrite Hm, Hy. repeat split; assumption.
Qed.

Lemma fresh_ids_str (S : estore) (pre : list event) (e : event) (post : list event) :
  fresh_ids S (pre ++ e :: post) = true -> exists id, event_id e = Some (JStr id).
Proof.
  induction pre as [|e0 pre IH]; simpl.
  - destruct (event_id e) as [[| | | id | |]|]; try discriminate. eauto.
  - destruct (event_id e0) as [[]|]; try discriminate.
    intros H. apply andb_true_iff in H as [_ H]. exact (IH H).
Qed.

Lemma or_null_js_idem (v : option json) : or_null_js (or_null_js v) = or_null_js v.
Proof. unfold or_null_js. destruct (truthy v) eqn:E; [rewrite E|]; reflexivity. Qed.

Lemma or_null_js_str (s : string) : String.eqb s "" = false ->
  or_null_js (Some (JStr s)) = Some (JStr s).
Proof. intros H. unfold or_null_js, truthy. rewrite H. reflexivity. Qed.

Lemma or_null_some_str (o : option string) (s : string) :
  or_null o = Some s -> o = Some s /\ String.eqb s "" = false.
Proof.
  destruct o as [[|a s']|]; simpl; intros H; try discriminate.
  injection H as <-. split; reflexivity.
Qed.

(** The parent a [message] row binds is null or stored when
    [parent_stored] holds. *)
Lemma parent_stored_row (S : estore) (raw : json) :
  parent_stored S raw = true ->
  (is_sql_null (scalar_val (or_null_js (or_null_js (get raw "parentId"))))
   || has_event_id S (scalar_val (or_null_js (or_null_js (get raw "parentId")))))%bool = true.
Proof.
  unfold parent_stored. rewrite or_null_js_idem.
  destruct (or_null_js (get raw "parentId")) as [[]|]; simpl; intros H; auto.
Qed.

(** C3 (amended): a [message] record whose parse succeeds, whose events
    have fresh distinct string ids and only scalar values, whose id is a
    non-empty string, whose timestamp is a valid date, committed in a batch
    with a session id and with its parent stored (or foreign keys
    suspended), adds exactly [1 + K + J + U] rows to [events] with no skip
    and no error: the parent row first (typed [tool_result] when the
    embedded role is [toolResult], [message] otherwise), then one row per
    synthetic event, each with [parent_event_id] equal to the parent's
    id. *)
Theorem message_fanout_ingest (Date_parse : string -> option Z) (raw : json)
    (evs : list event) (S : estore) (now : Z) (key : string) (opts : batch_options)
    (rid sid : string) :
  get raw "type" = Some (JStr "message") ->
  parseEvent Date_parse raw = Some evs ->
  get raw "id" = Some (JStr rid) ->
  String.eqb rid "" = false ->
  valid_time (date_ms Date_parse (get raw "timestamp")) = true ->
  or_null (sessionId opts) = Some sid ->
  fresh_ids S evs = true ->
  forallb bindable evs = true ->
  (disableForeignKeys opts || parent_stored S raw)%bool = true ->
  let r := insertEventBatch now S evs key opts in
  inserted (snd r) = (1 + tool_count raw + thinking_count raw + usage_count raw)%nat /\
  skipped (snd r) = 0%nat /\ errors (snd r) = 0%nat /\
  exists main children,
    events (fst r) = (events S ++ main :: children)%list /\
    length children = (tool_count raw + thinking_count raw + usage_count raw)%nat /\
    ev_event_id main = SText rid /\
    ev_event_type main =
      SText (if str_eq (get (message_of raw) "role") "toolResult"
             then "tool_result" else "message") /\
    map (fun row => (ev_event_type row, ev_event_id row)) children =
      map (fun p => (SText (fst p), SText (snd p))) (expected_synthetic raw) /\
    Forall (fun row => ev_parent_event_id row = SText rid) children.
Proof.
  intros Ht Hp Hid Hrid Hts Hsid Hfr Hbd Hfk. cbv zeta.
  assert (Hpm : parseMessageEvent Date_parse raw = Some evs)
    by (unfold parseEvent in Hp; rewrite Ht in Hp; exact Hp).
  pose proof (parseMessageEvent_length _ _ _ Hpm) as Hlen.
  destruct (parseMessageEvent_shape _ _ _ Hpm)
    as (ts & main & rest & Ed & -> & Hmid & Hmpar & Hmty & [Hmts Hms] & Hmap & Hrest).
  rewrite Hid in Hmid.
  assert (Htv : ts <> None)
    by (rewrite Ed in Hts; destruct ts; [discriminate | discriminate Hts]).
  destruct (or_null_some_str _ _ Hsid) as [Hso Hsne].
  assert (Hbs : batch_session_id opts (main :: rest) = Some (JStr sid))
    by (unfold batch_session_id; rewrite Hso; cbn [option_map truthy]; rewrite Hsne;
        reflexivity).
  (* every event of the record: no session yet, the record's time *)
  assert (Hall : Forall (fun e => session_id e = Some JNull /\ timestamp e = ts)
                        (main :: rest)).
  { constructor; [split; assumption|].
    eapply Forall_impl; [|exact Hrest]. intros e (_ & Hte & Hse). split; assumption. }
  rewrite forallb_forall in Hbd.
  unfold insertEventBatch. rewrite Hbs.
  set (fk := negb (disableForeignKeys opts)).
  set (fill := fill_session (Some (JStr sid))).
  destruct (batch_loop_fresh fk now key (skipIfExists opts) (map fill (main :: rest)) S
              zero_counters) as (E & Hins & Hsk & Her).
  - intros pre e post S' Hsplit HS'.
    destruct (map_split fill pre e post _ Hsplit) as (pre0 & e0 & post0 & Hl & Hpre & He).
    subst e.
    assert (Hin : In e0 (main :: rest)) by (rewrite Hl; apply in_elt).
    rewrite Forall_forall in Hall. destruct (Hall e0 Hin) as [Hse Hte].
    destruct (fill_session_fields (Some (JStr sid)) e0) as (F0 & F1 & _ & F3).
    fold fill in F0, F1, F3.
    rewrite Hl in Hfr. destruct (fresh_ids_str _ _ _ _ Hfr) as [id Hid0].
    destruct (fresh_ids_split _ _ _ _ id Hfr Hid0) as [Hf Hpre0].
    split; [unfold fill; rewrite (bindable_fill e0 sid Hse); apply Hbd; exact Hin|].
    split; [unfold fill; rewrite (fill_session_null sid e0 Hse); cbn; rewrite Hsne;
            reflexivity|].
    split; [rewrite F3, Hte; exact Htv|].
    split.
    + exists id. split; [rewrite F0; exact Hid0|].
      apply (has_rows_fresh S S' key now pre id HS' Hf). rewrite <- Hpre.
      apply Forall_map. eapply Forall_impl; [|exact Hpre0].
      intros x (id0 & Hx & Hne). exists id0. split; [|exact Hne].
      unfold fill. rewrite fill_session_event_id. exact Hx.
    + intros Hfk1. rewrite F1.
      destruct pre0 as [|e1 pre1].
      * injection Hl as <- _. rewrite Hmpar.
        rewrite <- Hpre in HS'. cbn [map] in HS'. rewrite app_nil_r in HS'.
        unfold has_event_id. rewrite HS'. fold (has_event_id S).
        apply parent_stored_row. unfold fk in Hfk1.
        destruct (disableForeignKeys opts); [discriminate|exact Hfk].
      * injection Hl as <- Hl.
        assert (Hin' : In e0 rest) by (rewrite Hl; apply in_elt).
        rewrite Forall_forall in Hrest. destruct (Hrest e0 Hin') as [Hpe _].
        rewrite Hpe, Hid, (or_null_js_str rid Hrid). cbn [scalar_val is_sql_null orb].
        apply (has_rows_in S S' key now pre (fill main) rid HS').
        -- rewrite <- Hpre. left. reflexivity.
        -- unfold fill. rewrite fill_session_event_id. exact Hmid.
  - cbn [inserted skipped errors zero_counters] in Hins, Hsk, Her.
    rewrite length_map in Hins. cbn [length] in Hins, Hlen.
    split; [rewrite Hins; lia|]. split; [exact Hsk|]. split; [exact Her|].
    exists (row_of key now (fill main)), (map (row_of key now) (map fill rest)).
    destruct (fill_session_fields (Some (JStr sid)) main) as (F0 & _ & F2 & _).
    fold fill in F0, F2.
    destruct (row_of_cols key now (fill main)) as (C0 & _ & _ & C4 & _).
    split; [rewrite E; reflexivity|].
    split; [rewrite !length_map; lia|].
    split; [rewrite C0, F0, Hmid; reflexivity|].
    split; [rewrite C4, F2, Hmty; reflexivity|].
    split.
    + apply map_rows_synthetic. rewrite map_map, <- Hmap. apply map_ext.
      intros e. unfold type_and_id. unfold fill.
      destruct (fill_session_fields (Some (JStr sid)) e) as (G0 & _ & G2 & _).
      rewrite G0, G2. reflexivity.
    + rewrite map_map. apply Forall_map. rewrite Forall_forall in Hrest |- *.
      intros e Hin. destruct (Hrest e Hin) as [Hpe _].
      destruct (row_of_cols key now (fill e)) as (_ & C1 & _).
      destruct (fill_session_fields (Some (JStr sid)) e) as (_ & G1 & _).
      fold fill in G1. rewrite C1, G1, Hpe, Hid, (or_null_js_str rid Hrid). reflexivity.
Qed.


Lemma message_fanout_ingest_witness :
  let r := insertEventBatch 0 empty_estore (parsed iso_date_parse raw_s2)
             "agent:main:main" sample_opts in
  inserted (snd r) = (1 + tool_count raw_s2 + thinking_count raw_s2 + usage_count raw_s2)%nat /\
  skipped (snd r) = 0%nat /\ errors (snd r) = 0%nat /\
  exists main children,
    events (fst r) = (events empty_estore ++ main :: children)%list /\
    length children = (tool_count raw_s2 + thinking_count raw_s2 + usage_count raw_s2)%nat /\
    ev_event_id main = SText "M" /\
    ev_event_type main =
      SText (if str_eq (get (message_of raw_s2) "role") "toolResult"
             then "tool_result" else "message") /\
    map (fun row => (ev_event_type row, ev_event_id row)) children =
      map (fun p => (SText (fst p), SText (snd p))) (expected_synthetic raw_s2) /\
    Forall (fun row => ev_parent_event_id row = SText "M") children.
Proof.
  apply (message_fanout_ingest iso_date_parse raw_s2 (parsed iso_date_parse raw_s2)
           empty_estore 0 "agent:main:main" sample_opts "M" "sess1");
    vm_compute; reflexivity.
Defined.

(** C3 counterexample: two tool-call blocks with the same block id mint the
    same event id; with [K = 2], [J = 0] and [U = 1] the store gains three
    rows, not four (the second tool call is skipped as already stored).
    And a record whose [provider] is [true] cannot be bound: the parent row
    throws, its tool call then fails the foreign key, and the usage row
    binds [true] too; no row is stored and three errors are counted. *)
Lemma message_fanout_counterexample :
  length (events (fst (insertEventBatch 0 empty_estore
                         (parsed iso_date_parse raw_dup_tools)
                         "agent:main:main" sample_opts))) = 3%nat /\
  (1 + tool_count raw_dup_tools + thinking_count raw_dup_tools
     + usage_count raw_dup_tools)%nat = 4%nat /\
  insertEventBatch 0 empty_estore (parsed iso_date_parse raw_bool_provider)
    "agent:main:main" sample_opts = (empty_estore, mkCounters 0 0 3) /\
  (1 + tool_count raw_bool_provider + thinking_count raw_bool_provider
     + usage_count raw_bool_provider)%nat = 3%nat.
Proof. vm_compute. repeat split. Qed.

(** C4: for a message record with id [P], the parse yields the parent event
    with id [P] followed by the synthetic events of [expected_synthetic]
    (one [P_tool_<block id>] per tool call, [P_thinking] per thinking block,
    [P_usage] for the usage object), and re-parsing the record, even under
    another date parser, succeeds again with the same ids. *)
Theorem synthetic_ids_stable (D D' : string -> option Z) (raw : json) (P : string)
    (evs : list event) :
  get raw "id" = Some (JStr P) ->
  parseMessageEvent D raw = Some evs ->
  map type_and_id evs =
    ((if str_eq (get (message_of raw) "role") "toolResult"
      then "tool_result" else "message"), Some P)
    :: map some_id (expected_synthetic raw) /\
  exists evs', parseMessageEvent D' raw = Some evs' /\
               map event_id evs' = map event_id evs.
Proof.
  intros Hid H.
  destruct (parseMessageEvent_shape _ _ _ H)
    as (ts & main & rest & _ & Hevs & Hmid & _ & Hmty & _ & Hmap & _).
  split.
  - rewrite Hevs. cbn [map]. unfold type_and_id at 1.
    rewrite Hmty, Hmid, Hid, Hmap. reflexivity.
  - pose proof (parseMessageEvent_ids D D' raw) as Hi. rewrite H in Hi.
    destruct (parseMessageEvent D' raw) as [evs'|]; [|discriminate].
    exists evs'. split; [reflexivity|].
    cbn [option_map] in Hi. injection Hi as Hi.
    replace (map event_id evs') with (map snd (map type_and_event_id evs'))
      by (rewrite map_map; reflexivity).
    rewrite <- Hi, map_map. reflexivity.
Qed.

Lemma synthetic_ids_stable_witness :
  map type_and_id (parsed iso_date_parse raw_s2) =
    ((if str_eq (get (message_of raw_s2) "role") "toolResult"
      then "tool_result" else "message"), Some "M")
    :: map some_id (expected_synthetic raw_s2) /\
  exists evs', parseMessageEvent (fun _ => None) raw_s2 = Some evs' /\
               map event_id evs' = map event_id (parsed iso_date_parse raw_s2).
Proof.
  apply (synthetic_ids_stable iso_date_parse (fun _ => None) raw_s2 "M");
    vm_compute; reflexivity.
Defined.

Lemma synthetic_ids_sample :
  map event_id (parsed iso_date_parse raw_s2) =
  [Some (JStr "M"); Some (JStr "M_tool_T1"); Some (JStr "M_thinking");
   Some (JStr "M_usage")].
Proof. vm_compute. reflexivity. Qed.

(** C5: in [insertEventBatch] with [skipIfExists] on (its default; the
    spec's batch interface has no other mode): [inserted + skipped +
    errors] is the number of events supplied; an event whose id is already
    stored is skipped; no uniqueness violation is ever thrown; a row that
    violates another constraint (NOT NULL, or the foreign key) throws that
    violation and is dropped, the store left as it was; any exception
    leaves the store as it was, except a binding error of the
    [thinking_blocks] or [usage_stats] insert, thrown after the events row
    is written, which stays; and after an exception the loop goes on with
    the next event, counting one error. *)
Theorem batch_failure_semantics (now : Z) (S : estore) (evs : list event) (key : string)
    (opts : batch_options) :
  skipIfExists opts = true ->
  (let c := snd (insertEventBatch now S evs key opts) in
   (inserted c + skipped c + errors c = length evs)%nat) /\
  (forall fk S' e v, select_key (session_fill e) = Some v -> has_event_id S' v = true ->
     insertEvent fk now S' e key (skipIfExists opts) = Skipped) /\
  (forall fk S' e S'', insertEvent fk now S' e key (skipIfExists opts) <>
                       Threw (SqliteError SQLITE_CONSTRAINT_UNIQUE) S'') /\
  (forall fk S' e v r err,
     select_key (session_fill e) = Some v -> has_event_id S' v = false ->
     bound_row (session_fill e) key now = Some r -> event_row_error fk S' r = Some err ->
     err <> SQLITE_CONSTRAINT_UNIQUE ->
     insertEvent fk now S' e key (skipIfExists opts) = Threw (SqliteError err) S') /\
  (forall fk S' e err S'', insertEvent fk now S' e key (skipIfExists opts) = Threw err S'' ->
     S'' = S' \/
     (err = BindError /\ exists r, bound_row (session_fill e) key now = Some r /\
                                   events S'' = (events S' ++ [r])%list)) /\
  (forall fk S' c e rest err S'',
     insertEvent fk now S' e key (skipIfExists opts) = Threw err S'' ->
     batch_loop fk now key (skipIfExists opts) S' c (e :: rest) =
     batch_loop fk now key (skipIfExists opts) S''
       (mkCounters (inserted c) (skipped c) (Nat.succ (errors c))) rest).
Proof.
  intros Hskip. rewrite Hskip. split; [|split; [|split; [|split; [|split]]]].
  - cbv zeta. unfold insertEventBatch. rewrite Hskip.
    pose proof (batch_loop_counts (negb (disableForeignKeys opts)) now key true
                  (map (fill_session (batch_session_id opts evs)) evs)
                  S zero_counters) as H.
    cbv zeta in H. cbn [inserted skipped errors zero_counters] in H.
    rewrite length_map in H. exact H.
  - intros fk S' e v Hk Hh. unfold insertEvent. cbv zeta.
    rewrite Hk. cbv iota beta. rewrite Hh. reflexivity.
  - intros fk S' e S''. unfold insertEvent. cbv zeta.
    destruct (select_key (session_fill e)) as [v|]; cbv iota beta; [|discriminate].
    destruct (has_event_id S' v); cbv iota beta; [discriminate|].
    destruct (bound_row (session_fill e) key now) as [r|]; cbv iota beta; [|discriminate].
    destruct (event_row_error fk S' r) as [err|]; cbv iota beta zeta.
    + destruct err; cbv; discriminate.
    + repeat match goal with
             | |- context [match ?x with Some _ => _ | None => _ end] =>
                 destruct x; cbv iota beta
             end; discriminate.
  - intros fk S' e v r err Hk Hh Hr He Hne. unfold insertEvent. cbv zeta.
    rewrite Hk. cbv iota beta. rewrite Hh. cbv iota beta. rewrite Hr. cbv iota beta.
    rewrite He. cbv iota beta. destruct err; try reflexivity. contradiction.
  - intros fk S' e err S'' H.
    pose proof (insertEvent_cases fk now S' e key true) as Hc. rewrite H in Hc.
    destruct Hc as [->|(-> & r & Hr & _ & Hev & _)]; [left; reflexivity|].
    right. split; [reflexivity|]. exists r. split; assumption.
  - intros fk S' c e rest err S'' H. cbn [batch_loop]. rewrite H. reflexivity.
Qed.

(** The batch [o1] (parent [missing]), [k1], [k1] with foreign keys on:
    one row stored, one skipped, one error. *)
Lemma batch_failure_semantics_witness :
  snd (insertEventBatch 0 empty_estore sample_mixed_batch "agent:main:main"
         sample_opts) = mkCounters 1 1 1 /\
  map ev_event_id (events (fst (insertEventBatch 0 empty_estore sample_mixed_batch
                                  "agent:main:main" sample_opts))) = [SText "k1"] /\
  snd (insertEventBatch 0 empty_estore (parsed iso_date_parse raw_bool_signature)
         "agent:main:main" sample_opts) = mkCounters 2 0 1 /\
  map ev_event_id (events (fst (insertEventBatch 0 empty_estore
                                  (parsed iso_date_parse raw_bool_signature)
                                  "agent:main:main" sample_opts)))
    = [SText "M"; SText "M_thinking"; SText "M_usage"] /\
  ((let c := snd (insertEventBatch 0 empty_estore sample_mixed_batch "agent:main:main"
                    sample_opts) in
    (inserted c + skipped c + errors c = length sample_mixed_batch)%nat) /\
   (forall fk S' e v, select_key (session_fill e) = Some v -> has_event_id S' v = true ->
      insertEvent fk 0 S' e "agent:main:main" (skipIfExists sample_opts) = Skipped) /\
   (forall fk S' e S'', insertEvent fk 0 S' e "agent:main:main"
                          (skipIfExists sample_opts) <>
                        Threw (SqliteError SQLITE_CONSTRAINT_UNIQUE) S'') /\
   (forall fk S' e v r err,
      select_key (session_fill e) = Some v -> has_event_id S' v = false ->
      bound_row (session_fill e) "agent:main:main" 0 = Some r ->
      event_row_error fk S' r = Some err ->
      err <> SQLITE_CONSTRAINT_UNIQUE ->
      insertEvent fk 0 S' e "agent:main:main" (skipIfExists sample_opts) =
        Threw (SqliteError err) S') /\
   (forall fk S' e err S'', insertEvent fk 0 S' e "agent:main:main"
                              (skipIfExists sample_opts) = Threw err S'' ->
      S'' = S' \/
      (err = BindError /\ exists r, bound_row (session_fill e) "agent:main:main" 0 = Some r /\
                                    events S'' = (events S' ++ [r])%list)) /\
   (forall fk S' c e rest err S'',
      insertEvent fk 0 S' e "agent:main:main" (skipIfExists sample_opts) = Threw err S'' ->
      batch_loop fk 0 "agent:main:main" (skipIfExists sample_opts) S' c (e :: rest) =
      batch_loop fk 0 "agent:main:main" (skipIfExists sample_opts) S''
        (mkCounters (inserted c) (skipped c) (Nat.succ (errors c))) rest)).
Proof.
  split; [vm_compute; reflexivity|]. split; [vm_compute; reflexivity|].
  split; [vm_compute; reflexivity|]. split; [vm_compute; reflexivity|].
  apply (batch_failure_semantics 0 empty_estore sample_mixed_batch "agent:main:main"
           sample_opts).
  reflexivity.
Defined.


(* ------------------------------------------------------------------ *)
(** ** Rescanning a file *)

Lemma settled_extend (key : string) (S S' : estore) (xs : list event_row) (e : event) :
  events S' = (events S ++ xs)%list -> settled key S e -> settled key S' e.
Proof.
  intros E [H|[[v [Hk H]]|H]]; [left; exact H | right; left | right; right; exact H].
  exists v. split; [exact Hk | exact (has_event_id_extend _ _ _ _ E H)].
Qed.

Lemma event_row_error_id (fk : bool) (S : estore) (r : event_row) :
  event_row_error fk S r = None -> is_sql_null (ev_event_id r) = false.
Proof.
  unfold event_row_error. destruct (is_sql_null (ev_event_id r)); [discriminate|].
  intros _. reflexivity.
Qed.

(** With foreign keys off a row is refused only for a NULL in a NOT NULL
    column, or for a stored id. *)
Lemma event_row_error_nofk (S : estore) (r : event_row) (err : sql_error) :
  event_row_error false S r = Some err ->
  (err = SQLITE_CONSTRAINT_NOTNULL /\
   (is_sql_null (ev_event_id r) || is_sql_null (ev_session_id r)
    || is_sql_null (ev_timestamp r))%bool = true) \/
  (err = SQLITE_CONSTRAINT_UNIQUE /\ has_event_id S (ev_event_id r) = true).
Proof.
  unfold event_row_error.
  destruct (is_sql_null (ev_event_id r) || is_sql_null (ev_session_id r)
            || is_sql_null (ev_timestamp r))%bool eqn:En.
  - intros H. injection H as <-. left. split; reflexivity.
  - destruct (has_event_id S (ev_event_id r)) eqn:Eh; intros H; [|discriminate].
    injection H as <-. right. split; reflexivity.
Qed.

(** Once its row is written, [insertEvent] returns with that row appended,
    whether a satellite insert then throws or not. *)
Lemma insertEvent_row (fk : bool) (now : Z) (S : estore) (e : event) (key : string)
    (skip : bool) (r : event_row) :
  (if skip then match select_key (session_fill e) with
                | None => None
                | Some v => Some (has_event_id S v)
                end else Some false) = Some false ->
  bound_row (session_fill e) key now = Some r ->
  event_row_error fk S r = None ->
  match insertEvent fk now S e key skip with
  | Inserted S' | Threw _ S' => events S' = (events S ++ [r])%list
  | Skipped => False
  end.
Proof.
  intros Hx Hr He. unfold insertEvent. cbv zeta.
  rewrite Hx. cbv iota beta. rewrite Hr. cbv iota beta. rewrite He. cbv iota beta zeta.
  match goal with
  | |- context [match (if ?c then insertThinkingBlock ?n ?S1 ?a ?b ?s ?d else Some ?S1')
                with Some _ => _ | None => _ end] =>
      destruct (if c then insertThinkingBlock n S1 a b s d else Some S1') as [S2|] eqn:E2
  end; cbv iota beta zeta; [|reflexivity].
  assert (H2 : events S2 = (events S ++ [r])%list).
  { revert E2. match goal with |- context [if ?c then _ else _] => destruct c end;
    intros E2; [apply insertThinkingBlock_events in E2; apply E2 | injection E2 as <-;
    reflexivity]. }
  match goal with
  | |- context [match (if ?c then ?x else Some ?y) with Some _ => _ | None => _ end] =>
      destruct (if c then x else Some y) as [S3|] eqn:E3
  end; cbv iota beta; [|exact H2].
  rewrite <- H2. revert E3. destruct (_usage (session_fill e)) as [u|];
  match goal with |- context [if ?c then _ else _] => destruct c end; intros E3;
  first [apply insertUsageStats_events in E3; apply E3 | injection E3 as <-; reflexivity].
Qed.

(** With foreign keys off and [skipIfExists] on, inserting an event appends
    at most one row, after which the event is settled; or it is skipped,
    the event being settled already. *)
Lemma insertEvent_settles (now : Z) (S : estore) (e : event) (key : string) :
  match insertEvent false now S e key true with
  | Inserted S1 | Threw _ S1 =>
      (exists xs, events S1 = (events S ++ xs)%list) /\ settled key S1 e
  | Skipped => settled key S e
  end.
Proof.
  assert (Hnil : events S = (events S ++ [])%list) by (rewrite app_nil_r; reflexivity).
  destruct (select_key (session_fill e)) as [v|] eqn:Hk.
  2: { unfold insertEvent. cbv zeta. rewrite Hk. cbv iota beta.
       split; [exists []; exact Hnil | left; exact Hk]. }
  destruct (has_event_id S v) eqn:Hh.
  { unfold insertEvent. cbv zeta. rewrite Hk. cbv iota beta. rewrite Hh.
    right; left; exists v; split; assumption. }
  pose proof (bound_row_clock (session_fill e) key now) as Hc.
  destruct (bound_row (session_fill e) key now) as [r|] eqn:Hb.
  2: { unfold insertEvent. cbv zeta. rewrite Hk. cbv iota beta. rewrite Hh.
       cbv iota beta. rewrite Hb. cbv iota beta.
       split; [exists []; exact Hnil | right; right; exact Hc]. }
  pose proof (select_key_col _ _ _ _ _ Hk Hb) as Hv.
  destruct (event_row_error false S r) as [err|] eqn:He.
  - unfold insertEvent. cbv zeta. rewrite Hk. cbv iota beta. rewrite Hh.
    cbv iota beta. rewrite Hb. cbv iota beta. rewrite He. cbv iota beta.
    destruct (event_row_error_nofk S r err He) as [[-> Hn]|[-> Hu]].
    + cbn [sql_error_eqb andb].
      split; [exists []; exact Hnil | right; right; rewrite Hc; exact Hn].
    + rewrite Hv, Hh in Hu. discriminate.
  - pose proof (insertEvent_row false now S e key true r) as Hw.
    cbv zeta in Hw. rewrite Hk, Hh in Hw. specialize (Hw eq_refl Hb He).
    assert (Hset : forall S', events S' = (events S ++ [r])%list ->
                   (exists xs, events S' = (events S ++ xs)%list) /\ settled key S' e).
    { intros S' E. split; [exists [r]; exact E|]. right; left. exists v.
      split; [exact Hk|]. rewrite (has_event_id_app S S' [r] v E), Hh. simpl.
      rewrite <- Hv, sql_eq_refl; [reflexivity|]. exact (event_row_error_id _ _ _ He). }
    destruct (insertEvent false now S e key true) as [S'| |err S']; try contradiction;
    apply Hset; exact Hw.
Qed.

(** A settled event is skipped or refused and leaves the store as it is. *)
Lemma insertEvent_settled_idle (fk : bool) (now : Z) (S : estore) (e : event) (key : string) :
  settled key S e ->
  insertEvent fk now S e key true = Skipped \/
  exists err, insertEvent fk now S e key true = Threw err S.
Proof.
  intros Hs.
  destruct (select_key (session_fill e)) as [v|] eqn:Hk.
  2: { right. exists BindError. unfold insertEvent. cbv zeta. rewrite Hk. reflexivity. }
  destruct (has_event_id S v) eqn:Hh.
  { left. unfold insertEvent. cbv zeta. rewrite Hk. cbv iota beta. rewrite Hh.
    reflexivity. }
  destruct Hs as [Hs|[[v' [Hk' Hs]]|Hs]]; [congruence|congruence|].
  pose proof (bound_row_clock (session_fill e) key now) as Hc.
  destruct (bound_row (session_fill e) key now) as [r|] eqn:Hb.
  - rewrite Hs in Hc.
    assert (He : event_row_error fk S r = Some SQLITE_CONSTRAINT_NOTNULL)
      by (unfold event_row_error; rewrite <- Hc; reflexivity).
    right. exists (SqliteError SQLITE_CONSTRAINT_NOTNULL).
    unfold insertEvent. cbv zeta. rewrite Hk. cbv iota beta. rewrite Hh.
    cbv iota beta. rewrite Hb. cbv iota beta. rewrite He. reflexivity.
  - right. exists BindError.
    unfold insertEvent. cbv zeta. rewrite Hk. cbv iota beta. rewrite Hh.
    cbv iota beta. rewrite Hb. reflexivity.
Qed.

Lemma batch_loop_settles (now : Z) (key : string) (evs : list event) :
  forall (S : estore) (c : counters),
  let r := batch_loop false now key true S c evs in
  (exists xs, events (fst r) = (events S ++ xs)%list) /\ Forall (settled key (fst r)) evs.
Proof.
  induction evs as [|e rest IH]; intros S c; cbv zeta in *.
  - split; [exists []; cbn [fst batch_loop]; rewrite app_nil_r; reflexivity | constructor].
  - pose proof (insertEvent_settles now S e key) as He. cbn [batch_loop].
    destruct (insertEvent false now S e key true) as [S1| |err S1].
    + destruct He as [[xs1 E1] Hs].
      destruct (IH S1 (mkCounters (Nat.succ (inserted c)) (skipped c) (errors c)))
        as [[xs E2] F].
      split; [exists (xs1 ++ xs)%list; rewrite E2, E1, <- app_assoc; reflexivity|].
      constructor; [exact (settled_extend _ _ _ _ _ E2 Hs) | exact F].
    + destruct (IH S (mkCounters (inserted c) (Nat.succ (skipped c)) (errors c)))
        as [[xs E2] F].
      split; [exists xs; exact E2|].
      constructor; [exact (settled_extend _ _ _ _ _ E2 He) | exact F].
    + destruct He as [[xs1 E1] Hs].
      destruct (IH S1 (mkCounters (inserted c) (skipped c) (Nat.succ (errors c))))
        as [[xs E2] F].
      split; [exists (xs1 ++ xs)%list; rewrite E2, E1, <- app_assoc; reflexivity|].
      constructor; [exact (settled_extend _ _ _ _ _ E2 Hs) | exact F].
Qed.

Lemma batch_loop_idle (fk : bool) (now : Z) (key : string) (evs : list event) :
  forall (S : estore) (c : counters),
  Forall (settled key S) evs ->
  let r := batch_loop fk now key true S c evs in
  fst r = S /\ inserted (snd r) = inserted c /\
  (skipped (snd r) + errors (snd r) = skipped c + errors c + length evs)%nat.
Proof.
  induction evs as [|e rest IH]; intros S c Hs; cbv zeta in *.
  - cbn [batch_loop fst snd length]. repeat split; lia.
  - inversion Hs as [|? ? He Hrest]; subst. cbn [batch_loop].
    destruct (insertEvent_settled_idle fk now S e key He) as [Hi|[err Hi]]; rewrite Hi.
    + destruct (IH S (mkCounters (inserted c) (Nat.succ (skipped c)) (errors c)) Hrest)
        as (E & I1 & C1).
      cbn [inserted skipped errors length] in *. change Nat.succ with Datatypes.S in *.
      repeat split; [exact E | exact I1 | lia].
    + destruct (IH S (mkCounters (inserted c) (skipped c) (Nat.succ (errors c))) Hrest)
        as (E & I1 & C1).
      cbn [inserted skipped errors length] in *. change Nat.succ with Datatypes.S in *.
      repeat split; [exact E | exact I1 | lia].
Qed.

(** The events a file commits in a forced scan, as [insertEventBatch] fills
    their session ids. *)
Lemma scan_batch_unfold (now : Z) (db : estore) (evs : list event) (basename : string) :
  insertEventBatch now db evs scan_session_key (mkBatchOptions true (Some basename) true) =
  batch_loop false now scan_session_key true db zero_counters
    (map (fill_session (batch_session_id (mkBatchOptions true (Some basename) true) evs)) evs).
Proof. reflexivity. Qed.

Lemma scan_pass_settles (JSON_parse : string -> option json)
    (Date_parse : string -> option Z) (now : Z) (files : list session_file) :
  forall (db : estore) (st : scan_stats),
  let r := scan_files JSON_parse Date_parse now 0 true db st files in
  (exists xs, events (fst r) = (events db ++ xs)%list) /\
  forall basename content evs,
    In (basename, content) files ->
    parseEvents JSON_parse Date_parse content 0 = Some evs ->
    Forall (settled scan_session_key (fst r)) (scan_batch basename evs).
Proof.
  induction files as [|[b content] rest IH]; intros db st; cbv zeta in *.
  - split; [exists []; cbn [scan_files fst]; rewrite app_nil_r; reflexivity
           | intros ? ? ? [] ].
  - cbn [scan_files].
    destruct (parseEvents JSON_parse Date_parse content 0) as [[|e evs]|] eqn:Hp.
    + destruct (IH db st) as [Ext F]. split; [exact Ext|].
      intros b' c' evs' [Heq|Hin] Hp'.
      * injection Heq as <- <-. rewrite Hp in Hp'. injection Hp' as <-. constructor.
      * exact (F _ _ _ Hin Hp').
    + rewrite scan_batch_unfold.
      pose proof (batch_loop_settles now scan_session_key
        (scan_batch b (e :: evs)) db zero_counters) as [[xs1 E1] F1].
      unfold scan_batch in E1, F1.
      destruct (batch_loop false now scan_session_key true db zero_counters _) as [db1 r1].
      cbn [fst] in E1, F1.
      match goal with
      | |- context [scan_files _ _ now 0 true db1 ?st' rest] =>
          destruct (IH db1 st') as [[xs2 E2] F2]
      end.
      split; [exists (xs1 ++ xs2)%list; rewrite E2, E1, app_assoc; reflexivity|].
      intros b' c' evs' [Heq|Hin] Hp'.
      * injection Heq as <- <-. rewrite Hp in Hp'. injection Hp' as <-.
        rewrite Forall_forall in F1 |- *. intros x Hx.
        exact (settled_extend _ _ _ _ _ E2 (F1 x Hx)).
      * exact (F2 _ _ _ Hin Hp').
    + match goal with
      | |- context [scan_files _ _ now 0 true db ?st' rest] =>
          destruct (IH db st') as [Ext F]
      end.
      split; [exact Ext|].
      intros b' c' evs' [Heq|Hin] Hp'.
      * injection Heq as <- <-. rewrite Hp in Hp'. discriminate.
      * exact (F _ _ _ Hin Hp').
Qed.

Lemma scan_pass_idle (JSON_parse : string -> option json)
    (Date_parse : string -> option Z) (now : Z) (files : list session_file) :
  forall (db : estore) (st : scan_stats),
  (forall basename content evs,
     In (basename, content) files ->
     parseEvents JSON_parse Date_parse content 0 = Some evs ->
     Forall (settled scan_session_key db) (scan_batch basename evs)) ->
  let r := scan_files JSON_parse Date_parse now 0 true db st files in
  fst r = db /\ totalInserted (snd r) = totalInserted st /\
  (totalSkipped (snd r) + totalErrors (snd r) =
   totalSkipped st + totalErrors st + events_in JSON_parse Date_parse files
   + unreadable files)%nat.
Proof.
  induction files as [|[b content] rest IH]; intros db st Hs; cbv zeta in *.
  - unfold events_in, unreadable. cbn [scan_files fst snd fold_right filter length].
    repeat split; lia.
  - assert (Hs' : forall basename content evs,
              In (basename, content) rest ->
              parseEvents JSON_parse Date_parse content 0 = Some evs ->
              Forall (settled scan_session_key db) (scan_batch basename evs))
      by (intros; eapply Hs; [right|]; eassumption).
    unfold unreadable, events_in. cbn [fold_right filter snd].
    fold (unreadable rest). fold (events_in JSON_parse Date_parse rest).
    cbn [scan_files].
    destruct content as [lines|].
    + cbn [length]. destruct (parseEvents JSON_parse Date_parse (Some lines) 0)
        as [[|e evs]|] eqn:Hp.
      * destruct (IH db st Hs') as (E & I1 & C1). repeat split; [exact E | exact I1 | ].
        unfold unreadable in *. cbn [length]. lia.
      * rewrite scan_batch_unfold.
        assert (Hset : Forall (settled scan_session_key db) (scan_batch b (e :: evs)))
          by (apply (Hs b (Some lines)); [left; reflexivity | exact Hp]).
        pose proof (batch_loop_idle false now scan_session_key _ db zero_counters Hset)
          as (E1 & I1 & C1).
        unfold scan_batch in E1, I1, C1.
        destruct (batch_loop false now scan_session_key true db zero_counters _) as [db1 r1].
        cbn [fst snd inserted skipped errors zero_counters] in E1, I1, C1. subst db1.
        match goal with
        | |- context [scan_files _ _ now 0 true db ?st' rest] =>
            destruct (IH db st' Hs') as (E2 & I2 & C2)
        end.
        cbn [totalInserted totalSkipped totalErrors] in I2, C2.
        rewrite length_map in C1. cbn [length] in C1 |- *.
        repeat split; [exact E2 | rewrite I2, I1; lia | rewrite C2; unfold unreadable in *; lia].
      * cbn [parseEvents] in Hp. discriminate.
    + cbn [parseEvents].
      match goal with
      | |- context [scan_files _ _ now 0 true db ?st' rest] =>
          destruct (IH db st' Hs') as (E2 & I2 & C2)
      end.
      cbn [totalInserted totalSkipped totalErrors length] in *.
      change Nat.succ with Datatypes.S in *.
      repeat split; [exact E2 | exact I2 | rewrite C2; unfold unreadable in *; lia].
Qed.

(** C1 (amended): two consecutive forced scans of the same files leave the
    store of the first scan unchanged except for the scan checkpoint, which
    becomes the second scan's time; the second scan inserts nothing, and
    every event the files yield is counted as skipped or as an error (an
    unreadable file counts one error). *)
Theorem forced_rescan_idempotent (JSON_parse : string -> option json)
    (Date_parse : string -> option Z) (S : estore) (files : list session_file)
    (now1 now2 : Z) :
  let S1 := fst (scanEvents JSON_parse Date_parse S files true now1) in
  let r2 := scanEvents JSON_parse Date_parse S1 files true now2 in
  fst r2 = set_events_checkpoint S1 now2 /\
  totalInserted (snd r2) = 0%nat /\
  (totalSkipped (snd r2) + totalErrors (snd r2) =
   events_in JSON_parse Date_parse files + unreadable files)%nat.
Proof.
  cbv zeta. unfold scanEvents. cbv iota beta zeta.
  pose proof (scan_pass_settles JSON_parse Date_parse now1 files S zero_scan_stats)
    as [_ Hs]; cbv zeta in Hs.
  destruct (scan_files JSON_parse Date_parse now1 0 true S zero_scan_stats files)
    as [db1 st1] eqn:E1.
  cbn [fst] in Hs |- *.
  assert (Hs1 : forall basename content evs,
            In (basename, content) files ->
            parseEvents JSON_parse Date_parse content 0 = Some evs ->
            Forall (settled scan_session_key (set_events_checkpoint db1 now1))
              (scan_batch basename evs)).
  { intros b c evs Hin Hp. rewrite Forall_forall. intros x Hx.
    apply (settled_extend scan_session_key db1 _ []);
      [cbn [set_events_checkpoint events]; rewrite app_nil_r; reflexivity|].
    specialize (Hs b c evs Hin Hp). rewrite Forall_forall in Hs. exact (Hs x Hx). }
  pose proof (scan_pass_idle JSON_parse Date_parse now2 files
                (set_events_checkpoint db1 now1) zero_scan_stats Hs1)
    as (E2 & I2 & C2).
  destruct (scan_files JSON_parse Date_parse now2 0 true (set_events_checkpoint db1 now1)
              zero_scan_stats files) as [db2 st2].
  cbn [fst snd totalInserted totalSkipped totalErrors zero_scan_stats] in E2, I2, C2 |- *.
  subst db2. repeat split; [exact I2 | lia].
Qed.

(** C1 counterexample: a scan without [--force] reads only the records newer
    than the checkpoint, so rescanning a file whose one event is older than
    the first scan's time parses nothing and reports no skip. *)
Lemma rescan_counterexample :
  let J := json_table session_line_table in
  let S1 := fst (scanEvents J iso_date_parse empty_estore session_files false 5000) in
  let r2 := scanEvents J iso_date_parse S1 session_files false 6000 in
  totalInserted (snd r2) = 0%nat /\ totalSkipped (snd r2) = 0%nat /\
  events_in J iso_date_parse session_files = 1%nat /\
  length (events S1) = 1%nat.
Proof. vm_compute. repeat split; reflexivity. Qed.


(* ------------------------------------------------------------------ *)
(** ** The event-log parser *)

(** C7 (code bug): the watermark test is [timestamp <= sinceTimestamp] on
    [new Date(rawEvent.timestamp).getTime()].  When that time is [NaN] (no
    timestamp, or one that does not parse) the comparison is false, so the
    record's events are emitted whatever the watermark is, although their
    timestamp is not greater than it. *)
Theorem watermark_admits_invalid_times (J : string -> option json)
    (D : string -> option Z) (since : Z) (line : string) (raw : json)
    (es : list event) :
  blank line = false -> J line = Some raw -> raw <> JNull ->
  date_ms D (get raw "timestamp") = Some None ->
  parseEvent D raw = Some es ->
  parseLineEvents J D since line = es.
Proof.
  intros Hb Hj Hn Hd Hp. unfold parseLineEvents. rewrite Hb, Hj.
  destruct raw; [contradiction| | | | |]; rewrite Hd, Hp; reflexivity.
Qed.

Lemma watermark_admits_invalid_times_witness :
  let J := json_table custom_line_table in
  exists raw es,
    J "C1" = Some raw /\ parseEvent iso_date_parse raw = Some es /\
    parseLineEvents J iso_date_parse 1770000000000 "C1" = es /\
    map timestamp es = [None] /\
    parseLineEvents J iso_date_parse 1770000000000 "C0" = [].
Proof.
  cbv zeta. do 2 eexists.
  split; [reflexivity|]. split; [vm_compute; reflexivity|].
  split; [|split; vm_compute; reflexivity].
  eapply (watermark_admits_invalid_times (json_table custom_line_table) iso_date_parse
            1770000000000 "C1").
  - vm_compute. reflexivity.
  - reflexivity.
  - discriminate.
  - vm_compute. reflexivity.
  - vm_compute. reflexivity.
Defined.


(* ------------------------------------------------------------------ *)
(** ** The messages store *)

Lemma or_null_nonempty (s : string) : s <> "" -> or_null (Some s) = Some s.
Proof. destruct s; [intros H; contradiction H; reflexivity | reflexivity]. Qed.

Lemma message_row_of_fields (md : message_data) (now : Z) (r : message_row) :
  message_row_of md now = Some r ->
  m_message_id md = Some (row_message_id r) /\
  row_content_hash r = hashMessage md /\
  row_sender_id r = or_null (m_sender_id md) /\
  row_content_text r = or_null (m_content_text md) /\
  m_timestamp md = Some (row_timestamp r).
Proof.
  unfold message_row_of.
  destruct (m_message_id md), (m_session_key md), (m_direction md),
           (m_channel md), (m_timestamp md); intros H; try discriminate.
  inversion H; subst. simpl. repeat split; reflexivity.
Qed.

Lemma insertMessage_inserted (now : Z) (S : mstore) (md : message_data)
    (b : bool) (S1 : mstore) :
  insertMessage now S md b = MInserted S1 ->
  (b && isDuplicate S md)%bool = false /\
  exists r, message_row_of md now = Some r /\ message_row_error S r = None /\
            S1 = mkMStore (messages S ++ [r])%list (edits S).
Proof.
  unfold insertMessage.
  destruct (b && isDuplicate S md)%bool; [discriminate|].
  destruct (message_row_of md now) as [r|]; [|discriminate].
  destruct (message_row_error S r) eqn:E; [discriminate|].
  intros H. inversion H; subst. split; [reflexivity|]. eauto.
Qed.

Lemma insertMessage_duplicate (now : Z) (S : mstore) (md : message_data) :
  isDuplicate S md = true -> insertMessage now S md true = MSkipped.
Proof. intros H. unfold insertMessage. rewrite H. reflexivity. Qed.

Lemma existsb_last {A} (f : A -> bool) (l : list A) (x : A) :
  f x = true -> existsb f (l ++ [x])%list = true.
Proof.
  intros H. apply existsb_exists. exists x. split; [|exact H].
  apply in_or_app. right. left. reflexivity.
Qed.

(** C2: [isDuplicate] is the three stages tried in turn (the third only
    when [sender_id] and [content_text] are truthy), and a message inserted
    first into an empty store makes a second one with the same id, the
    same fingerprint, or the same non-empty sender and non-empty content
    less than a second apart, a duplicate: the second insert is skipped
    ([null]) and the store keeps one row. *)
Theorem dedup_soundness :
  (forall S md, isDuplicate S md =
     (dup_by_id S md || dup_by_hash S md
      || (truthy_str (m_sender_id md) && truthy_str (m_content_text md)
          && dup_fuzzy S md))%bool) /\
  (forall now m1 m2 S1,
     insertMessage now empty_mstore m1 true = MInserted S1 ->
     (m_message_id m1 = m_message_id m2
      \/ hashMessage m1 = hashMessage m2
      \/ (exists s c t1 t2,
            m_sender_id m1 = Some s /\ m_sender_id m2 = Some s /\ s <> "" /\
            m_content_text m1 = Some c /\ m_content_text m2 = Some c /\ c <> "" /\
            m_timestamp m1 = Some t1 /\ m_timestamp m2 = Some t2 /\
            Z.abs (t1 - t2) < 1000)) ->
     insertMessage now S1 m2 true = MSkipped /\ length (messages S1) = 1%nat).
Proof.
  split.
  - intros S md. unfold isDuplicate.
    destruct (dup_by_id S md), (dup_by_hash S md); reflexivity.
  - intros now m1 m2 S1 Hins Hcase.
    destruct (insertMessage_inserted _ _ _ _ _ Hins) as [_ [r [Hr [_ ->]]]].
    destruct (message_row_of_fields _ _ _ Hr) as [Hid [Hh [Hs [Hc Ht]]]].
    simpl. split; [|reflexivity].
    apply insertMessage_duplicate. unfold isDuplicate.
    destruct Hcase as [Heq | [Heq | (s & c & t1 & t2 & Hs1 & Hs2 & Hsn & Hc1 & Hc2 & Hcn
                                     & Ht1 & Ht2 & Hlt)]].
    + assert (E : dup_by_id (mkMStore [r] []) m2 = true).
      { unfold dup_by_id. rewrite <- Heq, Hid. simpl.
        rewrite String.eqb_refl. reflexivity. }
      rewrite E. reflexivity.
    + assert (E : dup_by_hash (mkMStore [r] []) m2 = true).
      { unfold dup_by_hash. simpl. rewrite Hh, Heq, String.eqb_refl. reflexivity. }
      rewrite E. destruct (dup_by_id _ _); reflexivity.
    + destruct (dup_by_id _ _); [reflexivity|].
      destruct (dup_by_hash _ _); [reflexivity|].
      unfold truthy_str. rewrite Hs2, Hc2, (or_null_nonempty s Hsn),
        (or_null_nonempty c Hcn). simpl.
      unfold dup_fuzzy. rewrite Hs2, Ht2, Hc2. simpl.
      rewrite Hs, Hc, Hs1, Hc1, (or_null_nonempty s Hsn), (or_null_nonempty c Hcn).
      rewrite Ht1 in Ht. inversion Ht; subst t1. simpl.
      rewrite !String.eqb_refl.
      replace (Z.abs (row_timestamp r - t2) <? 1000) with true by (symmetry; apply Z.ltb_lt; exact Hlt).
      reflexivity.
Qed.

Lemma dedup_soundness_witness :
  (forall S md, isDuplicate S md =
     (dup_by_id S md || dup_by_hash S md
      || (truthy_str (m_sender_id md) && truthy_str (m_content_text md)
          && dup_fuzzy S md))%bool) /\
  (exists S1,
     insertMessage 0 empty_mstore (sample_message "a" (Some "u1") (Some "hi") 1000) true
       = MInserted S1 /\
     insertMessage 0 S1 (sample_message "b" (Some "u1") (Some "hi") 1500) true = MSkipped /\
     length (messages S1) = 1%nat).
Proof.
  destruct dedup_soundness as [H1 H2]. split; [exact H1|].
  eexists. split; [vm_compute; reflexivity|].
  apply H2 with (now := 0) (m1 := sample_message "a" (Some "u1") (Some "hi") 1000).
  - vm_compute. reflexivity.
  - right. right. exists "u1", "hi", 1000, 1500.
    repeat split; try reflexivity; try discriminate; vm_compute; reflexivity.
Defined.

(** C2 counterexample: two messages with the same (absent) sender and the
    same content 500 ms apart are both stored: stage 3 needs a truthy
    [sender_id], and the fingerprints differ in the timestamp. *)
Lemma dedup_counterexample :
  exists S1 S2,
    insertMessage 0 empty_mstore (sample_message "a" None (Some "hi") 1000) true = MInserted S1 /\
    insertMessage 0 S1 (sample_message "b" None (Some "hi") 1500) true = MInserted S2 /\
    length (messages S2) = 2%nat.
Proof.
  do 2 eexists. split; [vm_compute; reflexivity|].
  split; [vm_compute; reflexivity|]. reflexivity.
Qed.


(** C8: [updateMessage] on an absent id leaves the store as it was; on a
    message whose text is present it appends the edit row and rewrites
    the text and [edited_at]; but on a stored message whose [content_text]
    is NULL the [INSERT INTO edits] violates [previous_content NOT NULL]
    and the call throws, with neither the edit row nor the rewrite. *)
Theorem update_message_null_content :
  (forall S id nc ts, find_message S id = None -> updateMessage S id nc ts = Done S) /\
  (forall S id nc ts r prev,
     find_message S id = Some r -> row_content_text r = Some prev ->
     updateMessage S id nc ts =
       Done (mkMStore (map (set_content id nc ts) (messages S))
                      (edits S ++ [mkEditRow id prev ts])%list)) /\
  (forall S id nc ts r,
     find_message S id = Some r -> row_content_text r = None ->
     updateMessage S id nc ts = Raised SQLITE_CONSTRAINT_NOTNULL) /\
  (exists S1,
     insertMessage 0 empty_mstore (sample_message "m" (Some "u1") (Some "") 1000) true
       = MInserted S1 /\
     find_message S1 "m" <> None /\
     updateMessage S1 "m" (Some "edited") 2000 = Raised SQLITE_CONSTRAINT_NOTNULL).
Proof.
  split; [|split; [|split]].
  - intros S id nc ts H. unfold updateMessage. rewrite H. reflexivity.
  - intros S id nc ts r prev H Hc. unfold updateMessage. rewrite H, Hc. reflexivity.
  - intros S id nc ts r H Hc. unfold updateMessage. rewrite H, Hc. reflexivity.
  - eexists. split; [vm_compute; reflexivity|].
    split; [vm_compute; discriminate | vm_compute; reflexivity].
Qed.

Lemma insert_desc_in (r x : message_row) (l : list message_row) :
  In x (insert_desc r l) <-> x = r \/ In x l.
Proof.
  induction l as [|y ys IH]; simpl.
  - intuition congruence.
  - destruct (row_timestamp y <? row_timestamp r); simpl; [intuition congruence|].
    rewrite IH. intuition congruence.
Qed.

Lemma insert_desc_length (r : message_row) (l : list message_row) :
  length (insert_desc r l) = Datatypes.S (length l).
Proof.
  induction l as [|y ys IH]; simpl; [reflexivity|].
  destruct (row_timestamp y <? row_timestamp r); simpl; [reflexivity|].
  rewrite IH. reflexivity.
Qed.

Lemma sort_desc_gen (l acc : list message_row) :
  (forall x, In x (fold_left (fun acc r => insert_desc r acc) l acc) <->
             In x l \/ In x acc) /\
  length (fold_left (fun acc r => insert_desc r acc) l acc) = (length l + length acc)%nat.
Proof.
  revert acc. induction l as [|y ys IH]; intros acc; simpl.
  - split; [tauto | reflexivity].
  - destruct (IH (insert_desc y acc)) as [Hin Hlen]. split.
    + intros x. rewrite Hin, insert_desc_in. intuition congruence.
    + rewrite Hlen, insert_desc_length. lia.
Qed.

Lemma sort_desc_in (l : list message_row) (x : message_row) :
  In x (sort_desc l) <-> In x l.
Proof.
  unfold sort_desc. rewrite (proj1 (sort_desc_gen l [])). simpl. tauto.
Qed.

Lemma sort_desc_length (l : list message_row) : length (sort_desc l) = length l.
Proof.
  unfold sort_desc. rewrite (proj2 (sort_desc_gen l [])). simpl. lia.
Qed.

Lemma page_in (limit offset : Z) (l : list message_row) (x : message_row) :
  In x (page limit offset l) -> In x l.
Proof.
  unfold page. intros H.
  assert (Hs : In x (skipn (Z.to_nat offset) l)).
  { destruct (limit <? 0); [exact H|].
    rewrite <- (firstn_skipn (Z.to_nat limit) (skipn (Z.to_nat offset) l)).
    apply in_or_app. left. exact H. }
  rewrite <- (firstn_skipn (Z.to_nat offset) l). apply in_or_app. right. exact Hs.
Qed.

Lemma page_all (limit : Z) (l : list message_row) :
  (limit < 0 \/ Z.of_nat (length l) <= limit) -> page limit 0 l = l.
Proof.
  intros H. unfold page. simpl.
  destruct (limit <? 0) eqn:E; [reflexivity|].
  apply Z.ltb_ge in E. apply firstn_all2. lia.
Qed.

Lemma where_clauses_include (fts : string -> string -> bool) (f : query_filters) :
  q_includeDeleted f = true ->
  where_clauses fts f =
  where_clauses fts (mkQueryFilters (q_sessionKey f) (q_channel f) (q_senderId f)
                       (q_startTime f) (q_endTime f) (q_contentMatch f)
                       (q_limit f) (q_offset f) true).
Proof. destruct f; simpl; intros ->; reflexivity. Qed.

Lemma deleted_clause (fts : string -> string -> bool) (f : query_filters)
    (r : message_row) :
  q_includeDeleted f = false ->
  forallb (fun p => p r) (where_clauses fts f) = true -> row_deleted_at r = None.
Proof.
  intros Hf H. unfold where_clauses in H. rewrite Hf in H.
  rewrite !forallb_app, !andb_true_iff in H.
  destruct H as (_ & _ & _ & _ & _ & Hd & _). simpl in Hd.
  destruct (row_deleted_at r); [discriminate | reflexivity].
Qed.

(** C9: soft delete keeps every row and stamps [deleted_at] on the rows of
    that id; a query without [includeDeleted] returns no row with a
    [deleted_at]; a query with it, for any other filters, returns every row
    those filters accept, deleted or not, once the page covers the table
    ([offset] 0 and a [limit] that is negative or at least the row
    count). *)
Theorem soft_delete_visibility (fts : string -> string -> bool) :
  (forall S id ts,
     length (messages (softDeleteMessage S id ts)) = length (messages S) /\
     map row_message_id (messages (softDeleteMessage S id ts))
       = map row_message_id (messages S) /\
     forall r, In r (messages (softDeleteMessage S id ts)) ->
               row_message_id r = id -> row_deleted_at r = Some ts) /\
  (forall S f r, q_includeDeleted f = false ->
     In r (queryMessages fts S f) -> row_deleted_at r = None) /\
  (forall S f r, q_includeDeleted f = true -> q_offset f = 0 ->
     (q_limit f < 0 \/ Z.of_nat (length (messages S)) <= q_limit f) ->
     In r (messages S) -> other_filters fts f r = true ->
     In r (queryMessages fts S f)).
Proof.
  split; [|split].
  - intros S id ts. unfold softDeleteMessage. simpl.
    rewrite length_map, map_map. split; [reflexivity|]. split.
    + apply map_ext. intros r. unfold set_deleted.
      destruct (String.eqb (row_message_id r) id); reflexivity.
    + intros r' Hin Hid. apply in_map_iff in Hin. destruct Hin as [r [<- _]].
      unfold set_deleted in *. destruct (String.eqb (row_message_id r) id) eqn:E.
      * reflexivity.
      * apply String.eqb_neq in E. contradiction.
  - intros S f r Hf Hin. unfold queryMessages in Hin.
    apply page_in, sort_desc_in, filter_In in Hin.
    exact (deleted_clause fts f r Hf (proj2 Hin)).
  - intros S f r Hf Ho Hl Hin Hm. unfold queryMessages. rewrite Ho, page_all.
    + apply sort_desc_in, filter_In. split; [exact Hin|].
      rewrite (where_clauses_include fts f Hf). exact Hm.
    + rewrite sort_desc_length.
      pose proof (filter_length_le
                    (fun r => forallb (fun p => p r) (where_clauses fts f))
                    (messages S)). lia.
Qed.

Lemma soft_delete_visibility_witness :
  exists S0,
    insertMessage 0 empty_mstore (sample_message "m" (Some "u1") (Some "hello") 1000) true
      = MInserted S0 /\
    (let S := softDeleteMessage S0 "m" 3000 in
     queryMessages (fun _ _ => true) S default_filters = [] /\
     messages S <> [] /\
     forall r, In r (messages S) ->
       In r (queryMessages (fun _ _ => true) S all_filters)).
Proof.
  eexists. split; [vm_compute; reflexivity|]. cbv zeta.
  split; [vm_compute; reflexivity|]. split; [vm_compute; discriminate|].
  intros r Hr.
  apply (proj2 (proj2 (soft_delete_visibility (fun _ _ => true)))).
  - reflexivity.
  - reflexivity.
  - right. apply Z.leb_le. vm_compute. reflexivity.
  - exact Hr.
  - simpl in Hr. destruct Hr as [<- | []]. vm_compute. reflexivity.
Defined.

(* ------------------------------------------------------------------ *)
(** ** WhatsApp import *)

(** C10: the id [normalizeMessage] mints depends on the parsed time and
    the sender only; two lines with the same sender and the same parsed
    time get the same id whatever their texts, and once the first is
    stored the second is caught by the exact-id stage, so [insertBatch]
    of the pair stores the first and counts the second as skipped. *)
Theorem whatsapp_same_minute_ids (D : string -> option Z) :
  (forall now p,
     m_message_id (normalizeMessage D now p) =
       Some ("whatsapp_export_" ++ num_to_string (D (wa_date p ++ " " ++ wa_time p))
             ++ "_" ++ replace_ws (wa_sender p))) /\
  (forall now1 now2 p1 p2,
     wa_sender p1 = wa_sender p2 ->
     D (wa_date p1 ++ " " ++ wa_time p1) = D (wa_date p2 ++ " " ++ wa_time p2) ->
     m_message_id (normalizeMessage D now1 p1) = m_message_id (normalizeMessage D now2 p2) /\
     forall now S S1,
       insertMessage now S (normalizeMessage D now1 p1) true = MInserted S1 ->
       dup_by_id S1 (normalizeMessage D now2 p2) = true /\
       insertMessage now S1 (normalizeMessage D now2 p2) true = MSkipped /\
       insertBatch now S [normalizeMessage D now1 p1; normalizeMessage D now2 p2]
         = Some (S1, mkInsertStats 1 1)).
Proof.
  split; [reflexivity|].
  intros now1 now2 p1 p2 Hs Ht.
  assert (Hid : m_message_id (normalizeMessage D now1 p1)
                = m_message_id (normalizeMessage D now2 p2)).
  { unfold normalizeMessage. cbn [m_message_id]. rewrite Hs, Ht. reflexivity. }
  split; [exact Hid|].
  intros now S S1 Hins.
  destruct (insertMessage_inserted _ _ _ _ _ Hins) as [_ [r [Hr [_ HS1]]]].
  destruct (message_row_of_fields _ _ _ Hr) as [Hrid _].
  assert (Hdup : dup_by_id S1 (normalizeMessage D now2 p2) = true).
  { unfold dup_by_id. rewrite <- Hid, Hrid, HS1. simpl.
    apply existsb_last. apply String.eqb_refl. }
  assert (Hskip : insertMessage now S1 (normalizeMessage D now2 p2) true = MSkipped).
  { apply insertMessage_duplicate. unfold isDuplicate. rewrite Hdup. reflexivity. }
  split; [exact Hdup|]. split; [exact Hskip|].
  unfold insertBatch. simpl. rewrite Hins. simpl. rewrite Hskip. reflexivity.
Qed.

Lemma whatsapp_same_minute_ids_witness :
  wa_sender wa_line1 = wa_sender wa_line2 /\
  wa_dates (wa_date wa_line1 ++ " " ++ wa_time wa_line1)
    = wa_dates (wa_date wa_line2 ++ " " ++ wa_time wa_line2) /\
  wa_text wa_line1 <> wa_text wa_line2 /\
  m_message_id (normalizeMessage wa_dates 5 wa_line1)
    = Some "whatsapp_export_1704061800000_John_Doe" /\
  exists S1,
    insertMessage 7 empty_mstore (normalizeMessage wa_dates 5 wa_line1) true = MInserted S1 /\
    insertBatch 7 empty_mstore [normalizeMessage wa_dates 5 wa_line1;
                                normalizeMessage wa_dates 6 wa_line2]
      = Some (S1, mkInsertStats 1 1).
Proof.
  destruct (whatsapp_same_minute_ids wa_dates) as [Hfmt Hpair].
  split; [reflexivity|]. split; [vm_compute; reflexivity|].
  split; [vm_compute; discriminate|].
  split; [rewrite Hfmt; vm_compute; reflexivity|].
  eexists. split; [vm_compute; reflexivity|].
  refine (proj2 (proj2 (proj2 (Hpair 5 6 wa_line1 wa_line2 _ _) 7 empty_mstore _ _))).
  - reflexivity.
  - vm_compute. reflexivity.
  - vm_compute. reflexivity.
Defined.

(* ------------------------------------------------------------------ *)
(** ** Session export *)

Lemma export_lines_length (J : string -> option json) (D : string -> option Z)
    (evs : list event_row) (ls : list json) :
  export_lines J D evs = Some ls ->
  length ls = length (filter (fun r => negb (synthetic_row r)) evs).
Proof.
  revert ls. induction evs as [|r rest IH]; intros ls H; cbn [export_lines] in H.
  - injection H as <-. reflexivity.
  - cbn [filter]. destruct (synthetic_row r); cbn [negb].
    + exact (IH ls H).
    + destruct (reconstruct J D r), (export_lines J D rest) as [os|]; try discriminate.
      injection H as <-. cbn [length]. rewrite (IH os eq_refl). reflexivity.
Qed.

(** C6: the export has one line per non-synthetic event of the session,
    but [Object.assign] copies the stored body over the line's header
    fields: a user turn whose [message] carries its own [timestamp] is
    exported with that number in place of the event's ISO time. *)
Theorem export_timestamp_overwritten :
  (forall J D S sid ls, exportSessionAsJsonl J D S sid = Some ls ->
     length ls = length (filter (fun r => negb (synthetic_row r)) (getSessionEvents S sid))) /\
  (let S := fst (insertEventBatch 0 empty_estore (parsed iso_date_parse raw_user_msg)
                   "agent:main:main" sample_opts) in
   map (fun r => (ev_event_id r, ev_timestamp r)) (getSessionEvents S "sess1")
     = [(SText "m1", SNum 1770000000000)] /\
   toISOString 1770000000000 = Some "2026-02-02T02:40:00.000Z" /\
   option_map (map (fun l => (get l "id", get l "timestamp")))
              (exportSessionAsJsonl user_msg_json iso_date_parse S "sess1")
     = Some [(Some (JStr "m1"), Some (JNum 1770000000500))]).
Proof.
  split.
  - intros J D S sid ls H. exact (export_lines_length J D _ _ H).
  - cbv zeta. split; [vm_compute; reflexivity|].
    split; vm_compute; reflexivity.
Qed.

(* ------------------------------------------------------------------ *)
(** ** Further properties of the messages store *)

Lemma message_row_error_fresh (S : mstore) (r : message_row) :
  message_row_error S r = None ->
  ~ In (row_message_id r) (map row_message_id (messages S)).
Proof.
  unfold message_row_error.
  destruct (negb _); [discriminate|].
  destruct (existsb (fun r' => String.eqb (row_message_id r') (row_message_id r))
                    (messages S)) eqn:E; [discriminate|].
  intros _ Hin. apply in_map_iff in Hin. destruct Hin as [r' [Heq Hin]].
  assert (T : existsb (fun r' => String.eqb (row_message_id r') (row_message_id r))
                      (messages S) = true).
  { apply existsb_exists. exists r'. split; [exact Hin|].
    rewrite Heq. apply String.eqb_refl. }
  congruence.
Qed.

Lemma NoDup_app_single {A} (l : list A) (x : A) :
  NoDup l -> ~ In x l -> NoDup (l ++ [x])%list.
Proof.
  intros Hl Hx. apply NoDup_app; [exact Hl | constructor; [intros [] | constructor] |].
  intros y Hy [<- | []]. contradiction.
Qed.

Lemma insertMessage_unique (now : Z) (S S1 : mstore) (md : message_data) (b : bool) :
  ids_unique S -> insertMessage now S md b = MInserted S1 -> ids_unique S1.
Proof.
  intros HU Hins.
  destruct (insertMessage_inserted _ _ _ _ _ Hins) as [_ [r [_ [Herr ->]]]].
  unfold ids_unique in *. simpl. rewrite map_app. simpl.
  apply NoDup_app_single; [exact HU|]. exact (message_row_error_fresh _ _ Herr).
Qed.

Lemma insert_all_spec (now : Z) (msgs : list message_data) :
  forall S st S' st',
    insert_all now S st msgs = Some (S', st') ->
    (ins_inserted st' + ins_skipped st' = ins_inserted st + ins_skipped st + length msgs)%nat /\
    length (messages S') = (length (messages S) + (ins_inserted st' - ins_inserted st))%nat /\
    (ins_inserted st <= ins_inserted st')%nat /\
    edits S' = edits S /\
    (ids_unique S -> ids_unique S').
Proof.
  induction msgs as [|md rest IH]; intros S st S' st' H; simpl in H.
  - inversion H; subst. repeat split; try lia; auto.
  - destruct (insertMessage now S md true) as [S1| |err] eqn:E; try discriminate.
    + destruct (IH _ _ _ _ H) as [H1 [H2 [H3 [H4 H5]]]].
      destruct (insertMessage_inserted _ _ _ _ _ E) as [_ [r [_ [_ HS1]]]].
      cbn [ins_inserted ins_skipped length] in *.
      change Nat.succ with Datatypes.S in *.
      rewrite HS1 in H2, H4. cbn [messages edits] in H2, H4.
      rewrite length_app in H2. cbn [length] in H2.
      repeat split; try lia; auto.
      intros HU. apply H5. exact (insertMessage_unique _ _ _ _ _ HU E).
    + destruct (IH _ _ _ _ H) as [H1 [H2 [H3 [H4 H5]]]].
      cbn [ins_inserted ins_skipped length] in *.
      change Nat.succ with Datatypes.S in *.
      repeat split; try lia; auto.
Qed.

Lemma set_content_id (id : string) (c : option string) (ts : Z) (r : message_row) :
  row_message_id (set_content id c ts r) = row_message_id r.
Proof. unfold set_content. destruct (String.eqb _ _); reflexivity. Qed.

Lemma set_deleted_id (id : string) (ts : Z) (r : message_row) :
  row_message_id (set_deleted id ts r) = row_message_id r.
Proof. unfold set_deleted. destruct (String.eqb _ _); reflexivity. Qed.

(** [message_id] stays unique: from a store whose message ids are
    distinct, [insertMessage] (with or without [skipIfExists]),
    [insertBatch], [updateMessage] and [softDeleteMessage] all leave the
    ids distinct. *)
Theorem message_ids_stay_unique (now : Z) (S : mstore) :
  ids_unique S ->
  (forall md b S1, insertMessage now S md b = MInserted S1 -> ids_unique S1) /\
  (forall msgs S1 st, insertBatch now S msgs = Some (S1, st) -> ids_unique S1) /\
  (forall id c ts S1, updateMessage S id c ts = Done S1 -> ids_unique S1) /\
  (forall id ts, ids_unique (softDeleteMessage S id ts)).
Proof.
  intros HU. split; [|split; [|split]].
  - intros md b S1 H. exact (insertMessage_unique _ _ _ _ _ HU H).
  - intros msgs S1 st H. exact (proj2 (proj2 (proj2 (proj2 (insert_all_spec _ _ _ _ _ _ H)))) HU).
  - intros id c ts S1 H. unfold updateMessage in H.
    destruct (find_message S id) as [r|]; [|inversion H; subst; exact HU].
    destruct (row_content_text r); inversion H; subst.
    unfold ids_unique. simpl. rewrite map_map.
    rewrite (map_ext _ row_message_id (set_content_id id c ts)). exact HU.
  - intros id ts. unfold ids_unique, softDeleteMessage. simpl. rewrite map_map.
    rewrite (map_ext _ row_message_id (set_deleted_id id ts)). exact HU.
Qed.

Lemma message_ids_stay_unique_witness :
  ids_unique empty_mstore /\
  match insertBatch 0 empty_mstore sample_batch with
  | Some (S1, _) => ids_unique S1
  | None => False
  end.
Proof.
  split; [constructor|].
  case_eq (insertBatch 0 empty_mstore sample_batch);
    [intros [S1 st] H | intros H; vm_compute in H; discriminate].
  exact (proj1 (proj2 (message_ids_stay_unique 0 empty_mstore (NoDup_nil _))) _ _ _ H).
Defined.

(** A committed [insertBatch] counts every message once, as inserted or
    as skipped, adds exactly the inserted ones as rows and leaves the edit
    history alone. *)
Theorem insertBatch_accounting (now : Z) (S S1 : mstore) (msgs : list message_data)
    (st : insert_stats) :
  insertBatch now S msgs = Some (S1, st) ->
  (ins_inserted st + ins_skipped st = length msgs)%nat /\
  length (messages S1) = (length (messages S) + ins_inserted st)%nat /\
  edits S1 = edits S.
Proof.
  unfold insertBatch. intros H.
  destruct (insert_all_spec _ _ _ _ _ _ H) as [H1 [H2 [_ [H4 _]]]].
  cbn [ins_inserted ins_skipped] in *. repeat split; try lia; auto.
Qed.

Lemma insertBatch_accounting_witness :
  match insertBatch 0 empty_mstore sample_batch with
  | Some (S1, st) => st = mkInsertStats 2 1 /\ length (messages S1) = 2%nat
  | None => False
  end.
Proof.
  case_eq (insertBatch 0 empty_mstore sample_batch);
    [intros [S1 st] H | intros H; vm_compute in H; discriminate].
  pose proof H as Hc. vm_compute in Hc. inversion Hc; subst.
  split; [reflexivity|].
  exact (proj1 (proj2 (insertBatch_accounting _ _ _ _ _ H))).
Defined.

Lemma insert_desc_sorted (r : message_row) (l : list message_row) :
  timestamp_desc l -> timestamp_desc (insert_desc r l).
Proof.
  unfold timestamp_desc. intros H. induction H as [|y ys Hs IH Hhd]; simpl.
  - repeat constructor.
  - destruct (row_timestamp y <? row_timestamp r) eqn:E.
    + apply Z.ltb_lt in E. constructor; [constructor; assumption|].
      constructor. lia.
    + apply Z.ltb_ge in E. constructor; [exact IH|].
      destruct ys as [|z zs]; simpl; [constructor; lia|].
      inversion Hhd; subst.
      destruct (row_timestamp z <? row_timestamp r); constructor; lia.
Qed.

Lemma sort_desc_sorted (l : list message_row) : timestamp_desc (sort_desc l).
Proof.
  unfold sort_desc.
  assert (G : forall acc, timestamp_desc acc ->
            timestamp_desc (fold_left (fun acc r => insert_desc r acc) l acc)).
  { induction l as [|x xs IH]; intros acc Hacc; simpl; [exact Hacc|].
    apply IH. apply insert_desc_sorted. exact Hacc. }
  apply G. constructor.
Qed.

Lemma Sorted_skipn {A} (R : A -> A -> Prop) (n : nat) (l : list A) :
  Sorted R l -> Sorted R (skipn n l).
Proof.
  revert l. induction n as [|n IH]; intros l H; [exact H|].
  destruct l as [|x xs]; [constructor|]. simpl. apply IH.
  inversion H; assumption.
Qed.

Lemma Sorted_firstn {A} (R : A -> A -> Prop) (n : nat) (l : list A) :
  Sorted R l -> Sorted R (firstn n l).
Proof.
  revert l. induction n as [|n IH]; intros l H; [constructor|].
  destruct l as [|x xs]; [constructor|]. simpl.
  inversion H as [|? ? Hs Hhd]; subst. constructor; [apply IH; exact Hs|].
  destruct n; [constructor|]. destruct xs as [|y ys]; [constructor|].
  simpl. inversion Hhd; subst. constructor. assumption.
Qed.

Lemma find_map_id (g : message_row -> message_row) (id : string)
    (l : list message_row) :
  (forall x, row_message_id (g x) = row_message_id x) ->
  find (fun r => String.eqb (row_message_id r) id) (map g l)
  = option_map g (find (fun r => String.eqb (row_message_id r) id) l).
Proof.
  intros Hg. induction l as [|x xs IH]; simpl; [reflexivity|].
  rewrite Hg. destruct (String.eqb (row_message_id x) id); [reflexivity | exact IH].
Qed.

(** [updateMessage] then [softDeleteMessage] on a stored message with
    text: the row carries the new text, [edited_at] and
    [deleted_at], keeps its other columns, and the edit history gains one
    row with the previous text. *)
Theorem edit_then_delete (S : mstore) (id : string) (r : message_row) (prev : string)
    (nc : option string) (t1 t2 : Z) :
  find_message S id = Some r -> row_content_text r = Some prev ->
  exists S1,
    updateMessage S id nc t1 = Done S1 /\
    edits (softDeleteMessage S1 id t2) = (edits S ++ [mkEditRow id prev t1])%list /\
    find_message (softDeleteMessage S1 id t2) id =
      Some {| row_message_id := id; row_session_key := row_session_key r;
              row_direction := row_direction r; row_sender_id := row_sender_id r;
              row_channel := row_channel r; row_content_type := row_content_type r;
              row_content_text := nc; row_content_hash := row_content_hash r;
              row_reply_to_id := row_reply_to_id r; row_timestamp := row_timestamp r;
              row_edited_at := Some t1; row_deleted_at := Some t2;
              row_created_at := row_created_at r |}.
Proof.
  intros Hf Hc. eexists. split.
  - unfold updateMessage. rewrite Hf, Hc. reflexivity.
  - split; [reflexivity|].
    assert (Hid : row_message_id r = id).
    { unfold find_message in Hf. apply find_some in Hf.
      apply String.eqb_eq. exact (proj2 Hf). }
    unfold find_message, softDeleteMessage. cbn [messages].
    rewrite map_map, find_map_id.
    + unfold find_message in Hf. rewrite Hf. cbn [option_map].
      unfold set_content. rewrite Hid, String.eqb_refl.
      unfold set_deleted. cbn [row_message_id]. rewrite String.eqb_refl.
      reflexivity.
    + intros x. rewrite set_deleted_id, set_content_id. reflexivity.
Qed.

Lemma edit_then_delete_witness :
  exists S0,
    insertMessage 0 empty_mstore (sample_message "m" (Some "u1") (Some "hello") 1000) true
      = MInserted S0 /\
    exists S1,
      updateMessage S0 "m" (Some "hi") 2000 = Done S1 /\
      edits (softDeleteMessage S1 "m" 3000) = [mkEditRow "m" "hello" 2000] /\
      option_map (fun r => (row_content_text r, row_edited_at r, row_deleted_at r))
        (find_message (softDeleteMessage S1 "m" 3000) "m")
        = Some (Some "hi", Some 2000, Some 3000).
Proof.
  eexists. split; [vm_compute; reflexivity|].
  destruct (edit_then_delete
              (mkMStore [mkMessageRow "m" "agent:main:main" "inbound" (Some "u1")
                           "telegram" "text" (Some "hello")
                           (hashMessage (sample_message "m" (Some "u1") (Some "hello") 1000))
                           None 1000 None None 0] [])
              "m"
              (mkMessageRow "m" "agent:main:main" "inbound" (Some "u1")
                 "telegram" "text" (Some "hello")
                 (hashMessage (sample_message "m" (Some "u1") (Some "hello") 1000))
                 None 1000 None None 0)
              "hello" (Some "hi") 2000 3000) as [S1 [H1 [H2 H3]]].
  - vm_compute. reflexivity.
  - reflexivity.
  - exists S1. split; [exact H1|]. split; [exact H2|]. rewrite H3. reflexivity.
Defined.

(* ------------------------------------------------------------------ *)
(** ** Checkpoints *)

Lemma upsert_state_find (key value : string) (now : Z) (T : list state_row) (k : string) :
  find (fun r => String.eqb (state_key r) k) (upsert_state key value now T) =
  if String.eqb key k then Some (mkStateRow key value now)
  else find (fun r => String.eqb (state_key r) k) T.
Proof.
  induction T as [|r rest IH]; simpl.
  - destruct (String.eqb key k); reflexivity.
  - destruct (String.eqb (state_key r) key) eqn:E; simpl.
    + apply String.eqb_eq in E. subst key.
      destruct (String.eqb (state_key r) k); reflexivity.
    + rewrite IH. destruct (String.eqb (state_key r) k) eqn:E2; [|reflexivity].
      apply String.eqb_eq in E2. subst k. rewrite String.eqb_sym, E. reflexivity.
Qed.

Lemma upsert_state_keys (key value : string) (now : Z) (T : list state_row) :
  NoDup (map state_key T) -> NoDup (map state_key (upsert_state key value now T)).
Proof.
  intros H. induction T as [|r rest IH]; simpl.
  - repeat constructor. intros [].
  - inversion H as [|? ? Hn Hd]; subst.
    destruct (String.eqb (state_key r) key) eqn:E; simpl.
    + apply String.eqb_eq in E. subst key. constructor; assumption.
    + constructor; [|exact (IH Hd)].
      assert (G : forall l, ~ In (state_key r) (map state_key l) ->
                  ~ In (state_key r) (map state_key (upsert_state key value now l))).
      { induction l as [|x xs IHl]; simpl; intros Hx.
        - intros [Heq | []]. rewrite Heq, String.eqb_refl in E. discriminate.
        - destruct (String.eqb (state_key x) key); simpl.
          + intros [Heq | Hin].
            * rewrite Heq, String.eqb_refl in E. discriminate.
            * apply Hx. right. exact Hin.
          + intros [Heq | Hin]; [apply Hx; left; exact Heq|].
            apply (IHl (fun h => Hx (or_intror h))). exact Hin. }
      exact (G rest Hn).
Qed.

(** [checkpoint] is a key-value store: setting a key returns the value,
    reading the key afterwards gives it back, other keys read as before,
    and [archive_state] keeps one row per key. *)
Theorem checkpoint_set_get (now : Z) (T : list state_row) (key k v : string) :
  let T' := fst (checkpoint now T key (Some v)) in
  snd (checkpoint now T key (Some v)) = Some v /\
  snd (checkpoint now T' key None) = Some v /\
  (k <> key -> snd (checkpoint now T' k None) = snd (checkpoint now T k None)) /\
  (NoDup (map state_key T) -> NoDup (map state_key T')).
Proof.
  cbv zeta. simpl. split; [reflexivity|]. split; [|split].
  - rewrite upsert_state_find, String.eqb_refl. reflexivity.
  - intros Hk. rewrite upsert_state_find.
    destruct (String.eqb key k) eqn:E; [|reflexivity].
    apply String.eqb_eq in E. congruence.
  - apply upsert_state_keys.
Qed.

Fixpoint ufold (u : Decimal.uint) (a : Z) : Z :=
  match u with
  | Decimal.Nil => a
  | Decimal.D0 u => ufold u (a * 10)
  | Decimal.D1 u => ufold u (a * 10 + 1)
  | Decimal.D2 u => ufold u (a * 10 + 2)
  | Decimal.D3 u => ufold u (a * 10 + 3)
  | Decimal.D4 u => ufold u (a * 10 + 4)
  | Decimal.D5 u => ufold u (a * 10 + 5)
  | Decimal.D6 u => ufold u (a * 10 + 6)
  | Decimal.D7 u => ufold u (a * 10 + 7)
  | Decimal.D8 u => ufold u (a * 10 + 8)
  | Decimal.D9 u => ufold u (a * 10 + 9)
  end.

Lemma parse_digits_uint (u : Decimal.uint) (a : Z) :
  parse_digits 10 (uint_to_string u) (Some a) = Some (ufold u a).
Proof.
  revert a. induction u; intros a; simpl; try rewrite IHu; try reflexivity;
    f_equal; f_equal; lia.
Qed.

Lemma ufold_acc (u : Decimal.uint) (p : positive) :
  Z.pos (Pos.of_uint_acc u p) = ufold u (Z.pos p).
Proof.
  revert p. induction u; intros p; cbn [Pos.of_uint_acc ufold]; try reflexivity;
    rewrite IHu; f_equal;
    rewrite ?Pos2Z.inj_add, ?Pos2Z.inj_mul; lia.
Qed.

Lemma of_uint_ufold (u : Decimal.uint) : Z.of_uint u = ufold u 0.
Proof.
  unfold Z.of_uint. induction u; simpl; try exact IHu; try reflexivity;
    rewrite ufold_acc; reflexivity.
Qed.

Lemma parse_digits_uint_start (u : Decimal.uint) :
  u <> Decimal.Nil ->
  parse_digits 10 (uint_to_string u) None = Some (Z.of_uint u).
Proof.
  intros Hu. rewrite of_uint_ufold.
  destruct u; [contradiction Hu; reflexivity| ..]; simpl;
    rewrite parse_digits_uint; reflexivity.
Qed.

Lemma to_uint_not_nil (p : positive) : Pos.to_uint p <> Decimal.Nil.
Proof.
  intros H. pose proof (DecimalPos.Unsigned.of_to p) as E.
  rewrite H in E. discriminate.
Qed.

(** An ASCII character other than white space starts no white space. *)
Lemma ws_rest_ascii (a : ascii) (r : string) :
  Nat.ltb (nat_of_ascii a) 128 = true ->
  (Nat.eqb (nat_of_ascii a) 32
   || (Nat.leb 9 (nat_of_ascii a) && Nat.leb (nat_of_ascii a) 13))%bool = false ->
  ws_rest (String a r) = None.
Proof.
  intros H1 H2. apply Nat.ltb_lt in H1. unfold ws_rest. cbv zeta. rewrite H2.
  destruct r as [|b [|c r3]]; [reflexivity| |];
  repeat match goal with
  | |- context [Nat.eqb (nat_of_ascii a) ?k] =>
      replace (Nat.eqb (nat_of_ascii a) k) with false
        by (symmetry; apply Nat.eqb_neq; lia)
  end; reflexivity.
Qed.

Lemma drop_ws_ascii (n : nat) (a : ascii) (r : string) :
  Nat.ltb (nat_of_ascii a) 128 = true ->
  (Nat.eqb (nat_of_ascii a) 32
   || (Nat.leb 9 (nat_of_ascii a) && Nat.leb (nat_of_ascii a) 13))%bool = false ->
  drop_ws (Datatypes.S n) (String a r) = String a r.
Proof. intros H1 H2. cbn [drop_ws]. rewrite (ws_rest_ascii a r H1 H2). reflexivity. Qed.

Lemma parseInt_uint (u : Decimal.uint) :
  u <> Decimal.Nil -> parseInt (uint_to_string u) = Some (Z.of_uint u).
Proof.
  intros Hu.
  transitivity (option_map (Z.mul 1) (parse_digits 10 (uint_to_string u) None)).
  - destruct u; [contradiction Hu; reflexivity|..];
      unfold parseInt; cbn [uint_to_string String.length];
      rewrite drop_ws_ascii by reflexivity; try reflexivity;
      destruct u; reflexivity.
  - rewrite (parse_digits_uint_start u Hu). cbn [option_map]. f_equal; ring.
Qed.

Lemma parseInt_neg_uint (u : Decimal.uint) :
  u <> Decimal.Nil -> parseInt (String "-" (uint_to_string u)) = Some (- Z.of_uint u).
Proof.
  intros Hu.
  transitivity (option_map (Z.mul (-1)) (parse_digits 10 (uint_to_string u) None)).
  - unfold parseInt. cbn [String.length]. rewrite drop_ws_ascii by reflexivity.
    destruct u; [contradiction Hu; reflexivity|..]; try reflexivity;
      destruct u; reflexivity.
  - rewrite (parse_digits_uint_start u Hu). cbn [option_map]. f_equal; ring.
Qed.

Lemma of_uint_to_uint (p : positive) : Z.of_uint (Pos.to_uint p) = Z.pos p.
Proof.
  unfold Z.of_uint. rewrite DecimalPos.Unsigned.of_to. reflexivity.
Qed.

(** [parseInt] reads back [n.toString()]. *)
Lemma parseInt_Z_to_dec (n : Z) : parseInt (Z_to_dec n) = Some n.
Proof.
  destruct n as [|p|p].
  - reflexivity.
  - change (Z_to_dec (Z.pos p)) with (uint_to_string (Pos.to_uint p)).
    rewrite parseInt_uint by apply to_uint_not_nil.
    rewrite of_uint_to_uint. reflexivity.
  - change (Z_to_dec (Z.neg p)) with (String "-" (uint_to_string (Pos.to_uint p))).
    rewrite parseInt_neg_uint by apply to_uint_not_nil.
    rewrite of_uint_to_uint. reflexivity.
Qed.

Lemma Z_to_dec_nonempty (n : Z) : Z_to_dec n <> EmptyString.
Proof.
  destruct n as [|p|p]; [discriminate| |discriminate].
  change (Z_to_dec (Z.pos p)) with (uint_to_string (Pos.to_uint p)).
  pose proof (to_uint_not_nil p) as Hn.
  destruct (Pos.to_uint p); [contradiction Hn; reflexivity|..]; discriminate.
Qed.

(** The scan watermark: after [checkpoint(KEY, now.toString())] the
    next scan reads [now] back; before any scan it reads [0]. *)
Theorem watermark_round_trip (T : list state_row) (key : string) (t now : Z) :
  read_watermark (fst (checkpoint t T key (Some (Z_to_dec now)))) key = Some now /\
  (find (fun r => String.eqb (state_key r) key) T = None -> read_watermark T key = Some 0).
Proof.
  split.
  - unfold read_watermark. simpl snd. simpl fst.
    rewrite upsert_state_find, String.eqb_refl. simpl.
    pose proof (Z_to_dec_nonempty now) as Hne.
    destruct (Z_to_dec now) eqn:E; [contradiction Hne; reflexivity|].
    rewrite <- E. apply parseInt_Z_to_dec.
  - intros H. unfold read_watermark. simpl. rewrite H. reflexivity.
Qed.

Lemma checkpoint_set_get_witness :
  NoDup (map state_key [mkStateRow "a" "1" 5]) /\
  snd (checkpoint 7 (fst (checkpoint 7 [mkStateRow "a" "1" 5] "b" (Some "2"))) "a" None)
    = Some "1" /\
  NoDup (map state_key (fst (checkpoint 7 [mkStateRow "a" "1" 5] "b" (Some "2")))).
Proof.
  pose proof (checkpoint_set_get 7 [mkStateRow "a" "1" 5] "b" "a" "2") as H.
  cbv zeta in H. destruct H as [_ [_ [H1 H2]]].
  assert (N : NoDup (map state_key [mkStateRow "a" "1" 5])).
  { repeat constructor. simpl. tauto. }
  split; [exact N|split].
  - rewrite (H1 ltac:(discriminate)). reflexivity.
  - exact (H2 N).
Defined.

Lemma watermark_round_trip_witness :
  find (fun r => String.eqb (state_key r) EVENTS_CHECKPOINT_KEY) [] = None /\
  read_watermark [] EVENTS_CHECKPOINT_KEY = Some 0.
Proof.
  split; [reflexivity|].
  exact (proj2 (watermark_round_trip [] EVENTS_CHECKPOINT_KEY 0 0) eq_refl).
Defined.

(* ------------------------------------------------------------------ *)
(** ** Reactions *)

Lemma rx_is_key (m e u : string) (r : reaction_row) :
  rx_is m e u r = true <-> rx_key r = (m, e, u).
Proof.
  unfold rx_is, rx_key. rewrite !andb_true_iff, !String.eqb_eq.
  split; [intros [[-> ->] ->]; reflexivity|intros H; inversion H; auto].
Qed.

Lemma rx_is_same_key (m e u : string) (r1 r2 : reaction_row) :
  rx_key r1 = rx_key r2 -> rx_is m e u r1 = rx_is m e u r2.
Proof.
  unfold rx_key, rx_is. intros H. inversion H as [[H1 H2 H3]].
  rewrite H1, H2, H3. reflexivity.
Qed.

Lemma reactivate_key (m e u : string) (now : Z) (r : reaction_row) :
  rx_key (reactivate m e u now r) = rx_key r.
Proof. unfold reactivate. destruct (rx_is m e u r); reflexivity. Qed.

Lemma mark_removed_key (m e u : string) (now : Z) (r : reaction_row) :
  rx_key (mark_removed m e u now r) = rx_key r.
Proof. unfold mark_removed. destruct (_ && _)%bool; reflexivity. Qed.

Lemma reactivate_fields (m e u : string) (ts : Z) (o : reaction_row) :
  rx_is m e u o = true ->
  rx_removed_at (reactivate m e u ts o) = None /\
  rx_added_at (reactivate m e u ts o) = ts /\
  rx_user_name (reactivate m e u ts o) = rx_user_name o /\
  rx_id (reactivate m e u ts o) = rx_id o.
Proof. intros Ho. unfold reactivate. rewrite Ho. repeat split. Qed.

Lemma find_map_key (f : reaction_row -> reaction_row) (m e u : string)
    (l : list reaction_row) :
  (forall r, rx_key (f r) = rx_key r) ->
  find (rx_is m e u) (map f l) = option_map f (find (rx_is m e u) l).
Proof.
  intros Hf. induction l as [|r rest IH]; simpl; [reflexivity|].
  rewrite (rx_is_same_key m e u _ _ (Hf r)).
  destruct (rx_is m e u r); [reflexivity|exact IH].
Qed.

Lemma map_key (f : reaction_row -> reaction_row) (l : list reaction_row) :
  (forall r, rx_key (f r) = rx_key r) -> map rx_key (map f l) = map rx_key l.
Proof.
  intros Hf. rewrite map_map. apply map_ext. exact Hf.
Qed.

Lemma existsb_rx_false (m e u : string) (l : list reaction_row) :
  existsb (rx_is m e u) l = false -> ~ In (m, e, u) (map rx_key l).
Proof.
  intros H Hin. apply in_map_iff in Hin as [r [Hk Hr]].
  apply (proj2 (rx_is_key m e u r)) in Hk.
  assert (existsb (rx_is m e u) l = true) by (apply existsb_exists; eauto).
  congruence.
Qed.

Lemma existsb_find_rx (m e u : string) (l : list reaction_row) :
  existsb (rx_is m e u) l = match find (rx_is m e u) l with Some _ => true | None => false end.
Proof.
  induction l as [|r rest IH]; simpl; [reflexivity|].
  destruct (rx_is m e u r); [reflexivity|exact IH].
Qed.

Lemma find_rx_app_new (m e u : string) (l : list reaction_row) (r : reaction_row) :
  existsb (rx_is m e u) l = false -> rx_is m e u r = true ->
  find (rx_is m e u) (l ++ [r])%list = Some r.
Proof.
  intros H Hr. induction l as [|x rest IH]; simpl in *; [rewrite Hr; reflexivity|].
  apply orb_false_iff in H as [H1 H2]. rewrite H1. exact (IH H2).
Qed.

Lemma map_id_unmatched (f : reaction_row -> reaction_row) (m e u : string)
    (l : list reaction_row) :
  (forall r, rx_is m e u r = false -> f r = r) ->
  ~ In (m, e, u) (map rx_key l) -> map f l = l.
Proof.
  intros Hf Hn. induction l as [|r rest IH]; simpl; [reflexivity|].
  simpl in Hn. f_equal.
  - apply Hf. destruct (rx_is m e u r) eqn:E; [|reflexivity].
    apply rx_is_key in E. exfalso. apply Hn. left. exact E.
  - apply IH. intros Hi. apply Hn. right. exact Hi.
Qed.

Definition active_count (l : list reaction_row) : nat :=
  length (filter (fun r => is_none (rx_removed_at r)) l).

Lemma active_count_cons (r : reaction_row) (l : list reaction_row) :
  active_count (r :: l) = ((if is_none (rx_removed_at r) then 1 else 0) + active_count l)%nat.
Proof. unfold active_count. simpl. destruct (is_none (rx_removed_at r)); reflexivity. Qed.

Lemma active_count_app (l1 l2 : list reaction_row) :
  active_count (l1 ++ l2)%list = (active_count l1 + active_count l2)%nat.
Proof. unfold active_count. rewrite filter_app, length_app. reflexivity. Qed.

Lemma reactivate_count (m e u : string) (now : Z) (l : list reaction_row) :
  NoDup (map rx_key l) ->
  active_count (map (reactivate m e u now) l) =
  (active_count l +
   match find (rx_is m e u) l with
   | Some o => if is_none (rx_removed_at o) then 0 else 1
   | None => 0
   end)%nat.
Proof.
  intros Hd. induction l as [|r rest IH]; simpl; [reflexivity|].
  inversion Hd as [|? ? Hn Hd']; subst.
  rewrite !active_count_cons.
  destruct (rx_is m e u r) eqn:E.
  - assert (Hk := proj1 (rx_is_key m e u r) E). rewrite Hk in Hn.
    rewrite (map_id_unmatched _ m e u rest) by
      (try assumption; intros x Hx; unfold reactivate; rewrite Hx; reflexivity).
    unfold reactivate at 1. rewrite E. simpl.
    destruct (is_none (rx_removed_at r)) eqn:En; simpl; rewrite ?En;
      change Nat.succ with Datatypes.S in *; lia.
  - unfold reactivate at 1. rewrite E. rewrite (IH Hd'). lia.
Qed.

Lemma mark_removed_count (m e u : string) (now : Z) (l : list reaction_row) :
  NoDup (map rx_key l) ->
  (active_count (map (mark_removed m e u now) l) +
   match find (rx_is m e u) l with
   | Some o => if is_none (rx_removed_at o) then 1 else 0
   | None => 0
   end)%nat = active_count l.
Proof.
  intros Hd. induction l as [|r rest IH]; simpl; [reflexivity|].
  inversion Hd as [|? ? Hn Hd']; subst.
  rewrite !active_count_cons.
  destruct (rx_is m e u r) eqn:E.
  - assert (Hk := proj1 (rx_is_key m e u r) E). rewrite Hk in Hn.
    rewrite (map_id_unmatched _ m e u rest) by
      (try assumption; intros x Hx; unfold mark_removed; rewrite Hx; reflexivity).
    unfold mark_removed at 1. rewrite E. simpl.
    destruct (is_none (rx_removed_at r)) eqn:En; simpl; rewrite ?En;
      change Nat.succ with Datatypes.S in *; lia.
  - unfold mark_removed at 1. rewrite E. simpl. rewrite <- (IH Hd'). lia.
Qed.

(** Every reaction refers to an archived message. *)
Definition reactions_fk (S : mstore) (R : rstore) : Prop :=
  forall r, In r (reactions R) -> find_message S (rx_message_id r) <> None.

(** The reactions table keeps its constraints: one row per (message,
    emoji, user), each pointing at an archived message, through
    [addReaction] and [removeReaction]. *)
Theorem reaction_table_invariants (S : mstore) (R : rstore) (m e u : string)
    (un : option string) (now : Z) :
  NoDup (map rx_key (reactions R)) -> reactions_fk S R ->
  (forall R', addReaction S R m e u un now = inr R' ->
              NoDup (map rx_key (reactions R')) /\ reactions_fk S R') /\
  NoDup (map rx_key (reactions (removeReaction R m e u now))) /\
  reactions_fk S (removeReaction R m e u now).
Proof.
  intros Hd Hfk. split; [|split].
  - intros R' Hadd. unfold addReaction in Hadd.
    destruct (existsb (rx_is m e u) (reactions R)) eqn:Ex.
    + inversion Hadd; subst; clear Hadd. simpl. split.
      * rewrite map_key by apply reactivate_key. exact Hd.
      * intros r Hr. simpl in Hr. apply in_map_iff in Hr as [x [<- Hx]].
        unfold reactivate. destruct (rx_is m e u x); apply (Hfk x Hx).
    + destruct (find_message S m) eqn:Fm; [|discriminate].
      inversion Hadd; subst; clear Hadd. simpl. split.
      * rewrite map_app. simpl. apply NoDup_app_single; [exact Hd|].
        apply existsb_rx_false. exact Ex.
      * intros r Hr. simpl in Hr. apply in_app_or in Hr as [Hr | [<- | []]].
        -- exact (Hfk r Hr).
        -- simpl. rewrite Fm. discriminate.
  - simpl. rewrite map_key by apply mark_removed_key. exact Hd.
  - intros r Hr. simpl in Hr. apply in_map_iff in Hr as [x [<- Hx]].
    unfold mark_removed. destruct (_ && _)%bool; apply (Hfk x Hx).
Qed.

(** [addReaction] leaves one active row for the triple, added at [now];
    a re-added reaction keeps its row id and the first user name; the
    active count grows by one unless the reaction was already active.
    It fails only for a new reaction on a message not archived. *)
Theorem add_reaction_result (S : mstore) (R : rstore) (m e u : string)
    (un : option string) (ts : Z) :
  NoDup (map rx_key (reactions R)) ->
  match addReaction S R m e u un ts with
  | inl err =>
      err = SQLITE_CONSTRAINT_FOREIGNKEY /\ find_reaction R m e u = None /\
      find_message S m = None
  | inr R' =>
      exists r, find_reaction R' m e u = Some r /\
        rx_removed_at r = None /\ rx_added_at r = ts /\
        rx_user_name r = match find_reaction R m e u with
                         | Some o => rx_user_name o | None => un end /\
        rx_id r = match find_reaction R m e u with
                  | Some o => rx_id o | None => rx_seq R + 1 end /\
        active_reactions R' =
          (active_reactions R +
           match find_reaction R m e u with
           | Some o => if is_none (rx_removed_at o) then 0 else 1
           | None => 1
           end)%nat
  end.
Proof.
  intros Hd. unfold addReaction, find_reaction, active_reactions.
  rewrite existsb_find_rx.
  destruct (find (rx_is m e u) (reactions R)) as [o|] eqn:F.
  - cbv iota beta. cbn [reactions].
    rewrite find_map_key by apply reactivate_key. rewrite F. cbn [option_map].
    assert (Ho : rx_is m e u o = true) by (apply find_some in F; apply F).
    pose proof (reactivate_count m e u ts (reactions R) Hd) as C.
    unfold active_count in C. rewrite F in C.
    pose proof (reactivate_fields m e u ts o Ho) as Hr.
    destruct Hr as (H1 & H2 & H3 & H4).
    exists (reactivate m e u ts o). repeat split; assumption.
  - assert (Ex : existsb (rx_is m e u) (reactions R) = false)
      by (rewrite existsb_find_rx, F; reflexivity).
    destruct (find_message S m) eqn:Fm; [|auto].
    simpl. eexists. rewrite find_rx_app_new; [|exact Ex|].
    + split; [reflexivity|]. do 4 (split; [reflexivity|]).
      pose proof (active_count_app (reactions R)
                    [mkReactionRow (rx_seq R + 1) m e u un ts None]) as C.
      unfold active_count in C. rewrite C. simpl. lia.
    + unfold rx_is. simpl. rewrite !String.eqb_refl. reflexivity.
Qed.

(** [removeReaction] closes the active row of the triple and no other
    row: a row already removed keeps its first removal time, the other
    triples read as before, and the active count drops by one exactly
    when the reaction was active. *)
Theorem remove_reaction_result (R : rstore) (m e u : string) (now : Z) :
  NoDup (map rx_key (reactions R)) ->
  let R' := removeReaction R m e u now in
  (forall o, find_reaction R m e u = Some o ->
     exists r, find_reaction R' m e u = Some r /\
       rx_removed_at r = Some (match rx_removed_at o with Some t => t | None => now end) /\
       rx_id r = rx_id o /\ rx_user_name r = rx_user_name o /\ rx_added_at r = rx_added_at o) /\
  (find_reaction R m e u = None -> find_reaction R' m e u = None) /\
  (forall m' e' u', (m', e', u') <> (m, e, u) ->
     find_reaction R' m' e' u' = find_reaction R m' e' u') /\
  (active_reactions R' +
   match find_reaction R m e u with
   | Some o => if is_none (rx_removed_at o) then 1 else 0
   | None => 0
   end)%nat = active_reactions R.
Proof.
  intros Hd. cbv zeta. unfold find_reaction, removeReaction, active_reactions. simpl.
  rewrite !find_map_key by apply mark_removed_key.
  split; [|split; [|split]].
  - intros o F. rewrite F. exists (mark_removed m e u now o).
    assert (Ho : rx_is m e u o = true) by (apply find_some in F; apply F).
    unfold mark_removed.
    destruct (rx_removed_at o) eqn:Er; simpl; rewrite ?Er, ?Ho; simpl; rewrite ?Er;
      repeat split.
  - intros F. rewrite F. reflexivity.
  - intros m' e' u' Hne. intros.
    rewrite find_map_key by apply mark_removed_key.
    destruct (find (rx_is m' e' u') (reactions R)) as [o|] eqn:F; [|reflexivity].
    simpl. f_equal. unfold mark_removed.
    destruct (rx_is m e u o) eqn:E; [|reflexivity].
    apply find_some in F as [_ F]. apply rx_is_key in E, F. congruence.
  - pose proof (mark_removed_count m e u now (reactions R) Hd) as C.
    unfold active_count in C. exact C.
Qed.


Lemma sample_reactions_unique : NoDup (map rx_key (reactions sample_reactions)).
Proof. repeat constructor. simpl. tauto. Qed.

Lemma reaction_table_invariants_witness :
  NoDup (map rx_key (reactions sample_reactions)) /\
  reactions_fk sample_store_m sample_reactions /\
  match addReaction sample_store_m sample_reactions "m" "+1" "u2" None 30 with
  | inr R' => NoDup (map rx_key (reactions R'))
  | inl _ => False
  end.
Proof.
  assert (Hfk : reactions_fk sample_store_m sample_reactions).
  { intros r [<- | []]. vm_compute. discriminate. }
  split; [exact sample_reactions_unique|split; [exact Hfk|]].
  case_eq (addReaction sample_store_m sample_reactions "m" "+1" "u2" None 30);
    [intros err H; vm_compute in H; discriminate|intros R' H].
  exact (proj1 (proj1 (reaction_table_invariants sample_store_m sample_reactions
                         "m" "+1" "u2" None 30 sample_reactions_unique Hfk) R' H)).
Defined.

Lemma add_reaction_result_witness :
  NoDup (map rx_key (reactions sample_reactions)) /\
  match addReaction sample_store_m sample_reactions "m" "+1" "u1" (Some "Bob") 30 with
  | inr R' => exists r, find_reaction R' "m" "+1" "u1" = Some r /\
                        rx_user_name r = Some "Ann" /\ rx_id r = 1
  | inl _ => False
  end.
Proof.
  split; [exact sample_reactions_unique|].
  pose proof (add_reaction_result sample_store_m sample_reactions "m" "+1" "u1"
                (Some "Bob") 30 sample_reactions_unique) as H.
  destruct (addReaction sample_store_m sample_reactions "m" "+1" "u1" (Some "Bob") 30)
    as [err|R'].
  - destruct H as [_ [Hf _]]. vm_compute in Hf. discriminate.
  - destruct H as [r [H1 [_ [_ [H4 [H5 _]]]]]].
    exists r. split; [exact H1|]. rewrite H4, H5. split; reflexivity.
Defined.

Lemma remove_reaction_result_witness :
  NoDup (map rx_key (reactions sample_reactions)) /\
  exists r, find_reaction (removeReaction sample_reactions "m" "+1" "u1" 40) "m" "+1" "u1"
              = Some r /\ rx_removed_at r = Some 20.
Proof.
  split; [exact sample_reactions_unique|].
  pose proof (remove_reaction_result sample_reactions "m" "+1" "u1" 40
                sample_reactions_unique) as H.
  cbv zeta in H. destruct H as [H1 _].
  destruct (H1 (mkReactionRow 1 "m" "+1" "u1" (Some "Ann") 10 (Some 20)) eq_refl)
    as [r [Hr [Hrm _]]].
  exists r. split; [exact Hr|]. rewrite Hrm. reflexivity.
Defined.

(* ------------------------------------------------------------------ *)
(** ** Sessions *)

Lemma session_values_spec (d : session_data) (c u : Z) (row : session_row) :
  session_values d c u = inr row ->
  sess_id row = sd_id d /\ sess_created_at row = c /\ sess_updated_at row = u /\
  sess_status row = match or_null (sd_status d) with Some s => s | None => "active" end /\
  sess_parent_id row = or_null (sd_parent_id d) /\
  str_in (sess_type row) session_types = true /\
  str_in (sess_status row) session_statuses = true.
Proof.
  unfold session_values.
  destruct (sd_session_key d), (sd_type d), (sd_started_at d), (sd_title d),
    (sd_summary d); try discriminate.
  destruct (str_in _ session_types) eqn:E1; [|discriminate].
  destruct (str_in _ session_statuses) eqn:E2; [|discriminate].
  intros H. inversion H. simpl. auto 10.
Qed.

Lemma getSession_map (f : session_row -> session_row) (T : list session_row) (id : string) :
  (forall r, sess_id (f r) = sess_id r) ->
  getSession (map f T) id = option_map f (getSession T id).
Proof.
  intros Hf. unfold getSession. induction T as [|r rest IH]; simpl; [reflexivity|].
  rewrite Hf. destruct (String.eqb (sess_id r) id); [reflexivity|exact IH].
Qed.

Lemma replace_session_id (row r : session_row) :
  sess_id (replace_session row r) = sess_id r.
Proof.
  unfold replace_session. destruct (String.eqb (sess_id r) (sess_id row)) eqn:E;
    [apply String.eqb_eq in E; congruence|reflexivity].
Qed.

Lemma close_session_id (st id : string) (now : Z) (r : session_row) :
  sess_id (close_session st id now r) = sess_id r.
Proof. unfold close_session. destruct (_ && _)%bool; reflexivity. Qed.

Lemma getSession_some (T : list session_row) (id : string) (r : session_row) :
  getSession T id = Some r -> In r T /\ sess_id r = id.
Proof.
  unfold getSession. intros H. apply find_some in H as [Hin Heq].
  apply String.eqb_eq in Heq. auto.
Qed.

Lemma getSession_none (T : list session_row) (id : string) :
  getSession T id = None -> ~ In id (map sess_id T).
Proof.
  unfold getSession. intros H Hin. apply in_map_iff in Hin as [r [Hr Hin]].
  apply (find_none _ _ H) in Hin. rewrite Hr, String.eqb_refl in Hin. discriminate.
Qed.

Lemma getSession_app_single (T : list session_row) (row : session_row) (id : string) :
  getSession (T ++ [row])%list id =
  match getSession T id with
  | Some r => Some r
  | None => if String.eqb (sess_id row) id then Some row else None
  end.
Proof.
  unfold getSession. induction T as [|r rest IH]; simpl.
  - destruct (String.eqb (sess_id row) id); reflexivity.
  - destruct (String.eqb (sess_id r) id); [reflexivity|exact IH].
Qed.

Lemma parent_ok_ids (T1 T2 : list session_row) (r : session_row) :
  (forall id, existsb (fun x => String.eqb (sess_id x) id) T1 = true ->
              existsb (fun x => String.eqb (sess_id x) id) T2 = true) ->
  parent_ok T1 r = true -> parent_ok T2 r = true.
Proof.
  unfold parent_ok. intros H. destruct (sess_parent_id r); [apply H|auto].
Qed.

Lemma existsb_id_map (f : session_row -> session_row) (T : list session_row) (id : string) :
  (forall r, sess_id (f r) = sess_id r) ->
  existsb (fun x => String.eqb (sess_id x) id) (map f T) =
  existsb (fun x => String.eqb (sess_id x) id) T.
Proof.
  intros Hf. induction T as [|r rest IH]; simpl; [reflexivity|]. rewrite Hf, IH. reflexivity.
Qed.

Lemma map_sess_id (f : session_row -> session_row) (T : list session_row) :
  (forall r, sess_id (f r) = sess_id r) -> map sess_id (map f T) = map sess_id T.
Proof. intros Hf. rewrite map_map. apply map_ext. exact Hf. Qed.

(** [upsertSession] answers [true] exactly for a new id; the stored row
    carries [now] as [updated_at], keeps the first [created_at], and
    takes [status || 'active'] (an update without a status reopens the
    session); the other sessions are untouched and ids stay unique. *)
Theorem upsert_session_result (now : Z) (T : list session_row) (d : session_data)
    (T' : list session_row) (b : bool) :
  NoDup (map sess_id T) ->
  upsertSession now T d = inr (T', b) ->
  b = match getSession T (sd_id d) with Some _ => false | None => true end /\
  (exists r, getSession T' (sd_id d) = Some r /\
     sess_created_at r = match getSession T (sd_id d) with
                         | Some o => sess_created_at o | None => now end /\
     sess_updated_at r = now /\
     sess_status r = match or_null (sd_status d) with Some s => s | None => "active" end) /\
  (forall id, id <> sd_id d -> getSession T' id = getSession T id) /\
  NoDup (map sess_id T').
Proof.
  intros Hd. unfold upsertSession.
  destruct (getSession T (sd_id d)) as [o|] eqn:G.
  - destruct (session_values d (sess_created_at o) now) as [err|row] eqn:V; [discriminate|].
    destruct (parent_ok _ row); [|discriminate].
    intros H. inversion H; subst T' b; clear H.
    destruct (session_values_spec _ _ _ _ V) as (Hid & Hc & Hu & Hs & _).
    destruct (getSession_some _ _ _ G) as [_ Hoid].
    split; [reflexivity|]. split; [|split].
    + exists row. rewrite getSession_map by apply replace_session_id. rewrite G.
      simpl. unfold replace_session. rewrite Hoid, Hid, String.eqb_refl. auto.
    + intros id Hne. rewrite getSession_map by apply replace_session_id.
      destruct (getSession T id) as [o'|] eqn:G'; [|reflexivity].
      destruct (getSession_some _ _ _ G') as [_ Ho'].
      simpl. unfold replace_session. rewrite Ho', Hid.
      destruct (String.eqb id (sd_id d)) eqn:E; [apply String.eqb_eq in E; contradiction|].
      reflexivity.
    + rewrite map_sess_id by apply replace_session_id. exact Hd.
  - destruct (session_values d now now) as [err|row] eqn:V; [discriminate|].
    destruct (parent_ok _ row); [|discriminate].
    intros H. inversion H; subst T' b; clear H.
    destruct (session_values_spec _ _ _ _ V) as (Hid & Hc & Hu & Hs & _).
    split; [reflexivity|]. split; [|split].
    + exists row. rewrite getSession_app_single, G, Hid, String.eqb_refl. auto.
    + intros id Hne. rewrite getSession_app_single.
      destruct (getSession T id); [reflexivity|].
      rewrite Hid. destruct (String.eqb (sd_id d) id) eqn:E; [|reflexivity].
      apply String.eqb_eq in E. congruence.
    + rewrite map_app. simpl. apply NoDup_app_single; [exact Hd|].
      rewrite Hid. apply getSession_none. exact G.
Qed.

Lemma sessions_ok_map (f : session_row -> session_row) (T : list session_row) :
  (forall r, sess_id (f r) = sess_id r) ->
  (forall r, sess_type (f r) = sess_type r) ->
  (forall r, sess_parent_id (f r) = sess_parent_id r) ->
  (forall r, str_in (sess_status r) session_statuses = true ->
             str_in (sess_status (f r)) session_statuses = true) ->
  sessions_ok T -> sessions_ok (map f T).
Proof.
  intros Hid Hty Hp Hst [Hd Hrows]. split.
  - rewrite map_sess_id by exact Hid. exact Hd.
  - intros r' Hr'. apply in_map_iff in Hr' as [r [<- Hr]].
    destruct (Hrows r Hr) as (H1 & H2 & H3).
    rewrite Hty. split; [exact H1|]. split; [exact (Hst r H2)|].
    unfold parent_ok in *. rewrite Hp. destruct (sess_parent_id r); [|reflexivity].
    rewrite existsb_id_map by exact Hid. exact H3.
Qed.

(** The constraints of [sessions] (unique ids, the type and status
    CHECKs, the parent key) hold after every successful [upsertSession],
    and after [completeSession] and [failSession]. *)
Theorem sessions_ok_preserved (now : Z) (T : list session_row) (d : session_data)
    (sessionId : string) :
  sessions_ok T ->
  (forall T' b, upsertSession now T d = inr (T', b) -> sessions_ok T') /\
  sessions_ok (completeSession now T sessionId) /\
  sessions_ok (failSession now T sessionId).
Proof.
  intros Hok. split; [|split].
  - intros T' b Hup.
    destruct (upsert_session_result now T d T' b (proj1 Hok) Hup) as (_ & _ & _ & Hd').
    split; [exact Hd'|].
    destruct Hok as [Hd Hrows]. revert Hup. unfold upsertSession.
    destruct (getSession T (sd_id d)) as [o|] eqn:G.
    + destruct (session_values d (sess_created_at o) now) as [err|row] eqn:V;
        [discriminate|].
      destruct (parent_ok _ row) eqn:P; [|discriminate].
      intros H. inversion H; subst T' b; clear H.
      destruct (session_values_spec _ _ _ _ V) as (_ & _ & _ & _ & _ & Ht & Hs).
      assert (Hex : forall id, existsb (fun x => String.eqb (sess_id x) id) T = true ->
                    existsb (fun x => String.eqb (sess_id x) id)
                      (map (replace_session row) T) = true)
        by (intros id; rewrite existsb_id_map by apply replace_session_id; auto).
      set (T'' := map (replace_session row) T) in *.
      intros r' Hr'. apply in_map_iff in Hr' as [r [<- Hr]].
      unfold replace_session.
      destruct (String.eqb (sess_id r) (sess_id row)); [auto|].
      destruct (Hrows r Hr) as (H1 & H2 & H3). split; [exact H1|]. split; [exact H2|].
      exact (parent_ok_ids T T'' r Hex H3).
    + destruct (session_values d now now) as [err|row] eqn:V; [discriminate|].
      destruct (parent_ok _ row) eqn:P; [|discriminate].
      intros H. inversion H; subst T' b; clear H.
      destruct (session_values_spec _ _ _ _ V) as (_ & _ & _ & _ & _ & Ht & Hs).
      intros r' Hr'. apply in_app_or in Hr' as [Hr | [<- | []]]; [|auto].
      destruct (Hrows r' Hr) as (H1 & H2 & H3). split; [exact H1|]. split; [exact H2|].
      apply (parent_ok_ids T); [|exact H3].
      intros id Hx. rewrite existsb_app, Hx. reflexivity.
  - apply sessions_ok_map; try (intros r; unfold close_session; destruct (_ && _)%bool;
                                reflexivity); [|exact Hok].
    intros r Hr. unfold close_session. destruct (_ && _)%bool; [reflexivity|exact Hr].
  - apply sessions_ok_map; try (intros r; unfold close_session; destruct (_ && _)%bool;
                                reflexivity); [|exact Hok].
    intros r Hr. unfold close_session. destruct (_ && _)%bool; [reflexivity|exact Hr].
Qed.

(** [completeSession] and [failSession] act on an active session only:
    an active one becomes [completed] ([failed]) with [updated_at] set to
    [now]; a session in any other status is left as it is, so [completed]
    and [failed] never turn into each other. *)
Theorem close_session_only_active (now : Z) (T : list session_row) (sessionId : string) :
  (forall r, getSession T sessionId = Some r -> sess_status r = "active" ->
     exists c f,
       getSession (completeSession now T sessionId) sessionId = Some c /\
       getSession (failSession now T sessionId) sessionId = Some f /\
       sess_status c = "completed" /\ sess_status f = "failed" /\
       sess_updated_at c = now /\ sess_updated_at f = now /\
       sess_created_at c = sess_created_at r /\ sess_created_at f = sess_created_at r) /\
  ((forall r, In r T -> sess_id r = sessionId -> sess_status r <> "active") ->
     completeSession now T sessionId = T /\ failSession now T sessionId = T).
Proof.
  split.
  - intros r G Ha. unfold completeSession, failSession.
    rewrite !getSession_map by apply close_session_id. rewrite G.
    destruct (getSession_some _ _ _ G) as [_ Hid].
    exists (close_session "completed" sessionId now r),
           (close_session "failed" sessionId now r).
    cbn [option_map]. unfold close_session.
    rewrite Hid, Ha, String.eqb_refl. simpl. repeat split.
  - intros H. unfold completeSession, failSession.
    assert (E : forall st, map (close_session st sessionId now) T = T).
    { intros st. rewrite <- (map_id T) at 2. apply map_ext_in. intros r Hr.
      unfold close_session.
      destruct (String.eqb (sess_id r) sessionId) eqn:E1; [|reflexivity].
      destruct (String.eqb (sess_status r) "active") eqn:E2; [|reflexivity].
      apply String.eqb_eq in E1, E2. exfalso. exact (H r Hr E1 E2). }
    rewrite !E. auto.
Qed.


Lemma upsert_session_result_witness :
  NoDup (map sess_id []) /\
  match upsertSession 5 [] sample_session_data with
  | inr (T', b) => b = true /\
      exists r, getSession T' "s1" = Some r /\ sess_status r = "active" /\
                sess_created_at r = 5
  | inl _ => False
  end.
Proof.
  split; [constructor|].
  case_eq (upsertSession 5 [] sample_session_data);
    [intros err H; vm_compute in H; discriminate|intros [T' b] H].
  destruct (upsert_session_result 5 [] sample_session_data T' b (NoDup_nil _) H)
    as (Hb & (r & Hr & Hc & _ & Hs) & _).
  split; [exact Hb|]. exists r. split; [exact Hr|]. split.
  - rewrite Hs. reflexivity.
  - exact Hc.
Defined.

Lemma sessions_ok_preserved_witness :
  sessions_ok [sample_session_row "completed"] /\
  match upsertSession 7 [sample_session_row "completed"] sample_session_data with
  | inr (T', b) => sessions_ok T'
  | inl _ => False
  end.
Proof.
  assert (Hok : sessions_ok [sample_session_row "completed"]).
  { split; [repeat constructor; intros []|].
    intros r [<- | []]. vm_compute. auto. }
  split; [exact Hok|].
  case_eq (upsertSession 7 [sample_session_row "completed"] sample_session_data);
    [intros err H; vm_compute in H; discriminate|intros [T' b] H].
  exact (proj1 (sessions_ok_preserved 7 [sample_session_row "completed"]
                  sample_session_data "s1" Hok) T' b H).
Defined.

Lemma close_session_only_active_witness :
  getSession [sample_session_row "active"] "s1" = Some (sample_session_row "active") /\
  sess_status (sample_session_row "active") = "active" /\
  (exists c, getSession (completeSession 9 [sample_session_row "active"] "s1") "s1" = Some c /\
             sess_status c = "completed") /\
  completeSession 9 [sample_session_row "failed"] "s1" = [sample_session_row "failed"].
Proof.
  split; [reflexivity|]. split; [reflexivity|]. split.
  - destruct (proj1 (close_session_only_active 9 [sample_session_row "active"] "s1")
                (sample_session_row "active") eq_refl eq_refl)
      as (c & f & Hc & _ & Hs & _).
    exists c. split; [exact Hc|exact Hs].
  - apply (proj2 (close_session_only_active 9 [sample_session_row "failed"] "s1")).
    intros r [<- | []] _. discriminate.
Defined.

(* ------------------------------------------------------------------ *)
(** ** Generated message ids *)

Lemma string_length_app (s1 s2 : string) :
  String.length (s1 ++ s2) = (String.length s1 + String.length s2)%nat.
Proof. induction s1 as [|c s1 IH]; simpl; [reflexivity|]. rewrite IH. reflexivity. Qed.

Lemma substring_0_length (n : nat) (s : string) :
  (n <= String.length s)%nat -> String.length (substring 0 n s) = n.
Proof.
  revert s. induction n as [|n IH]; intros s H; destruct s as [|c s]; simpl in *;
    try reflexivity; try lia.
  rewrite IH; [reflexivity|lia].
Qed.

Lemma substring_0_chars (n : nat) (s : string) (c : ascii) :
  In c (list_ascii_of_string (substring 0 n s)) -> In c (list_ascii_of_string s).
Proof.
  revert s. induction n as [|n IH]; intros s H; destruct s as [|d s]; simpl in *;
    try contradiction.
  destruct H as [H | H]; [left; exact H|right; exact (IH s H)].
Qed.

Lemma list_ascii_app (s1 s2 : string) :
  list_ascii_of_string (s1 ++ s2) = (list_ascii_of_string s1 ++ list_ascii_of_string s2)%list.
Proof. induction s1 as [|c s1 IH]; simpl; [reflexivity|]. rewrite IH. reflexivity. Qed.

Definition hex_char (c : ascii) : Prop := exists n, 0 <= n < 16 /\ c = Sha256.hex_digit n.

Lemma hex_word_spec (n : nat) (x : Z) :
  String.length (Sha256.hex_word n x) = n /\
  Forall hex_char (list_ascii_of_string (Sha256.hex_word n x)).
Proof.
  revert x. induction n as [|n IH]; intros x; simpl; [split; [reflexivity|constructor]|].
  destruct (IH (Z.shiftr x 4)) as [Hl Hf].
  rewrite string_length_app, list_ascii_app, Hl. simpl. split; [lia|].
  apply Forall_app. split; [exact Hf|]. constructor; [|constructor].
  exists (Z.land x 15). split; [|reflexivity].
  split; [apply Z.land_nonneg; lia|].
  change 15 with (Z.ones 4). rewrite Z.land_ones by lia.
  apply Z.mod_pos_bound. lia.
Qed.

Lemma round_length (st : list Z) (kw : Z * Z) :
  length (Sha256.round st kw) = length st.
Proof.
  unfold Sha256.round.
  destruct st as [|a [|b [|c [|d [|e [|f [|g [|h [|i rest]]]]]]]]]; reflexivity.
Qed.

Lemma compress_length (hs block : list Z) :
  length (Sha256.compress hs block) = length hs.
Proof.
  unfold Sha256.compress. rewrite length_map, length_combine.
  assert (G : forall l st, length (fold_left Sha256.round l st) = length st).
  { induction l as [|kw l IH]; intros st; simpl; [reflexivity|].
    rewrite IH. apply round_length. }
  rewrite G. lia.
Qed.

Lemma concat_hex_spec (hs : list Z) :
  String.length (String.concat "" (map (Sha256.hex_word 8) hs)) = (8 * length hs)%nat /\
  Forall hex_char (list_ascii_of_string (String.concat "" (map (Sha256.hex_word 8) hs))).
Proof.
  induction hs as [|h hs IH]; [split; [reflexivity|constructor]|].
  destruct (hex_word_spec 8 h) as [Hl Hf].
  destruct hs as [|h' hs'].
  - change (String.concat "" (map (Sha256.hex_word 8) [h])) with (Sha256.hex_word 8 h).
    rewrite Hl. split; [reflexivity|exact Hf].
  - change (String.concat "" (map (Sha256.hex_word 8) (h :: h' :: hs')))
      with (Sha256.hex_word 8 h ++ String.concat "" (map (Sha256.hex_word 8) (h' :: hs')))%string.
    destruct IH as [IHl IHf].
    rewrite string_length_app, list_ascii_app, Hl, IHl. simpl length. split; [lia|].
    apply Forall_app. split; assumption.
Qed.

Lemma digest_spec (s : string) :
  String.length (Sha256.digest s) = 64%nat /\
  Forall hex_char (list_ascii_of_string (Sha256.digest s)).
Proof.
  unfold Sha256.digest.
  assert (G : forall l hs, length (fold_left Sha256.compress l hs) = length hs).
  { induction l as [|b l IH]; intros hs; simpl; [reflexivity|].
    rewrite IH. apply compress_length. }
  destruct (concat_hex_spec (fold_left Sha256.compress
              (Sha256.chunks 64 (length (Sha256.pad (Sha256.bytes_of_string s)))
                 (Sha256.pad (Sha256.bytes_of_string s))) Sha256.H0)) as [Hl Hf].
  rewrite G in Hl. split; [exact Hl|exact Hf].
Qed.

Lemma generated_shape (p id : string) :
  Some ("generated_" ++ substring 0 16 (Sha256.digest p))%string = Some id ->
  exists h, id = ("generated_" ++ h)%string /\ String.length h = 16%nat /\
            Forall hex_char (list_ascii_of_string h) /\ String.length id = 26%nat.
Proof.
  intros H. injection H as <-.
  destruct (digest_spec p) as [Hl Hf].
  exists (substring 0 16 (Sha256.digest p)). split; [reflexivity|].
  assert (L : String.length (substring 0 16 (Sha256.digest p)) = 16%nat)
    by (apply substring_0_length; rewrite Hl; lia).
  split; [exact L|]. split.
  - apply Forall_forall. intros c Hc. apply substring_0_chars in Hc.
    exact (proj1 (Forall_forall _ _) Hf c Hc).
  - cbn [String.length String.append]. rewrite L. reflexivity.
Qed.

(** A generated id is [generated_] followed by 16 lower-case hex
    digits. *)
Theorem generated_id_shape (JSON_stringify : json -> string) (ts : option Z)
    (senderId content : option json) (id : string) :
  generateMessageId JSON_stringify ts senderId content = Some id ->
  exists h, id = ("generated_" ++ h)%string /\ String.length h = 16%nat /\
            Forall hex_char (list_ascii_of_string h) /\ String.length id = 26%nat.
Proof.
  unfold generateMessageId. cbv zeta.
  destruct (extractTextContent JSON_stringify content) as [[| | | t | |]|];
    try discriminate.
  destruct (if truthy senderId then tmpl senderId else Some "unknown") as [sender|];
    [|discriminate].
  intros H. exact (generated_shape _ _ H).
Qed.

(** The id depends only on the timestamp, [senderId || 'unknown'] and
    the first 100 UTF-16 code units of the text: a missing or empty sender
    and the sender [unknown] collide, so do texts that agree on their first
    100 code units, and an array of strings gives the id of its lines
    joined by newlines. *)
Theorem generated_id_collisions (JSON_stringify : json -> string) (ts : option Z)
    (t1 t2 : string) :
  js_substring_0 100 t1 = js_substring_0 100 t2 ->
  generateMessageId JSON_stringify ts None (Some (JStr t1)) =
    generateMessageId JSON_stringify ts (Some (JStr "unknown")) (Some (JStr t2)) /\
  generateMessageId JSON_stringify ts (Some (JStr "")) (Some (JStr t1)) =
    generateMessageId JSON_stringify ts (Some JNull) (Some (JStr t2)) /\
  (forall senderId lines,
     generateMessageId JSON_stringify ts senderId (Some (JArr (map JStr lines))) =
     generateMessageId JSON_stringify ts senderId
       (Some (JStr (String.concat (String "010" "") lines)))).
Proof.
  intros H. unfold generateMessageId. cbv zeta.
  cbn [extractTextContent truthy tmpl js_to_string negb String.eqb Ascii.eqb Bool.eqb
       andb].
  rewrite H. split; [reflexivity|]. split; [reflexivity|].
  intros senderId lines.
  assert (A : all_some (map block_text (map JStr lines)) = Some lines).
  { induction lines as [|l ls IH]; cbn [map all_some block_text]; [reflexivity|].
    rewrite IH. reflexivity. }
  rewrite A. reflexivity.
Qed.

Lemma all_some_none {A} (l : list (option A)) :
  all_some l = None <-> In None l.
Proof.
  induction l as [|[x|] rest IH]; simpl.
  - split; [discriminate|intros []].
  - destruct (all_some rest); simpl; split; intros H.
    + discriminate.
    + destruct H as [H|H]; [discriminate|]. apply IH in H. discriminate.
    + right. apply IH. reflexivity.
    + reflexivity.
  - split; [intros _; left; reflexivity|reflexivity].
Qed.

Lemma join_elem_some_none (x : json) : join_elem (Some x) = None <-> js_to_string x = None.
Proof. destruct x; simpl; split; intros H; first [discriminate H | exact H]. Qed.

Lemma js_to_string_none_truthy (x : json) : js_to_string x = None -> truthy (Some x) = true.
Proof. destruct x; simpl; intros H; first [discriminate H | reflexivity]. Qed.

Lemma block_text_none (b : json) : block_text b = None <-> block_throws b.
Proof.
  unfold block_throws.
  destruct b as [| | | s | xs | kvs];
    try (simpl; split; [discriminate | intros [H|[x [H _]]]; discriminate H]).
  - split; [intros _; left; reflexivity | reflexivity].
  - cbn [block_text get]. destruct (assoc "text" kvs) as [x|] eqn:Ex.
    + transitivity (js_to_string x = None).
      * destruct (str_eq (assoc "type" kvs) "text"); [apply join_elem_some_none|].
        destruct (truthy (Some x)) eqn:T; [apply join_elem_some_none|].
        split; [discriminate|]. intros H.
        rewrite (js_to_string_none_truthy x H) in T. discriminate.
      * split; [intros H; right; exists x; split; [reflexivity | exact H]|].
        intros [H|[x' [H1 H2]]]; [discriminate H|]. injection H1 as <-. exact H2.
    + destruct (str_eq (assoc "type" kvs) "text"); cbn [truthy join_elem];
        (split; [discriminate | intros [H|[x [H _]]]; discriminate H]).
Qed.

Lemma extract_array_none (JSON_stringify : json -> string) (bs : list json) :
  extractTextContent JSON_stringify (Some (JArr bs)) = None <->
  exists b, In b bs /\ block_throws b.
Proof.
  cbn [extractTextContent]. transitivity (all_some (map block_text bs) = None).
  - destruct (all_some (map block_text bs)); simpl; split; intros; congruence.
  - rewrite all_some_none. split.
    + intros H. apply in_map_iff in H as [b [Hb Hin]].
      exists b. split; [exact Hin | apply block_text_none; exact Hb].
    + intros [b [Hin Hb]]. apply in_map_iff. exists b.
      split; [apply block_text_none; exact Hb | exact Hin].
Qed.

Lemma truthy_some (v : option json) : truthy v = true -> v <> None.
Proof. destruct v; simpl; [discriminate|]. intros H; discriminate. Qed.

(** [extractTextContent] throws exactly on an array holding [null] or a
    block whose [text] has no string conversion (an object with its own
    [toString], or an array holding one).  A string is returned as it is,
    an array of other blocks gives a string, and a value that is not a
    string, an array or an object gives the empty string. *)
Theorem extract_text_content_result (JSON_stringify : json -> string) (content : option json) :
  (extractTextContent JSON_stringify content = None <->
     exists blocks, content = Some (JArr blocks) /\
       exists b, In b blocks /\ block_throws b) /\
  (forall s, content = Some (JStr s) ->
     extractTextContent JSON_stringify content = Some (JStr s)) /\
  (forall blocks, content = Some (JArr blocks) -> Forall (fun b => ~ block_throws b) blocks ->
     exists text, extractTextContent JSON_stringify content = Some (JStr text)) /\
  (match content with
   | Some (JStr _) | Some (JArr _) | Some (JObj _) => True
   | _ => extractTextContent JSON_stringify content = Some (JStr "")
   end).
Proof.
  split; [|split; [|split]].
  - destruct content as [[| | | s | bs | kvs]|];
      try (simpl; split; [discriminate|intros [bl [H _]]; discriminate]).
    + rewrite extract_array_none. split.
      * intros H. exists bs. auto.
      * intros [b [H Hin]]. injection H as <-. exact Hin.
    + split; [|intros [bl [H _]]; discriminate].
      simpl. destruct (truthy (assoc "text" kvs)) eqn:T1.
      * intros H. exact (False_ind _ (truthy_some _ T1 H)).
      * destruct (truthy (assoc "content" kvs)) eqn:T2; [|discriminate].
        intros H. exact (False_ind _ (truthy_some _ T2 H)).
  - intros s H. subst content. reflexivity.
  - intros blocks H Hn. subst content.
    destruct (extractTextContent JSON_stringify (Some (JArr blocks))) as [v|] eqn:E.
    + simpl in E. destruct (all_some (map block_text blocks)); simpl in E; [|discriminate].
      injection E as <-. eexists. reflexivity.
    + apply extract_array_none in E. destruct E as [b [Hin Hb]].
      rewrite Forall_forall in Hn. contradiction (Hn b Hin Hb).
  - destruct content as [[| | | s | bs | kvs]|]; simpl; trivial.
Qed.

Lemma generated_id_shape_witness :
  match generateMessageId (fun _ => "{}") (Some 1000) None (Some (JStr "hi")) with
  | Some id => String.length id = 26%nat
  | None => False
  end.
Proof.
  case_eq (generateMessageId (fun _ => "{}") (Some 1000) None (Some (JStr "hi")));
    [intros id H|intros H; vm_compute in H; discriminate].
  destruct (generated_id_shape (fun _ => "{}") (Some 1000) None (Some (JStr "hi")) id H)
    as (h & _ & _ & _ & L).
  exact L.
Defined.

Lemma generated_id_collisions_witness :
  sample_long_text "1" <> sample_long_text "2" /\
  generateMessageId (fun _ => "{}") (Some 1000) None (Some (JStr (sample_long_text "1"))) =
  generateMessageId (fun _ => "{}") (Some 1000) (Some (JStr "unknown"))
    (Some (JStr (sample_long_text "2"))).
Proof.
  split; [vm_compute; discriminate|].
  exact (proj1 (generated_id_collisions (fun _ => "{}") (Some 1000)
                  (sample_long_text "1") (sample_long_text "2")
                  ltac:(vm_compute; reflexivity))).
Defined.

Lemma extract_text_content_result_witness :
  extractTextContent (fun _ => "{}") (Some (JArr [JStr "a"; JNull])) = None /\
  extractTextContent (fun _ => "{}")
    (Some (JArr [JObj [("text", JObj [("toString", JStr "x")])]])) = None /\
  exists text, extractTextContent (fun _ => "{}")
                 (Some (JArr [JStr "a"; JObj [("type", JStr "text"); ("text", JStr "b")]]))
               = Some (JStr text).
Proof.
  split; [|split].
  - apply (proj2 (proj1 (extract_text_content_result (fun _ => "{}")
                           (Some (JArr [JStr "a"; JNull]))))).
    exists [JStr "a"; JNull]. split; [reflexivity|].
    exists JNull. split; [right; left; reflexivity | left; reflexivity].
  - apply (proj2 (proj1 (extract_text_content_result (fun _ => "{}")
             (Some (JArr [JObj [("text", JObj [("toString", JStr "x")])]]))))).
    eexists. split; [reflexivity|]. eexists. split; [left; reflexivity|].
    right. eexists. split; reflexivity.
  - apply (proj1 (proj2 (proj2 (extract_text_content_result (fun _ => "{}")
             (Some (JArr [JStr "a"; JObj [("type", JStr "text"); ("text", JStr "b")]])))))
             _ eq_refl).
    repeat (apply Forall_cons;
            [unfold block_throws; intros [H|[x [H1 H2]]];
             [discriminate H | cbn in H1;
              first [discriminate H1 | injection H1 as <-; discriminate H2]]|]).
    apply Forall_nil.
Defined.

(* ------------------------------------------------------------------ *)
(** ** Session metadata *)

Lemma truthy_times_spec (evs : list event) (t : Z) :
  In t (truthy_times evs) <-> t <> 0 /\ exists e, In e evs /\ timestamp e = Some t.
Proof.
  induction evs as [|e rest IH]; simpl.
  - split; [intros []|intros [_ [x [[] _]]]].
  - destruct (timestamp e) as [u|] eqn:Te.
    + destruct (u =? 0) eqn:Z0.
      * apply Z.eqb_eq in Z0. subst u. rewrite IH. split.
        -- intros [Hn [x [Hx Ht]]]. split; [exact Hn|]. exists x. auto.
        -- intros [Hn [x [[<- | Hx] Ht]]]; [congruence|]. split; [exact Hn|]. exists x. auto.
      * apply Z.eqb_neq in Z0. simpl. rewrite IH. split.
        -- intros [<- | [Hn [x [Hx Ht]]]].
           ++ split; [exact Z0|]. exists e. auto.
           ++ split; [exact Hn|]. exists x. auto.
        -- intros [Hn [x [[<- | Hx] Ht]]].
           ++ left. congruence.
           ++ right. split; [exact Hn|]. exists x. auto.
    + rewrite IH. split.
      * intros [Hn [x [Hx Ht]]]. split; [exact Hn|]. exists x. auto.
      * intros [Hn [x [[<- | Hx] Ht]]]; [congruence|]. split; [exact Hn|]. exists x. auto.
Qed.

Lemma min_max_fold (ts : list Z) (lo hi : Z) :
  lo <= hi ->
  exists lo' hi',
    fold_left js_min_step ts (JSFin lo) = JSFin lo' /\
    fold_left js_max_step ts (JSFin hi) = JSFin hi' /\
    lo' <= hi' /\ lo' <= lo /\ hi <= hi' /\
    (lo' = lo \/ In lo' ts) /\ (hi' = hi \/ In hi' ts) /\
    (forall t, In t ts -> lo' <= t <= hi').
Proof.
  revert lo hi. induction ts as [|t ts IH]; intros lo hi Hle; simpl.
  - exists lo, hi. repeat split; auto; try lia.
  - destruct (IH (Z.min lo t) (Z.max hi t) ltac:(lia))
      as (lo' & hi' & H1 & H2 & H3 & H4 & H5 & H6 & H7 & H8).
    exists lo', hi'. split; [exact H1|]. split; [exact H2|].
    split; [lia|]. split; [lia|]. split; [lia|]. split; [|split].
    + destruct H6 as [E | E]; [|right; right; exact E].
      destruct (Z.min_spec lo t) as [[_ M] | [_ M]]; rewrite M in E; auto.
    + destruct H7 as [E | E]; [|right; right; exact E].
      destruct (Z.max_spec hi t) as [[_ M] | [_ M]]; rewrite M in E; auto.
    + intros u [<- | Hu]; [lia|]. exact (H8 u Hu).
Qed.

Lemma math_min_max (ts : list Z) :
  (ts = [] -> Math_min ts = JSPosInf /\ Math_max ts = JSNegInf) /\
  (ts <> [] -> exists lo hi, Math_min ts = JSFin lo /\ Math_max ts = JSFin hi /\
     lo <= hi /\ In lo ts /\ In hi ts /\ forall t, In t ts -> lo <= t <= hi).
Proof.
  split; [intros ->; split; reflexivity|].
  destruct ts as [|t ts]; [intros H; contradiction H; reflexivity|intros _].
  unfold Math_min, Math_max. simpl.
  destruct (min_max_fold ts t t (Z.le_refl t))
    as (lo & hi & H1 & H2 & H3 & H4 & H5 & H6 & H7 & H8).
  exists lo, hi. split; [exact H1|]. split; [exact H2|]. split; [exact H3|].
  split; [|split].
  - destruct H6 as [E | E]; [left; auto|right; exact E].
  - destruct H7 as [E | E]; [left; auto|right; exact E].
  - intros u [<- | Hu]; [lia|]. exact (H8 u Hu).
Qed.

Lemma extract_some (evs : list event) (md : session_metadata) :
  extractSessionMetadata evs = Some md ->
  exists se, md = {| md_session_id := session_id se;
                     md_started_at := Math_min (truthy_times evs);
                     md_ended_at := Math_max (truthy_times evs);
                     md_event_count := length evs;
                     md_has_thinking := existsb (is_type "thinking_block") evs;
                     md_has_usage := existsb (is_type "usage_stats") evs;
                     md_tool_calls := length (filter (is_type "tool_call") evs);
                     md_errors := length (filter (fun e => negb (is_error e =? 0)) evs) |}.
Proof.
  unfold extractSessionMetadata. destruct evs as [|e0 rest]; [discriminate|].
  destruct (find (is_type "session") (e0 :: rest)) as [se|]; [|discriminate].
  intros H. injection H as <-. exists se. reflexivity.
Qed.

(** [extractSessionMetadata] is [null] exactly when no event is a
    [session] event (an empty list included).  Otherwise [started_at]
    and [ended_at] are the least and the greatest truthy timestamp, or
    [Infinity] and [-Infinity] when there is none; the counts never
    exceed [event_count]. *)
Theorem session_metadata_result (evs : list event) :
  (extractSessionMetadata evs = None <-> forall e, In e evs -> event_type e <> "session") /\
  (forall md, extractSessionMetadata evs = Some md ->
     md_event_count md = length evs /\
     (md_tool_calls md <= length evs)%nat /\ (md_errors md <= length evs)%nat /\
     ((forall e t, In e evs -> timestamp e = Some t -> t = 0) ->
        md_started_at md = JSPosInf /\ md_ended_at md = JSNegInf) /\
     (forall e t, In e evs -> timestamp e = Some t -> t <> 0 ->
        exists lo hi, md_started_at md = JSFin lo /\ md_ended_at md = JSFin hi /\
          lo <= t <= hi /\ In lo (truthy_times evs) /\ In hi (truthy_times evs))).
Proof.
  split.
  - unfold extractSessionMetadata. split.
    + intros H e He Ht. destruct evs as [|e0 rest]; [contradiction He|].
      destruct (find (is_type "session") (e0 :: rest)) eqn:F; [discriminate|].
      apply (find_none _ _ F) in He. unfold is_type in He.
      rewrite Ht, String.eqb_refl in He. discriminate.
    + intros H. destruct evs as [|e0 rest]; [reflexivity|].
      destruct (find (is_type "session") (e0 :: rest)) as [se|] eqn:F; [|reflexivity].
      apply find_some in F as [Hin Hse]. unfold is_type in Hse.
      apply String.eqb_eq in Hse. contradiction (H se Hin Hse).
  - intros md Hmd. destruct (extract_some _ _ Hmd) as [se ->].
    cbn [md_event_count md_tool_calls md_errors md_started_at md_ended_at].
    split; [reflexivity|]. split; [apply filter_length_le|]. split; [apply filter_length_le|].
    destruct (math_min_max (truthy_times evs)) as [Hnil Hcons].
    split.
    + intros H. apply Hnil. destruct (truthy_times evs) as [|t ts] eqn:E;
        [reflexivity|].
      assert (Hin : In t (truthy_times evs)) by (rewrite E; left; reflexivity).
      apply truthy_times_spec in Hin as [Hn [e [He Ht]]].
      contradiction (Hn (H e t He Ht)).
    + intros e t He Ht Hn.
      assert (Hin : In t (truthy_times evs))
        by (apply truthy_times_spec; split; [exact Hn|exists e; auto]).
      destruct (Hcons ltac:(intros E; rewrite E in Hin; contradiction Hin))
        as (lo & hi & H1 & H2 & H3 & H4 & H5 & H6).
      exists lo, hi. simpl. split; [exact H1|]. split; [exact H2|].
      split; [exact (H6 t Hin)|]. split; assumption.
Qed.


Lemma session_metadata_result_witness :
  extractSessionMetadata [sample_event "message" (Some 5)] = None /\
  match extractSessionMetadata [sample_event "session" (Some 100);
                                sample_event "message" (Some 200)] with
  | Some md => exists lo hi, md_started_at md = JSFin lo /\ md_ended_at md = JSFin hi /\
                             lo <= 200 <= hi
  | None => False
  end.
Proof.
  split.
  - apply (proj2 (proj1 (session_metadata_result [sample_event "message" (Some 5)]))).
    intros e [<- | []]. discriminate.
  - case_eq (extractSessionMetadata [sample_event "session" (Some 100);
                                     sample_event "message" (Some 200)]);
      [intros md H|intros H; vm_compute in H; discriminate].
    destruct (proj2 (proj2 (proj2 (proj2 (proj2 (session_metadata_result _) md H))))
                (sample_event "message" (Some 200)) 200
                ltac:(right; left; reflexivity) eq_refl ltac:(discriminate))
      as (lo & hi & H1 & H2 & H3 & _).
    exists lo, hi. auto.
Defined.

(* ------------------------------------------------------------------ *)
(** ** WhatsApp export lines *)

Lemma re_rep_suffix (m : units -> captures -> re_cont -> option captures)
  (Hm : forall s c k res, m s c k = Some res ->
        exists s' c', (exists pre, s = (pre ++ s')%list) /\ k s' c' = Some res) :
  forall k fuel mn mx s c res, re_rep m k fuel mn mx s c = Some res ->
  exists s' c', (exists pre, s = (pre ++ s')%list) /\ k s' c' = Some res.
Proof.
  intros k fuel. induction fuel as [|f IH]; intros mn mx s c res H;
    cbn [re_rep] in H; [discriminate|].
  destruct mx as [[|n]|];
    [exists s, c; split; [exists []; reflexivity|exact H]| |].
  all: destruct mn as [|mn'];
    [destruct (m s c _) eqn:E;
       [injection H as <-; apply Hm in E as (s1 & c1 & [pre1 ->] & E);
        destruct (length s1 <? length (pre1 ++ s1))%nat; [|discriminate]
       |exists s, c; split; [exists []; reflexivity|exact H]]
    |apply Hm in H as (s1 & c1 & [pre1 ->] & E)].
  all: apply IH in E as (s2 & c2 & [pre2 ->] & E);
    exists s2, c2; split; [exists (pre1 ++ pre2)%list; apply app_assoc|exact E].
Qed.

Lemma re_match_suffix (r : regex) :
  forall s c k res, re_match r s c k = Some res ->
  exists s' c', (exists pre, s = (pre ++ s')%list) /\ k s' c' = Some res.
Proof.
  induction r as [p| |a IHa b IHb|a IHa b IHb|mn mx a IHa|n a IHa];
    intros s c k res H; cbn [re_match] in H.
  - destruct s as [|u s']; [discriminate|].
    destruct (p u); [|discriminate].
    exists s', c. split; [exists [u]; reflexivity|exact H].
  - exists s, c. split; [exists []; reflexivity|exact H].
  - apply IHa in H as (s1 & c1 & [pre1 ->] & H).
    apply IHb in H as (s2 & c2 & [pre2 ->] & H).
    exists s2, c2. split; [exists (pre1 ++ pre2)%list; apply app_assoc|exact H].
  - destruct (re_match a s c k) eqn:E.
    + injection H as <-. exact (IHa _ _ _ _ E).
    + exact (IHb _ _ _ _ H).
  - exact (re_rep_suffix _ IHa _ _ _ _ _ _ _ H).
  - apply IHa in H as (s1 & c1 & [pre ->] & H).
    eexists s1, _. split; [exists pre; reflexivity|exact H].
Qed.

Lemma re_star_class (p : Z -> bool) (k : re_cont) :
  forall fuel s c res, re_rep (re_match (RClass p)) k fuel 0 None s c = Some res ->
  exists pre s', s = (pre ++ s')%list /\ forallb p pre = true /\ k s' c = Some res.
Proof.
  intros fuel. induction fuel as [|f IH]; intros s c res H; cbn [re_rep] in H;
    [discriminate|].
  destruct s as [|u s']; cbn [re_match] in H.
  - exists [], []. auto.
  - destruct (p u) eqn:Ep.
    + rewrite (proj2 (Nat.ltb_lt (length s') (length (u :: s'))))
        in H by (simpl; lia).
      destruct (re_rep _ k f 0 _ s' c) eqn:E.
      * injection H as <-. apply IH in E as (pre & s'' & -> & Hf & E).
        exists (u :: pre), s''. simpl. rewrite Ep, Hf. auto.
      * exists [], (u :: s'). auto.
    + exists [], (u :: s'). auto.
Qed.

Lemma wa_exec_text (head : regex) (l : units) (c : captures) :
  re_exec (RSeq head wa_text_group) l = Some c ->
  (exists pre, l = (pre ++ get_cap 4 c)%list) /\
  forallb is_not_line_term (get_cap 4 c) = true.
Proof.
  unfold re_exec. cbn [re_match]. intros H.
  apply re_match_suffix in H as (s1 & c1 & [pre1 ->] & H).
  unfold wa_text_group in H. cbn [re_match] in H.
  apply re_star_class in H as (pre & s2 & -> & Hf & H).
  destruct s2; [|discriminate]. injection H as <-.
  cbn [get_cap Nat.eqb].
  rewrite app_nil_r, Nat.sub_0_r, firstn_all.
  split; [exists pre1; reflexivity|exact Hf].
Qed.

Lemma crlf_text_empty (l0 pre t : units) :
  (l0 ++ [13])%list = (pre ++ t)%list -> forallb is_not_line_term t = true -> t = [].
Proof.
  destruct t as [|x t] using rev_ind; [reflexivity|].
  intros H Hf. rewrite app_assoc in H. apply app_inj_tail in H as [_ <-].
  rewrite forallb_app in Hf. simpl in Hf. rewrite andb_false_r in Hf.
  discriminate.
Qed.

Lemma parseLine_caps (l : units) (p : wa_line) :
  parseLine l = Some p ->
  exists head c, re_exec (RSeq head wa_text_group) l = Some c /\ p = wa_line_of c.
Proof.
  unfold parseLine. intros H.
  destruct (re_exec wa_format1 l) as [c|] eqn:E1.
  - injection H as <-. eexists _, c. split; [exact E1|reflexivity].
  - destruct (re_exec wa_format2 l) as [c|] eqn:E2; [|discriminate].
    injection H as <-. eexists _, c. split; [exact E2|reflexivity].
Qed.

(** Extra: the text [parseLine] returns is the end of the line and holds
    no line terminator ([.] does not match one); so a header line
    that ends in a carriage return, as every line of a file with CRLF
    line ends does after [split('\n')], is parsed only with an empty
    text. *)
Theorem wa_parse_line_text (l : units) (p : wa_line) (H : parseLine l = Some p) :
  (exists pre, l = (pre ++ wl_text p)%list) /\
  forallb is_not_line_term (wl_text p) = true /\
  (forall l0, l = (l0 ++ [13])%list -> wl_text p = []).
Proof.
  apply parseLine_caps in H as (head & c & Hc & ->).
  apply wa_exec_text in Hc as [[pre Hl] Hf].
  cbn [wa_line_of wl_text].
  split; [exists pre; exact Hl|]. split; [exact Hf|].
  intros l0 E. rewrite E in Hl. exact (crlf_text_empty _ _ _ Hl Hf).
Qed.

Lemma wa_parse_line_text_witness :
  match parseLine (units_of "1/2/23, 10:30 - Bob:" ++ [13])%list with
  | Some p => wl_text p = []
  | None => False
  end /\
  parseLine (units_of "1/2/23, 10:30 - Bob: hi" ++ [13])%list = None.
Proof.
  split.
  - case_eq (parseLine (units_of "1/2/23, 10:30 - Bob:" ++ [13])%list);
      [intros p H|intros H; vm_compute in H; discriminate].
    exact (proj2 (proj2 (wa_parse_line_text _ p H)) (units_of "1/2/23, 10:30 - Bob:") eq_refl).
  - vm_compute. reflexivity.
Defined.

Lemma wa_extends_refl (h : wa_line) : wa_extends h h.
Proof.
  repeat split. exists []. rewrite app_nil_r. auto.
Qed.

Lemma wa_extends_append (w h : wa_line) (line : units) :
  wa_extends w h ->
  wa_extends (mkWaLine (wl_date w) (wl_time w) (wl_sender w)
                       (wl_text w ++ 10 :: line)%list) h.
Proof.
  intros (Hd & Ht & Hs & extra & Hx & He). cbn [wl_date wl_time wl_sender wl_text].
  repeat split; auto.
  exists (extra ++ 10 :: line)%list. split.
  - rewrite Hx, app_assoc. reflexivity.
  - right. destruct He as [-> | [e ->]].
    + exists line. reflexivity.
    + exists (e ++ 10 :: line)%list. reflexivity.
Qed.

Lemma wa_group_some (lines : list units) :
  forall w h, wa_extends w h ->
  Forall2 wa_extends (wa_group (Some w) lines) (h :: wa_headers lines).
Proof.
  induction lines as [|l rest IH]; intros w h Hw; simpl.
  - constructor; [exact Hw|constructor].
  - destruct (parseLine l) as [p|] eqn:E; simpl.
    + constructor; [exact Hw|]. apply IH, wa_extends_refl.
    + destruct (js_trim l) as [|u t].
      * apply IH, Hw.
      * apply IH, wa_extends_append, Hw.
Qed.

Lemma wa_group_none (lines : list units) :
  Forall2 wa_extends (wa_group None lines) (wa_headers lines).
Proof.
  induction lines as [|l rest IH]; simpl; [constructor|].
  destruct (parseLine l) as [p|] eqn:E; simpl.
  - apply wa_group_some, wa_extends_refl.
  - destruct (js_trim l); exact IH.
Qed.

Lemma wa_message_nil (h : wa_line) : wa_message h [] = h.
Proof. destruct h. unfold wa_message. cbn. rewrite app_nil_r. reflexivity. Qed.

Lemma wa_group_blocks (lines : list units) :
  (forall w, wa_group (Some w) lines =
             wa_message w (wa_following lines)
             :: map (fun b => wa_message (fst b) (snd b)) (wa_blocks lines)) /\
  wa_group None lines = map (fun b => wa_message (fst b) (snd b)) (wa_blocks lines).
Proof.
  induction lines as [|l rest [IHs IHn]].
  - split; [intros w; cbn; rewrite wa_message_nil; reflexivity | reflexivity].
  - split.
    + intros w. cbn [wa_group wa_following wa_blocks].
      destruct (parseLine l) as [p|] eqn:E.
      * rewrite IHs, wa_message_nil. reflexivity.
      * destruct (js_trim l) as [|u t] eqn:Et.
        -- rewrite IHs. unfold wa_message at 1 3. cbn [filter].
           replace (wa_nonblank l) with false
             by (unfold wa_nonblank; rewrite Et; reflexivity). reflexivity.
        -- rewrite IHs. unfold wa_message at 1 2 3. cbn [filter wl_date wl_time wl_sender wl_text].
           replace (wa_nonblank l) with true
             by (unfold wa_nonblank; rewrite Et; reflexivity). cbn [map concat].
           rewrite <- app_assoc. reflexivity.
    + cbn [wa_group wa_blocks]. destruct (parseLine l) as [p|] eqn:E.
      * rewrite IHs. reflexivity.
      * destruct (js_trim l); exact IHn.
Qed.

Lemma wa_blocks_headers (lines : list units) :
  map fst (wa_blocks lines) = wa_headers lines.
Proof.
  induction lines as [|l rest IH]; [reflexivity|].
  cbn [wa_blocks wa_headers flat_map]. destruct (parseLine l); cbn [map app];
    [rewrite IH|exact IH]; reflexivity.
Qed.

(** Extra: [parseExport] makes one message per header line (a line
    [parseLine] accepts), in order: the header's date, time and sender,
    and the header's text followed, for each non-blank line up to the next
    header, by a newline and that line.  Lines before the first header
    are dropped. *)
Theorem wa_export_grouping (content : units) :
  wa_export_lines content =
    map (fun b => wa_message (fst b) (snd b)) (wa_blocks (split_lf content)) /\
  map fst (wa_blocks (split_lf content)) = wa_headers (split_lf content).
Proof.
  split; [exact (proj2 (wa_group_blocks (split_lf content))) | apply wa_blocks_headers].
Qed.

Lemma parseLine_nil : parseLine [] = None.
Proof. vm_compute. reflexivity. Qed.

Lemma wa_headers_crlf (lines : list units) :
  Forall crlf_line lines -> Forall (fun h => wl_text h = []) (wa_headers lines).
Proof.
  induction 1 as [|l rest Hl _ IH]; simpl; [constructor|].
  destruct (parseLine l) as [p|] eqn:E; simpl; [|exact IH].
  constructor; [|exact IH].
  destruct Hl as [-> | [l0 ->]].
  - rewrite parseLine_nil in E. discriminate.
  - exact (proj2 (proj2 (wa_parse_line_text _ _ E)) l0 eq_refl).
Qed.

(** Extra: on a file with CRLF line ends, no message [parseExport] makes
    keeps the text of its own header line: each text is empty or starts
    with the newline of an appended continuation line (header lines
    with text are not recognised and become continuation lines of the
    message before). *)
Theorem wa_export_crlf (content : units)
  (H : Forall crlf_line (split_lf content)) :
  Forall (fun w => wl_text w = [] \/ exists e, wl_text w = 10 :: e)
         (wa_export_lines content).
Proof.
  pose proof (wa_group_none (split_lf content)) as G. unfold wa_export_lines.
  pose proof (wa_headers_crlf _ H) as Hh.
  revert Hh. induction G as [|w h ws hs Hwh _ IH]; intros Hh; [constructor|].
  inversion Hh as [|h' hs' Hh1 Hhs]; subst.
  constructor; [|exact (IH Hhs)].
  destruct Hwh as (_ & _ & _ & extra & Hx & He).
  rewrite Hx, Hh1. simpl. destruct He as [-> | [e ->]]; [left|right; exists e]; reflexivity.
Qed.

Lemma wa_export_crlf_witness :
  let content := (units_of "1/2/23, 10:30 - Bob:" ++ [13; 10] ++
                  units_of "1/2/23, 10:31 - Ann: hi" ++ [13; 10])%list in
  Forall (fun w => wl_text w = [] \/ exists e, wl_text w = 10 :: e)
         (wa_export_lines content) /\
  map wl_text (wa_export_lines content) = [(10 :: units_of "1/2/23, 10:31 - Ann: hi" ++ [13])%list].
Proof.
  intros content. split.
  - apply wa_export_crlf.
    vm_compute. constructor; [|constructor; [|constructor; [|constructor]]].
    + right. exists (units_of "1/2/23, 10:30 - Bob:"). reflexivity.
    + right. exists (units_of "1/2/23, 10:31 - Ann: hi"). reflexivity.
    + left. reflexivity.
  - vm_compute. reflexivity.
Defined.

(* ------------------------------------------------------------------ *)
(** ** Batches sharing one [message_id] *)

Lemma message_row_of_id (md : message_data) (now : Z) (r : message_row) :
  message_row_of md now = Some r -> m_message_id md = Some (row_message_id r).
Proof.
  unfold message_row_of.
  destruct (m_message_id md), (m_session_key md), (m_direction md), (m_channel md),
    (m_timestamp md); intros H; try discriminate.
  injection H as <-. reflexivity.
Qed.

Lemma insertMessage_id_present (now : Z) (S S' : mstore) (md : message_data) (id : string) :
  m_message_id md = Some id -> insertMessage now S md true = MInserted S' ->
  existsb (fun r => String.eqb (row_message_id r) id) (messages S') = true.
Proof.
  intros Hid. unfold insertMessage. cbn [andb].
  destruct (isDuplicate S md); [discriminate|].
  destruct (message_row_of md now) as [r|] eqn:E; [|discriminate].
  destruct (message_row_error S r); [discriminate|].
  intros H. injection H as <-. cbn [messages].
  apply message_row_of_id in E. rewrite Hid in E. injection E as ->.
  rewrite existsb_app. simpl. rewrite String.eqb_refl, orb_true_r. reflexivity.
Qed.

Lemma insertMessage_skip_present (now : Z) (S : mstore) (md : message_data) (id : string) :
  m_message_id md = Some id ->
  existsb (fun r => String.eqb (row_message_id r) id) (messages S) = true ->
  insertMessage now S md true = MSkipped.
Proof.
  intros Hid Hex. unfold insertMessage, isDuplicate, dup_by_id.
  rewrite Hid, Hex. reflexivity.
Qed.

Lemma insert_all_same_id (now : Z) (id : string) (msgs : list message_data) :
  Forall (fun md => m_message_id md = Some id) msgs ->
  forall S st S1 st1, insert_all now S st msgs = Some (S1, st1) ->
  (ins_inserted st1 <= ins_inserted st + 1)%nat /\
  (existsb (fun r => String.eqb (row_message_id r) id) (messages S) = true ->
   ins_inserted st1 = ins_inserted st).
Proof.
  induction 1 as [|md rest Hmd _ IH]; intros S st S1 st1 H; simpl in H.
  - injection H as <- <-. split; [lia|reflexivity].
  - destruct (existsb (fun r => String.eqb (row_message_id r) id) (messages S)) eqn:Ex.
    + rewrite (insertMessage_skip_present now S md id Hmd Ex) in H.
      apply IH in H as [H1 H2]. cbn [ins_inserted] in *.
      split; [lia|intros _; exact (H2 Ex)].
    + destruct (insertMessage now S md true) as [S'| |err] eqn:Ei; [| |discriminate].
      * pose proof (insertMessage_id_present _ _ _ _ _ Hmd Ei) as Hp.
        apply IH in H as [_ H2]. specialize (H2 Hp). cbn [ins_inserted] in H2.
        change Nat.succ with Datatypes.S in *.
        split; [lia|discriminate].
      * apply IH in H as [H1 H2]. cbn [ins_inserted] in *.
        split; [lia|discriminate].
Qed.

(** Extra: [insertBatch] inserts at most one of messages that share a
    [message_id], and none when the archive already holds that id: every
    later one is skipped as a duplicate. *)
Theorem insertBatch_same_id (now : Z) (S S1 : mstore) (msgs : list message_data)
    (st : insert_stats) (id : string)
    (Hid : Forall (fun md => m_message_id md = Some id) msgs)
    (H : insertBatch now S msgs = Some (S1, st)) :
  (ins_inserted st <= 1)%nat /\
  (existsb (fun r => String.eqb (row_message_id r) id) (messages S) = true ->
   ins_inserted st = 0%nat).
Proof.
  exact (insert_all_same_id now id msgs Hid S (mkInsertStats 0 0) S1 st H).
Qed.

Lemma insertBatch_same_id_witness :
  match insertBatch 0 empty_mstore sample_same_id_batch with
  | Some (S1, st) => (ins_inserted st <= 1)%nat
  | None => False
  end.
Proof.
  case_eq (insertBatch 0 empty_mstore sample_same_id_batch);
    [intros [S1 st] H | intros H; vm_compute in H; discriminate].
  refine (proj1 (insertBatch_same_id 0 empty_mstore S1 sample_same_id_batch st "x" _ H)).
  repeat constructor.
Defined.

Lemma all_some_map_forall2 {A B} (f : A -> option B) (l : list A) :
  forall l', all_some (map f l) = Some l' -> Forall2 (fun x y => f x = Some y) l l'.
Proof.
  induction l as [|x l IH]; intros l' H; simpl in H.
  - injection H as <-. constructor.
  - destruct (f x) as [y|] eqn:E; [|discriminate].
    destruct (all_some (map f l)) as [ys|] eqn:E2; simpl in H; [|discriminate].
    injection H as <-. constructor; [exact E|exact (IH _ eq_refl)].
Qed.

(* ------------------------------------------------------------------ *)
(** ** [backfillSessions] *)

Lemma upsert_inserted_append (now : Z) (T T' : list session_row) (d : session_data) :
  upsertSession now T d = inr (T', true) -> exists r, T' = (T ++ [r])%list.
Proof.
  unfold upsertSession.
  destruct (getSession T (sd_id d)).
  - destruct (session_values _ _ _); [discriminate|].
    destruct (parent_ok _ _); [|discriminate]. intros H. injection H as _ H. discriminate.
  - destruct (session_values _ _ _) as [|r]; [discriminate|].
    destruct (parent_ok _ _); [|discriminate]. intros H. injection H as <-. exists r. reflexivity.
Qed.

Lemma upsert_updated_length (now : Z) (T T' : list session_row) (d : session_data) :
  upsertSession now T d = inr (T', false) -> length T' = length T.
Proof.
  unfold upsertSession.
  destruct (getSession T (sd_id d)).
  - destruct (session_values _ _ _); [discriminate|].
    destruct (parent_ok _ _); [|discriminate]. intros H. injection H as <-.
    apply length_map.
  - destruct (session_values _ _ _); [discriminate|].
    destruct (parent_ok _ _); [|discriminate]. intros H. injection H as _ H. discriminate.
Qed.

Lemma upsert_new_inserted (now : Z) (T T' : list session_row) (d : session_data) (b : bool) :
  getSession T (sd_id d) = None -> upsertSession now T d = inr (T', b) -> b = true.
Proof.
  unfold upsertSession. intros ->.
  destruct (session_values _ _ _); [discriminate|].
  destruct (parent_ok _ _); [|discriminate]. intros H. injection H as _ <-. reflexivity.
Qed.

Ltac bf_same Hsame H Hbf :=
  apply (Hsame _ H);
    [apply Hbf
    |intros; first [reflexivity | discriminate]
    |intros; first [reflexivity | discriminate]].

Lemma backfill_loop_spec (dryRun force : bool) (files : list sfile) :
  forall T c T' c', backfill_loop dryRun force T c files = (T', c') ->
  bf_total c' = (bf_total c + length files)%nat /\
  (dryRun = true -> T' = T) /\
  (dryRun = false -> (bf_inserted c <= bf_inserted c')%nat /\
                     length T' = (length T + (bf_inserted c' - bf_inserted c))%nat) /\
  (force = false -> bf_updated c' = bf_updated c /\ exists rows, T' = (T ++ rows)%list).
Proof.
  induction files as [|f rest IH]; intros T c T' c' H; simpl in H.
  - injection H as <- <-. cbn [length]. split; [lia|]. split; [auto|].
    split; [intros _; split; lia|].
    intros _. split; [reflexivity|]. exists []. rewrite app_nil_r. reflexivity.
  - assert (Hsame : forall c1, backfill_loop dryRun force T c1 rest = (T', c') ->
              bf_total c1 = Datatypes.S (bf_total c) ->
              (dryRun = false -> bf_inserted c1 = bf_inserted c) ->
              (force = false -> bf_updated c1 = bf_updated c) ->
              bf_total c' = (bf_total c + length (f :: rest))%nat /\
              (dryRun = true -> T' = T) /\
              (dryRun = false -> (bf_inserted c <= bf_inserted c')%nat /\
                                 length T' = (length T + (bf_inserted c' - bf_inserted c))%nat) /\
              (force = false -> bf_updated c' = bf_updated c /\
                                exists rows, T' = (T ++ rows)%list)).
    { intros c1 H1 Ht Hi Hu. apply IH in H1 as (H1 & H2 & H3 & H4).
      cbn [length]. split; [lia|]. split; [exact H2|]. split.
      - intros Hd. destruct (H3 Hd). specialize (Hi Hd). split; lia.
      - intros Hf. destruct (H4 Hf) as [Hu' rows]. specialize (Hu Hf).
        split; [lia|exact rows]. }
    assert (Hbf : forall c0, bf_total (bf_inc_errors c0) = Datatypes.S (bf_total c0) /\
                             bf_total (bf_inc_skipped c0) = Datatypes.S (bf_total c0) /\
                             bf_total (bf_inc_inserted c0) = Datatypes.S (bf_total c0) /\
                             bf_total (bf_inc_updated c0) = Datatypes.S (bf_total c0))
      by (intros c0; unfold bf_total; cbn; change Nat.succ with Datatypes.S; repeat split; lia).
    destruct (sf_detected f) as [d|];
      [|bf_same Hsame H Hbf].
    destruct (getSession T (sd_id d)) as [ex|] eqn:Eg; destruct force;
      cbn [session_exists andb negb] in H;
      try (bf_same Hsame H Hbf).
    all: destruct (sf_summary f) as [[title summary]|];
      [|bf_same Hsame H Hbf].
    all: destruct dryRun; cbn [negb] in H;
      [bf_same Hsame H Hbf|].
    all: destruct (upsertSession (sf_now f) T (with_summary d title summary))
           as [err|[T1 [|]]] eqn:Eu;
      [bf_same Hsame H Hbf| |].
    all: apply IH in H as (H1 & _ & H3 & H4); cbn [length];
      cbn [bf_inc_inserted bf_inc_updated bf_inserted bf_updated] in *;
      change Nat.succ with Datatypes.S in *.
    all: split; [rewrite H1; destruct (Hbf c) as (_ & _ & E1 & E2);
                 first [rewrite E1 | rewrite E2]; lia|].
    all: split; [discriminate|].
    all: try (destruct (upsert_inserted_append _ _ _ _ Eu) as [r ->]).
    all: try (pose proof (upsert_updated_length _ _ _ _ Eu) as Hl).
    all: split; [intros _; destruct (H3 eq_refl) as [Ha Hb];
                 rewrite ?length_app in *; cbn [length] in *; split; lia|].
    all: intros Hf; try discriminate.
    + destruct (H4 eq_refl) as [Hu [rows ->]]. split; [exact Hu|].
      exists (r :: rows). rewrite <- app_assoc. reflexivity.
    + pose proof (upsert_new_inserted _ T T1 (with_summary d title summary) false Eg Eu). discriminate.
Qed.

(** Extra: [backfillSessions] counts every file it processes (the first
    [limit] ones when [limit] is a positive number) exactly once, as
    inserted, updated, skipped or an error; a dry run leaves the sessions
    table alone; otherwise the table grows by the inserted count; and
    without [force] no session is updated: existing rows stay as they
    were and new ones are appended. *)
Theorem backfill_sessions_accounting (dryRun force : bool) (limit : option nat)
    (T T' : list session_row) (files : list sfile) (c : backfill_stats)
    (H : backfillSessions dryRun force limit T files = (T', c)) :
  bf_total c = length (files_to_process limit files) /\
  (dryRun = true -> T' = T) /\
  (dryRun = false -> length T' = (length T + bf_inserted c)%nat) /\
  (force = false -> bf_updated c = 0%nat /\ exists rows, T' = (T ++ rows)%list).
Proof.
  apply backfill_loop_spec in H as (H1 & H2 & H3 & H4).
  cbn [bf_total bf_inserted bf_updated bf_skipped bf_errors] in *.
  split; [exact H1|]. split; [exact H2|]. split.
  - intros Hd. destruct (H3 Hd) as [_ Hl]. lia.
  - exact H4.
Qed.

Lemma backfill_sessions_accounting_witness :
  let r := backfillSessions false false None [] sample_sfiles in
  bf_total (snd r) = 3%nat /\ bf_updated (snd r) = 0%nat /\
  snd r = mkBackfillStats 1 0 1 1.
Proof.
  intros r.
  destruct (backfill_sessions_accounting false false None [] (fst r)
              sample_sfiles (snd r) (surjective_pairing _))
    as (H1 & _ & _ & H4).
  split; [exact H1|]. split; [exact (proj1 (H4 eq_refl))|].
  vm_compute. reflexivity.
Defined.

(* ------------------------------------------------------------------ *)
(** ** [exportCSV] read back *)

Lemma csv_sep_comma (m : csv_mode) (cur : list ascii) (fields : list string) (rest : list ascii) :
  m <> CQuoted ->
  csv_go m cur fields (csv_comma :: rest) =
  csv_go CStart [] (fields ++ [string_of_list_ascii cur])%list rest.
Proof. destruct m; intros Hm; [reflexivity|reflexivity|congruence|reflexivity]. Qed.

Lemma csv_sep_nl (m : csv_mode) (cur : list ascii) (fields : list string) (rest : list ascii) :
  m <> CQuoted ->
  csv_go m cur fields (csv_nl :: rest) =
  (fields ++ [string_of_list_ascii cur])%list :: csv_go CStart [] [] rest.
Proof. destruct m; intros Hm; [reflexivity|reflexivity|congruence|reflexivity]. Qed.

Lemma csv_plain (v : list ascii) : forall (m : csv_mode) (cur : list ascii) (fields : list string)
    (rest : list ascii),
  (m = CStart \/ m = CPlain) ->
  forallb (fun c => negb (csv_special c)) v = true ->
  exists m', (m' = CStart \/ m' = CPlain) /\
    csv_go m cur fields (v ++ rest)%list = csv_go m' (cur ++ v)%list fields rest.
Proof.
  induction v as [|c v IH]; intros m cur fields rest Hm Hv.
  - exists m. rewrite app_nil_r. split; [exact Hm | reflexivity].
  - cbn [forallb] in Hv. apply andb_prop in Hv as [Hc Hv].
    unfold csv_special in Hc.
    destruct (Ascii.eqb c csv_comma) eqn:E1; [discriminate|].
    destruct (Ascii.eqb c csv_dq) eqn:E2; [discriminate|].
    destruct (Ascii.eqb c csv_nl) eqn:E3; [discriminate|].
    destruct (IH CPlain (cur ++ [c])%list fields rest (or_intror eq_refl) Hv) as [m' [Hm' Heq]].
    exists m'. split; [exact Hm'|].
    rewrite <- app_assoc in Heq. cbn [app] in Heq.
    destruct Hm as [-> | ->]; cbn [app csv_go]; rewrite E1, E3; try rewrite E2; exact Heq.
Qed.

Lemma csv_quoted (l : list ascii) : forall (cur : list ascii) (fields : list string) (rest : list ascii),
  csv_go CQuoted cur fields (double_quotes l ++ csv_dq :: rest)%list =
  csv_go CQuoteSeen (cur ++ l)%list fields rest.
Proof.
  induction l as [|c l IH]; intros cur fields rest.
  - rewrite app_nil_r. reflexivity.
  - cbn [double_quotes]. destruct (Ascii.eqb c csv_dq) eqn:E.
    + apply Ascii.eqb_eq in E. subst c. cbn [app csv_go].
      replace (cur ++ csv_dq :: l)%list with ((cur ++ [csv_dq]) ++ l)%list
        by (rewrite <- app_assoc; reflexivity).
      rewrite <- IH. reflexivity.
    + cbn [app csv_go]. rewrite E.
      replace (cur ++ c :: l)%list with ((cur ++ [c]) ++ l)%list
        by (rewrite <- app_assoc; reflexivity).
      apply IH.
Qed.

Lemma double_quotes_no_special (l : list ascii) :
  existsb csv_special (double_quotes l) = false ->
  double_quotes l = l /\ forallb (fun c => negb (csv_special c)) l = true.
Proof.
  induction l as [|c l IH]; intros H; [split; reflexivity|].
  cbn [double_quotes] in H |- *. destruct (Ascii.eqb c csv_dq) eqn:E.
  - apply Ascii.eqb_eq in E. subst c. discriminate H.
  - cbn [existsb] in H. apply Bool.orb_false_iff in H as [Hc H].
    destruct (IH H) as [-> Hf]. split; [reflexivity|].
    cbn [forallb]. rewrite Hc, Hf. reflexivity.
Qed.

Lemma csv_field_read (s : string) (fields : list string) (rest : list ascii) :
  exists m, m <> CQuoted /\
    csv_go CStart [] fields (csv_escape s ++ rest)%list =
    csv_go m (list_ascii_of_string s) fields rest.
Proof.
  unfold csv_escape. destruct (existsb csv_special _) eqn:E.
  - exists CQuoteSeen. split; [discriminate|].
    rewrite <- app_comm_cons, <- app_assoc. cbn [app csv_go].
    apply csv_quoted.
  - apply double_quotes_no_special in E as [Hd Hf]. rewrite Hd.
    destruct (csv_plain (list_ascii_of_string s) CStart [] fields rest (or_introl eq_refl) Hf)
      as [m' [Hm' Heq]].
    exists m'. split; [destruct Hm' as [-> | ->]; discriminate|]. exact Heq.
Qed.

Lemma csv_row_read (vs : list string) : forall (fields : list string) (rest : list ascii),
  vs <> [] ->
  csv_go CStart [] fields (join_comma (map csv_escape vs) ++ csv_nl :: rest)%list =
  (fields ++ vs)%list :: csv_go CStart [] [] rest.
Proof.
  induction vs as [|x vs IH]; intros fields rest Hne; [congruence|].
  destruct vs as [|y vs].
  - cbn [map join_comma].
    destruct (csv_field_read x fields (csv_nl :: rest)) as [m [Hm ->]].
    rewrite csv_sep_nl by exact Hm. rewrite string_of_list_ascii_of_string. reflexivity.
  - change (map csv_escape (x :: y :: vs)) with (csv_escape x :: map csv_escape (y :: vs)).
    change (join_comma (csv_escape x :: map csv_escape (y :: vs)))
      with (csv_escape x ++ csv_comma :: join_comma (map csv_escape (y :: vs)))%list.
    rewrite <- app_assoc, <- app_comm_cons.
    destruct (csv_field_read x fields (csv_comma :: join_comma (map csv_escape (y :: vs)) ++ csv_nl :: rest)%list)
      as [m [Hm ->]].
    rewrite csv_sep_comma by exact Hm. rewrite string_of_list_ascii_of_string.
    rewrite IH by discriminate. rewrite <- app_assoc. reflexivity.
Qed.

Lemma csv_doc_read (rows : list (list string)) :
  Forall (fun r => r <> []) rows ->
  csv_go CStart [] [] (concat (map (fun r => join_comma (map csv_escape r) ++ [csv_nl]) rows))%list
  = rows.
Proof.
  induction rows as [|r rows IH]; intros H; [reflexivity|].
  inversion H as [|? ? Hr Hrs]; subst.
  cbn [map concat]. rewrite <- app_assoc. cbn [app].
  rewrite csv_row_read by exact Hr. rewrite IH by exact Hrs. reflexivity.
Qed.

(** X25 [exportCSV]: the CSV text it produces reads back, with the quoting
    rules of RFC 4180, as the header row followed by one row per message
    holding the message's eight fields as strings ([msg[field] || ''] of
    each header), whatever commas, quotes or newlines the values hold. *)
Theorem csv_round_trip (msgs : list sql_row) :
  csv_parse (exportCSV msgs) =
  message_csv_headers ::
    map (fun msg => map (fun f => csv_field (assoc f msg)) message_csv_headers) msgs.
Proof.
  unfold csv_parse, exportCSV. rewrite list_ascii_of_string_of_list_ascii.
  replace (join_comma (map list_ascii_of_string message_csv_headers))
    with (join_comma (map csv_escape message_csv_headers)) by (vm_compute; reflexivity).
  rewrite <- (csv_doc_read (message_csv_headers ::
    map (fun msg => map (fun f => csv_field (assoc f msg)) message_csv_headers) msgs)).
  - cbn [map concat]. rewrite <- app_assoc. rewrite !map_map. reflexivity.
  - constructor; [discriminate|]. apply Forall_forall. intros r Hr.
    apply in_map_iff in Hr as [msg [<- _]]. discriminate.
Qed.

(* ------------------------------------------------------------------ *)
(** ** [extractRecentMemoryAdditions] *)

Lemma recent_fold_preamble (maxEntries : nat) (pre : list units) :
  forallb (fun l => negb (is_entry_header l)) pre = true ->
  fold_left (recent_step maxEntries) pre ([], false, []) = ([], false, []).
Proof.
  induction pre as [|l pre IH]; intros H; [reflexivity|].
  cbn [forallb] in H. apply andb_prop in H as [Hl H].
  cbn [fold_left]. unfold recent_step at 2.
  destruct (is_entry_header l); [discriminate|]. exact (IH H).
Qed.

Lemma recent_fold_body (maxEntries : nat) (body : list units) :
  forall recent cur,
  forallb (fun l => negb (is_entry_header l)) body = true ->
  fold_left (recent_step maxEntries) body (recent, true, cur) = (recent, true, (cur ++ body)%list).
Proof.
  induction body as [|l body IH]; intros recent cur H; [rewrite app_nil_r; reflexivity|].
  cbn [forallb] in H. apply andb_prop in H as [Hl H].
  cbn [fold_left]. unfold recent_step at 2.
  destruct (is_entry_header l); [discriminate|]. rewrite IH by exact H.
  rewrite <- app_assoc. reflexivity.
Qed.

Lemma push_entry_firstn (maxEntries : nat) (recent : list units) (cur : list units)
    (rest : list units) :
  (length recent <= maxEntries)%nat -> cur <> [] ->
  firstn maxEntries (push_entry maxEntries recent cur ++ rest)%list =
  firstn maxEntries (recent ++ join_lf cur :: rest)%list /\
  (length (push_entry maxEntries recent cur) <= maxEntries)%nat.
Proof.
  intros Hle Hcur. unfold push_entry.
  destruct cur as [|c cur]; [congruence|].
  destruct (Nat.ltb (length recent) maxEntries) eqn:E.
  - apply Nat.ltb_lt in E. rewrite <- app_assoc. split; [reflexivity|].
    rewrite length_app. cbn [length]. lia.
  - apply Nat.ltb_ge in E. split; [|lia].
    rewrite !firstn_app. replace (maxEntries - length recent)%nat with 0%nat by lia.
    reflexivity.
Qed.

Lemma recent_fold_entries (maxEntries : nat) (es : list (units * list units)) :
  forall recent cur,
  (length recent <= maxEntries)%nat -> cur <> [] ->
  forallb (fun e => is_entry_header (fst e) &&
                    forallb (fun l => negb (is_entry_header l)) (snd e)) es = true ->
  (let '(r, _, c) := fold_left (recent_step maxEntries)
                       (concat (map (fun e => fst e :: snd e) es)) (recent, true, cur) in
   push_entry maxEntries r c) =
  firstn maxEntries (recent ++ join_lf cur :: map (fun e => join_lf (fst e :: snd e)) es)%list.
Proof.
  induction es as [|[h body] es IH]; intros recent cur Hle Hcur Hes.
  - cbn [map concat fold_left].
    destruct (push_entry_firstn maxEntries recent cur [] Hle Hcur) as [Hf Hl].
    rewrite app_nil_r in Hf. rewrite <- Hf. symmetry. apply firstn_all2. exact Hl.
  - cbn [forallb fst snd] in Hes. apply andb_prop in Hes as [Hhb Hes].
    apply andb_prop in Hhb as [Hh Hb].
    cbn [map concat]. rewrite fold_left_app. cbn [fold_left app].
    cbn [recent_step fst snd]. rewrite Hh.
    rewrite (recent_fold_body maxEntries body _ [h] Hb).
    destruct (push_entry_firstn maxEntries recent cur
                (join_lf (h :: body) :: map (fun e => join_lf (fst e :: snd e)) es) Hle Hcur)
      as [Hf Hl].
    rewrite (IH _ ([h] ++ body)%list Hl ltac:(discriminate) Hes).
    cbn [app]. rewrite <- Hf. reflexivity.
Qed.

(** X28 [extractRecentMemoryAdditions]: for a MEMORY.md made of preamble
    lines that are no entry header, then entries each made of a header line
    (one matching [/^##\s/], so not a [###] line) and its non-header lines,
    the result is the first [maxEntries] entries, each joined back with
    newlines; the preamble is dropped. *)
Theorem recent_additions_entries (content : units) (maxEntries : nat)
    (pre : list units) (es : list (units * list units))
    (Hsplit : split_lf content = (pre ++ concat (map (fun e => fst e :: snd e) es))%list)
    (Hpre : forallb (fun l => negb (is_entry_header l)) pre = true)
    (Hes : forallb (fun e => is_entry_header (fst e) &&
                             forallb (fun l => negb (is_entry_header l)) (snd e)) es = true) :
  extractRecentMemoryAdditions content maxEntries =
  firstn maxEntries (map (fun e => join_lf (fst e :: snd e)) es).
Proof.
  unfold extractRecentMemoryAdditions. rewrite Hsplit, fold_left_app.
  rewrite (recent_fold_preamble maxEntries pre Hpre).
  destruct es as [|[h body] es].
  - cbn. destruct maxEntries; reflexivity.
  - cbn [forallb fst snd] in Hes. apply andb_prop in Hes as [Hhb Hes'].
    apply andb_prop in Hhb as [Hh Hb].
    cbn [map concat]. rewrite fold_left_app. cbn [fold_left app].
    cbn [recent_step fst snd]. rewrite Hh.
    rewrite (recent_fold_body maxEntries body _ [h] Hb).
    cbn [push_entry].
    rewrite (recent_fold_entries maxEntries es [] ([h] ++ body)%list
               ltac:(cbn; lia) ltac:(discriminate) Hes').
    reflexivity.
Qed.

Lemma recent_additions_entries_witness :
  split_lf sample_memory =
    ([units_of "# Memory"; units_of "intro"] ++
     concat (map (fun e => fst e :: snd e)
       [(units_of "## A", [units_of "a1"; units_of "### sub"]);
        (units_of "## B", [units_of "b1"]); (units_of "## C", [])]))%list /\
  extractRecentMemoryAdditions sample_memory 2 =
    [units_of "## A
a1
### sub"; units_of "## B
b1"].
Proof.
  split; [vm_compute; reflexivity|].
  rewrite (recent_additions_entries sample_memory 2 [units_of "# Memory"; units_of "intro"]
    [(units_of "## A", [units_of "a1"; units_of "### sub"]);
     (units_of "## B", [units_of "b1"]); (units_of "## C", [])]
    ltac:(vm_compute; reflexivity) ltac:(vm_compute; reflexivity) ltac:(vm_compute; reflexivity)).
  vm_compute. reflexivity.
Defined.

(* ------------------------------------------------------------------ *)
(** ** [manageMemorySize] *)

Lemma split_lf_not_nil (s : units) : split_lf s <> [].
Proof.
  destruct s as [|u s]; cbn [split_lf]; [discriminate|].
  destruct (Z.eqb u 10); [discriminate|]. destruct (split_lf s); discriminate.
Qed.

Lemma split_lf_no_lf (s : units) : Forall (fun l => ~ In 10 l) (split_lf s).
Proof.
  induction s as [|u s IH]; cbn [split_lf].
  - constructor; [intros []|constructor].
  - destruct (Z.eqb u 10) eqn:E.
    + constructor; [intros []|exact IH].
    + destruct (split_lf s) as [|l ls].
      * constructor; [|constructor]. intros [H|[]]. subst u. discriminate.
      * inversion IH as [|? ? Hl Hls]; subst. constructor; [|exact Hls].
        intros [H|H]; [subst u; discriminate|exact (Hl H)].
Qed.

Lemma join_split_lf (s : units) : join_lf (split_lf s) = s.
Proof.
  induction s as [|u s IH]; [reflexivity|]. cbn [split_lf].
  destruct (Z.eqb u 10) eqn:E.
  - apply Z.eqb_eq in E. subst u.
    pose proof (split_lf_not_nil s) as Hne.
    destruct (split_lf s) as [|l ls]; [congruence|].
    change (join_lf ([] :: l :: ls)) with ([] ++ 10 :: join_lf (l :: ls))%list.
    rewrite IH. reflexivity.
  - pose proof (split_lf_not_nil s) as Hne.
    destruct (split_lf s) as [|l ls]; [congruence|].
    destruct ls as [|l' ls]; cbn [join_lf] in IH |- *; rewrite <- IH; reflexivity.
Qed.

Lemma split_lf_no_lf_line (l : units) : ~ In 10 l -> split_lf l = [l].
Proof.
  induction l as [|u l IH]; intros H; [reflexivity|]. cbn [split_lf].
  destruct (Z.eqb u 10) eqn:E.
  - apply Z.eqb_eq in E. subst u. exfalso. apply H. left. reflexivity.
  - rewrite IH by (intros H'; apply H; right; exact H'). reflexivity.
Qed.

Lemma split_lf_app_lf (l rest : units) :
  ~ In 10 l -> split_lf (l ++ 10 :: rest)%list = l :: split_lf rest.
Proof.
  induction l as [|u l IH]; intros H; [reflexivity|]. cbn [app split_lf].
  destruct (Z.eqb u 10) eqn:E.
  - apply Z.eqb_eq in E. subst u. exfalso. apply H. left. reflexivity.
  - rewrite IH by (intros H'; apply H; right; exact H'). reflexivity.
Qed.

Lemma split_join_lf (ls : list units) :
  ls <> [] -> Forall (fun l => ~ In 10 l) ls -> split_lf (join_lf ls) = ls.
Proof.
  induction ls as [|l ls IH]; intros Hne H; [congruence|].
  inversion H as [|? ? Hl Hls]; subst.
  destruct ls as [|l' ls].
  - apply split_lf_no_lf_line. exact Hl.
  - change (join_lf (l :: l' :: ls)) with (l ++ 10 :: join_lf (l' :: ls))%list.
    rewrite split_lf_app_lf by exact Hl. rewrite IH by (discriminate || exact Hls).
    reflexivity.
Qed.

Lemma join_lf_app (a b : list units) :
  a <> [] -> b <> [] -> join_lf (a ++ b) = (join_lf a ++ 10 :: join_lf b)%list.
Proof.
  induction a as [|x a IH]; intros Ha Hb; [congruence|].
  destruct a as [|y a].
  - cbn [app]. destruct b as [|z b]; [congruence|]. reflexivity.
  - change ((x :: y :: a) ++ b)%list with (x :: ((y :: a) ++ b))%list.
    change (join_lf (x :: ((y :: a) ++ b))) with (x ++ 10 :: join_lf ((y :: a) ++ b))%list.
    rewrite IH by (discriminate || exact Hb).
    change (join_lf (x :: y :: a)) with (x ++ 10 :: join_lf (y :: a))%list.
    rewrite <- app_assoc. reflexivity.
Qed.

(** The [currentSize] the loop reaches after [ls]: each line counts its
    length plus one. *)
Fixpoint lines_size (ls : list units) : Z :=
  match ls with
  | [] => 0
  | l :: ls' => Z.of_nat (length l) + 1 + lines_size ls'
  end.

Lemma lines_size_join (ls : list units) :
  ls <> [] -> lines_size ls = Z.of_nat (length (join_lf ls)) + 1.
Proof.
  induction ls as [|l ls IH]; intros Hne; [congruence|].
  destruct ls as [|l' ls].
  - cbn [lines_size join_lf]. lia.
  - change (join_lf (l :: l' :: ls)) with (l ++ 10 :: join_lf (l' :: ls))%list.
    cbn [lines_size] in IH |- *. rewrite IH by discriminate.
    rewrite length_app. cbn [length]. lia.
Qed.

Lemma lines_size_app (a b : list units) : lines_size (a ++ b) = lines_size a + lines_size b.
Proof. induction a as [|l a IH]; cbn [app lines_size]; [reflexivity|]. rewrite IH. lia. Qed.

Lemma split_search_spec (lines : list units) : forall cur i,
  split_search cur i lines = 0%nat \/
  exists pre l post,
    lines = (pre ++ l :: post)%list /\
    split_search cur i lines = (i + length pre)%nat /\
    is_entry_header l = true /\
    memory_target_size <= cur + lines_size (pre ++ [l]) /\
    (forall pre' l' post', pre = (pre' ++ l' :: post')%list -> is_entry_header l' = true ->
       cur + lines_size (pre' ++ [l']) < memory_target_size).
Proof.
  induction lines as [|l ls IH]; intros cur i; [left; reflexivity|].
  cbn [split_search].
  destruct (memory_target_size <=? cur + Z.of_nat (length l) + 1) eqn:Ec;
    destruct (is_entry_header l) eqn:Eh; cbn [andb].
  1: { right. exists [], l, ls. repeat split; try assumption.
    - cbn. lia.
    - apply Z.leb_le in Ec. cbn [app lines_size]. lia.
    - intros pre' l' post' Hp. destruct pre'; discriminate. }
  all: destruct (IH (cur + Z.of_nat (length l) + 1) (Datatypes.S i))
    as [H | [pre [l0 [post [Hl [Hs [Hh [Ht Hmin]]]]]]]]; [left; exact H|].
  all: right; exists (l :: pre), l0, post.
  all: split; [rewrite Hl; reflexivity|].
  all: split; [rewrite Hs; cbn [length]; lia|].
  all: split; [exact Hh|].
  all: split; [cbn [app lines_size]; lia|].
  all: intros pre' l' post' Hp Hh'; destruct pre' as [|l1 pre'];
    [ injection Hp as <- _; try congruence | injection Hp as <- Hp ].
  all: cbn [app lines_size];
    first [ apply Z.leb_gt in Ec; lia | pose proof (Hmin pre' l' post' Hp Hh'); lia ].
Qed.

(** X29 [manageMemorySize]: when it rewrites MEMORY.md, the file was over
    [MAX_MEMORY_SIZE] bytes; the kept part, a newline and the archived
    part give back the old content; the archive starts with an entry
    header ([/^##\s/]) at which the running size (line lengths plus one
    each) has reached [Math.floor(MAX_MEMORY_SIZE * 0.6)]; and no header
    line left in MEMORY.md reached that size. *)
Theorem memory_split_sound (size : Z) (content keep archive : units)
    (H : manageMemorySize size content = Some (keep, archive)) :
  MAX_MEMORY_SIZE < size /\
  (keep ++ 10 :: archive)%list = content /\
  (exists line rest, split_lf archive = line :: rest /\ is_entry_header line = true /\
     memory_target_size <= Z.of_nat (length keep + length line) + 2) /\
  (forall pre l post, split_lf keep = (pre ++ l :: post)%list -> is_entry_header l = true ->
     Z.of_nat (length (join_lf (pre ++ [l]))) + 1 < memory_target_size).
Proof.
  unfold manageMemorySize in H.
  destruct (size <=? MAX_MEMORY_SIZE) eqn:Es; [discriminate|].
  apply Z.leb_gt in Es.
  pose proof (split_lf_no_lf content) as Hnl.
  destruct (split_search_spec (split_lf content) 0 0)
    as [H0 | [pre [l [post [Hl [Hs [Hh [Ht Hmin]]]]]]]].
  { rewrite H0 in H. discriminate. }
  rewrite Hs in H. cbn [Nat.add] in H.
  destruct (Nat.eqb (length pre) 0) eqn:E0; [discriminate|].
  apply Nat.eqb_neq in E0.
  assert (Hpre : pre <> []) by (destruct pre; cbn [length] in E0; congruence).
  rewrite Hl, firstn_app, skipn_app, firstn_all, skipn_all, Nat.sub_diag in H.
  cbn [firstn skipn] in H. rewrite app_nil_r in H. cbn [app] in H.
  assert (Hk : keep = join_lf pre) by congruence.
  assert (Ha : archive = join_lf (l :: post)) by congruence.
  subst keep archive. clear H.
  rewrite Hl in Hnl. apply Forall_app in Hnl as [Hnpre Hnpost].
  split; [exact Es|]. split; [|split].
  - rewrite <- join_lf_app by (exact Hpre || discriminate).
    rewrite <- Hl. apply join_split_lf.
  - exists l, post. split; [apply split_join_lf; [discriminate|exact Hnpost]|].
    split; [exact Hh|].
    rewrite lines_size_join in Ht by (destruct pre; discriminate).
    rewrite join_lf_app in Ht by (exact Hpre || discriminate).
    cbn [join_lf] in Ht. rewrite length_app in Ht. cbn [length] in Ht. lia.
  - intros pre' l' post' Hp Hh'.
    rewrite split_join_lf in Hp by assumption.
    pose proof (Hmin pre' l' post' Hp Hh') as Hm.
    rewrite lines_size_join in Hm by (destruct pre'; discriminate). lia.
Qed.

Lemma memory_split_sound_witness :
  exists keep archive,
    manageMemorySize 60000 sample_big_memory = Some (keep, archive) /\
    MAX_MEMORY_SIZE < 60000 /\
    (keep ++ 10 :: archive)%list = sample_big_memory /\
    (exists line rest, split_lf archive = line :: rest /\ is_entry_header line = true /\
       memory_target_size <= Z.of_nat (length keep + length line) + 2) /\
    (forall pre l post, split_lf keep = (pre ++ l :: post)%list -> is_entry_header l = true ->
       Z.of_nat (length (join_lf (pre ++ [l]))) + 1 < memory_target_size).
Proof.
  case_eq (manageMemorySize 60000 sample_big_memory);
    [intros [keep archive] H | intros H; vm_compute in H; discriminate].
  exists keep, archive. split; [reflexivity|].
  exact (memory_split_sound 60000 sample_big_memory keep archive H).
Defined.

(* ------------------------------------------------------------------ *)
(** ** The synthesis themes of [createConsolidationReport] *)

Lemma themes_loop_full (lines : list units) : forall n acc,
  (50 <= n)%nat -> themes_loop n lines acc = acc.
Proof.
  induction lines as [|l ls IH]; intros n acc Hn; [reflexivity|].
  cbn [themes_loop]. replace (Nat.ltb n 50) with false by (symmetry; apply Nat.ltb_ge; exact Hn).
  destruct (starts_with_hashes l); [reflexivity|]. apply IH. exact Hn.
Qed.

Lemma themes_loop_firstn (lines : list units) : forall n acc,
  (n <= 50)%nat -> themes_loop n lines acc = (acc ++ firstn (50 - n) lines)%list.
Proof.
  induction lines as [|l ls IH]; intros n acc Hn.
  - rewrite firstn_nil, app_nil_r. reflexivity.
  - cbn [themes_loop]. destruct (Nat.ltb n 50) eqn:E.
    + apply Nat.ltb_lt in E. rewrite IH by lia. rewrite <- app_assoc.
      replace (50 - n)%nat with (Datatypes.S (50 - Datatypes.S n)) by lia. reflexivity.
    + apply Nat.ltb_ge in E. replace (50 - n)%nat with 0%nat by lia.
      rewrite app_nil_r. destruct (starts_with_hashes l); [reflexivity|].
      apply themes_loop_full. exact E.
Qed.

(** X30 [createConsolidationReport]: the synthesis themes are exactly the
    first 50 lines of dream-notes.md joined with newlines; the [break] on a
    line starting with [##] only stops the scan after those lines and
    never changes the result. *)
Theorem synthesis_themes_first_lines (dreamContent : units) :
  synthesis_themes dreamContent = join_lf (firstn 50 (split_lf dreamContent)).
Proof.
  unfold synthesis_themes. rewrite themes_loop_firstn by lia. reflexivity.
Qed.
